(** * MaRGE dataset manager: [createMirroredDataset]

    A shallow embedding of [manager/dataset_manager.py] and the properties of
    its specification.

    The routine derives a session directory from a session record and a scan
    record, creates the directory scaffolding, copies the files of the scan
    from the acquisition directory and writes a metadata file; every exception
    is turned into the return value [None].

    Conventions of the embedding:
    - a Python [str] is a [string]; its characters are code points below 256;
    - a Python [dict] with string keys is an association list in insertion
      order;
    - the file system is a finite map from locations to nodes, threaded through
      a state-and-exception monad; there are no symbolic links, no permission
      bits and no concurrent writers;
    - console output ([print]) is not part of the model. *)

From Stdlib Require Import ZArith NArith Ascii String List Bool Lia.
From stdpp Require Import base option list strings gmap pretty.

Local Open Scope string_scope.
Local Open Scope list_scope.

#[local] Set Warnings "-register-all".

(** ** Python strings *)

Module PyStr.

Definition eqb (a b : string) : bool := bool_decide (a = b).

Fixpoint map_chars (f : ascii -> ascii) (s : string) : string :=
  match s with
  | EmptyString => EmptyString
  | String c s' => String (f c) (map_chars f s')
  end.

Fixpoint interleave (sep s : string) : string :=
  match s with
  | EmptyString => EmptyString
  | String c s' => String c (sep +:+ interleave sep s')
  end.

(** [replace_go old new skip s]: left-to-right scan for non-overlapping
    occurrences of a non-empty [old]; [skip] counts the characters of the
    occurrence just replaced that are still to be dropped. *)
Fixpoint replace_go (old new : string) (skip : nat) (s : string) : string :=
  match s with
  | EmptyString => EmptyString
  | String c s' =>
      match skip with
      | S k => replace_go old new k s'
      | O =>
          if String.prefix old s
          then new +:+ replace_go old new (String.length old - 1) s'
          else String c (replace_go old new 0 s')
      end
  end.

(** [s.replace(old, new)] *)
Definition replace (old new s : string) : string :=
  match old with
  | EmptyString => new +:+ interleave new s
  | _ => replace_go old new 0 s
  end.

(** [s.startswith(p)] *)
Definition startswith (s p : string) : bool := String.prefix p s.

Fixpoint drop (n : nat) (s : string) : string :=
  match n, s with
  | O, _ => s
  | S n', EmptyString => EmptyString
  | S n', String _ s' => drop n' s'
  end.

Fixpoint take (n : nat) (s : string) : string :=
  match n, s with
  | O, _ => EmptyString
  | S n', EmptyString => EmptyString
  | S n', String c s' => String c (take n' s')
  end.

(** [s.endswith(p)] *)
Definition endswith (s p : string) : bool :=
  (String.length p <=? String.length s)%nat
  && eqb (drop (String.length s - String.length p) s) p.

(** [s.rfind(c)] for a one-character needle: the index of the last
    occurrence, [None] for Python's [-1]. *)
Fixpoint rfind (c : ascii) (s : string) : option nat :=
  match s with
  | EmptyString => None
  | String a s' =>
      match rfind c s' with
      | Some i => Some (S i)
      | None => if Ascii.eqb a c then Some 0%nat else None
      end
  end.

(** Does some character of [s] differ from [c]? *)
Fixpoint has_other (c : ascii) (s : string) : bool :=
  match s with
  | EmptyString => false
  | String a s' => negb (Ascii.eqb a c) || has_other c s'
  end.

(** [s.split(c)] for a one-character separator. *)
Fixpoint split (c : ascii) (s : string) : list string :=
  match s with
  | EmptyString => [EmptyString]
  | String a s' =>
      if Ascii.eqb a c then EmptyString :: split c s'
      else match split c s' with
           | w :: ws => String a w :: ws
           | [] => [String a EmptyString]
           end
  end.

Definition is_digit (c : ascii) : bool :=
  let n := N_of_ascii c in ((48 <=? n) && (n <=? 57))%N.

Definition digit_val (c : ascii) : N := (N_of_ascii c - 48)%N.

Definition digit_char (n : N) : ascii := ascii_of_N (48 + n mod 10)%N.

Definition hex_char (n : N) : ascii :=
  let d := (n mod 16)%N in
  if (d <? 10)%N then ascii_of_N (48 + d)%N else ascii_of_N (87 + d)%N.

(** [n] in lower-case hexadecimal on exactly [w] digits. *)
Fixpoint hex (w : nat) (n : N) : string :=
  match w with
  | O => EmptyString
  | S w' => hex w' (n / 16)%N +:+ String (hex_char n) EmptyString
  end.

(** [n] in decimal on exactly [w] digits, zero-filled. *)
Fixpoint zfill (w : nat) (n : N) : string :=
  match w with
  | O => EmptyString
  | S w' => zfill w' (n / 10)%N +:+ String (digit_char n) EmptyString
  end.

Fixpoint contains_char (c : ascii) (s : string) : bool :=
  match s with
  | EmptyString => false
  | String a s' => Ascii.eqb a c || contains_char c s'
  end.

Fixpoint concat_map (f : ascii -> string) (s : string) : string :=
  match s with
  | EmptyString => EmptyString
  | String c s' => f c +:+ concat_map f s'
  end.

Fixpoint join (sep : string) (l : list string) : string :=
  match l with
  | [] => EmptyString
  | [x] => x
  | x :: l' => x +:+ sep +:+ join sep l'
  end.

End PyStr.

(** ** [os.path] on POSIX path strings *)

Module PosixPath.

Definition sep : ascii := "/"%char.
Definition extsep : ascii := "."%char.

(** One step of [os.path.join]: a component starting with the separator
    discards what precedes it; otherwise it is appended, with a separator
    unless the path so far is empty or already ends with one. *)
Definition join2 (path b : string) : string :=
  if PyStr.startswith b "/" then b
  else if PyStr.eqb path "" || PyStr.endswith path "/" then path +:+ b
  else path +:+ "/" +:+ b.

(** [os.path.join(a, *p)] *)
Definition join (a : string) (p : list string) : string :=
  fold_left join2 p a.

(** [os.path.splitext(p)]: the extension starts at the last dot of the last
    path component, unless that component has only dots before it. *)
Definition splitext (p : string) : string * string :=
  let filenameIndex :=
    match PyStr.rfind sep p with Some i => S i | None => 0%nat end in
  match PyStr.rfind extsep p with
  | Some dotIndex =>
      if (filenameIndex <=? dotIndex)%nat
      then
        if PyStr.has_other extsep
             (PyStr.take (dotIndex - filenameIndex) (PyStr.drop filenameIndex p))
        then (PyStr.take dotIndex p, PyStr.drop dotIndex p)
        else (p, "")
      else (p, "")
  | None => (p, "")
  end.

Definition isabs (p : string) : bool := PyStr.startswith p "/".

(** The non-empty components of a path, in order. *)
Definition components (p : string) : list string :=
  filter (fun c => c <> "") (PyStr.split sep p).

End PosixPath.

(** ** Python values *)

(** The values a session or scan record can hold.  A [VFloat] carries the
    text [repr] gives for it; a [VObject] stands for any other object (a numeric
    array, say): it carries the texts of [str] and [repr] and its truth value,
    [None] when asking for it raises (as arrays of several elements do). *)
Inductive value : Type :=
  | VNone
  | VBool (b : bool)
  | VInt (z : Z)
  | VFloat (repr : string)
  | VStr (s : string)
  | VList (l : list value)
  | VDict (d : list (string * value))
  | VObject (str_text repr_text : string) (truth : option bool).

Definition dict : Type := list (string * value).

(** [d.get(k, default)] *)
Fixpoint dict_get (d : dict) (k : string) (default : value) : value :=
  match d with
  | [] => default
  | (k', v) :: d' => if PyStr.eqb k' k then v else dict_get d' k default
  end.

(** [d[k] = v]: an existing key keeps its position. *)
Fixpoint dict_setitem (d : dict) (k : string) (v : value) : dict :=
  match d with
  | [] => [(k, v)]
  | (k', v') :: d' =>
      if PyStr.eqb k' k then (k', v) :: d' else (k', v') :: dict_setitem d' k v
  end.

Definition dict_keys (d : dict) : list string := map fst d.

(** [{key: f(value) for key, value in d.items()}] *)
Definition dict_comprehension (f : value -> value) (d : dict) : dict :=
  fold_left (fun acc kv => dict_setitem acc (fst kv) (f (snd kv))) d [].

Module PyRepr.

Definition backslash : ascii := ascii_of_N 92.
Definition dquote : ascii := ascii_of_N 34.
Definition squote : ascii := ascii_of_N 39.

(** [repr] of one character of a string literal quoted with [quote]. *)
Definition repr_char (quote c : ascii) : string :=
  let n := N_of_ascii c in
  if Ascii.eqb c quote || Ascii.eqb c backslash then String backslash (String c "")
  else if (n =? 9)%N then String backslash "t"
  else if (n =? 10)%N then String backslash "n"
  else if (n =? 13)%N then String backslash "r"
  else if (n <? 32)%N || ((127 <=? n) && (n <=? 160))%N || (n =? 173)%N
       then String backslash "x" +:+ PyStr.hex 2 n
  else String c "".

(** [repr(s)]: single quotes, unless the text has a single quote and no
    double quote. *)
Definition repr_str (s : string) : string :=
  let quote :=
    if PyStr.contains_char squote s && negb (PyStr.contains_char dquote s)
    then dquote else squote in
  String quote (PyStr.concat_map (repr_char quote) s +:+ String quote "").

Fixpoint repr (v : value) : string :=
  match v with
  | VNone => "None"
  | VBool true => "True"
  | VBool false => "False"
  | VInt z => pretty z
  | VFloat r => r
  | VStr s => repr_str s
  | VList l => "[" +:+ PyStr.join ", " (map repr l) +:+ "]"
  | VDict d =>
      "{" +:+ PyStr.join ", "
                (map (fun kv => let '(k, x) := kv in
                                repr_str k +:+ ": " +:+ repr x) d) +:+ "}"
  | VObject _ r _ => r
  end.

(** [str(v)] *)
Definition str (v : value) : string :=
  match v with
  | VStr s => s
  | VObject s _ _ => s
  | _ => repr v
  end.

End PyRepr.

(** ** [json]: the encoder behind [json.dump(obj, f, indent=4)] *)

Module Json.

(** Text written so far, and whether encoding ran to completion: the encoder
    hands its output to the file piece by piece, so what precedes a value it
    cannot render has been written when it raises. *)
Definition emit : Type := string * bool.

Definition out (s : string) : emit := (s, true).
Definition fail : emit := ("", false).

Definition seq (a b : emit) : emit :=
  if snd a then (fst a +:+ fst b, snd b) else a.

(** [encode_basestring_ascii]: everything outside the printable ASCII range,
    the quote and the backslash are escaped. *)
Definition escape_char (c : ascii) : string :=
  let n := N_of_ascii c in
  if (n =? 34)%N then String PyRepr.backslash (String c "")
  else if (n =? 92)%N then String PyRepr.backslash (String c "")
  else if (n =? 8)%N then String PyRepr.backslash "b"
  else if (n =? 12)%N then String PyRepr.backslash "f"
  else if (n =? 10)%N then String PyRepr.backslash "n"
  else if (n =? 13)%N then String PyRepr.backslash "r"
  else if (n =? 9)%N then String PyRepr.backslash "t"
  else if (n <? 32)%N || (126 <? n)%N
       then String PyRepr.backslash "u" +:+ PyStr.hex 4 n
  else String c "".

Definition encode_str (s : string) : string :=
  String PyRepr.dquote
    (PyStr.concat_map escape_char s +:+ String PyRepr.dquote "").

Definition floatstr (r : string) : string :=
  if PyStr.eqb r "nan" then "NaN"
  else if PyStr.eqb r "inf" then "Infinity"
  else if PyStr.eqb r "-inf" then "-Infinity"
  else r.

Definition LF : string := String (ascii_of_N 10) "".

Fixpoint spaces (n : nat) : string :=
  match n with O => "" | S n' => String " "%char (spaces n') end.

Definition indent : nat := 4.

Definition newline_indent (level : nat) : string :=
  LF +:+ spaces (indent * level).

(** [_iterencode(o, level)], with [item_separator = ","] and
    [key_separator = ": "] as [indent=4] sets them. *)
Fixpoint iterencode (level : nat) (o : value) {struct o} : emit :=
  match o with
  | VStr s => out (encode_str s)
  | VNone => out "null"
  | VBool true => out "true"
  | VBool false => out "false"
  | VInt z => out (pretty z)
  | VFloat r => out (floatstr r)
  | VList [] => out "[]"
  | VList lst =>
      seq (out ("[" +:+ newline_indent (S level)))
        (seq ((fix items (first : bool) (l : list value) {struct l} : emit :=
                 match l with
                 | [] => out ""
                 | x :: l' =>
                     seq (out (if first then ""
                               else "," +:+ newline_indent (S level)))
                       (seq (iterencode (S level) x) (items false l'))
                 end) true lst)
           (out (newline_indent level +:+ "]")))
  | VDict [] => out "{}"
  | VDict dct =>
      seq (out ("{" +:+ newline_indent (S level)))
        (seq ((fix items (first : bool) (l : list (string * value))
                   {struct l} : emit :=
                 match l with
                 | [] => out ""
                 | (key, x) :: l' =>
                     seq (out ((if first then ""
                                else "," +:+ newline_indent (S level))
                               +:+ encode_str key +:+ ": "))
                       (seq (iterencode (S level) x) (items false l'))
                 end) true dct)
           (out (newline_indent level +:+ "}")))
  | VObject _ _ _ => fail
  end.

End Json.

(** ** Exceptions and outcomes *)

(** The exception classes the routine can meet.  [KeyboardInterrupt] stands
    for the classes that derive from [BaseException] only, which
    [except Exception] does not catch. *)
Inductive exn : Type :=
  | ValueError
  | TypeError
  | AttributeError
  | FileNotFoundError
  | FileExistsError
  | NotADirectoryError
  | IsADirectoryError
  | SameFileError
  | KeyboardInterrupt.

(** [isinstance(e, Exception)] *)
Definition is_Exception (e : exn) : bool :=
  match e with
  | KeyboardInterrupt => false
  | _ => true
  end.

Inductive result (A : Type) : Type :=
  | Ok (a : A)
  | Raise (e : exn).
Arguments Ok {A} a.
Arguments Raise {A} e.

(** ** A fragment of [re]: ordered alternatives of fixed character runs *)

Module Re.

Definition atom : Type := ascii -> bool.
Definition alternative : Type := list atom.
Definition group : Type := list alternative.

Definition chr (c : ascii) : atom := fun x => Ascii.eqb x c.
Definition range (lo hi : ascii) : atom :=
  fun x => ((N_of_ascii lo <=? N_of_ascii x)
            && (N_of_ascii x <=? N_of_ascii hi))%N.
Definition digit : atom := range "0" "9".

(** One alternative against a prefix of [s]: the text matched and the
    rest. *)
Fixpoint match_atoms (a : alternative) (s : string) : option (string * string) :=
  match a with
  | [] => Some ("", s)
  | p :: a' =>
      match s with
      | String c s' =>
          if p c then
            match match_atoms a' s' with
            | Some (m, r) => Some (String c m, r)
            | None => None
            end
          else None
      | EmptyString => None
      end
  end.

(** [re.match] of a concatenation of capturing groups: each group tries its
    alternatives in order and backtracks into the next one when the rest of
    the pattern fails.  The result is the text of every group and the
    unmatched rest. *)
Fixpoint match_groups (gs : list group) (s : string)
  : option (list string * string) :=
  match gs with
  | [] => Some ([], s)
  | g :: gs' =>
      (fix alts (g : group) : option (list string * string) :=
         match g with
         | [] => None
         | a :: g' =>
             match match_atoms a s with
             | Some (m, r) =>
                 match match_groups gs' r with
                 | Some (caps, rest) => Some (m :: caps, rest)
                 | None => alts g'
                 end
             | None => alts g'
             end
         end) g
  end.

End Re.

(** ** [datetime]: [strptime] and [strftime] for the two formats in use *)

Module DateTime.

Record datetime : Type := mk_datetime {
  year : N; month : N; day : N;
  hour : N; minute : N; second : N; microsecond : N
}.

Import Re.

(** The groups [_strptime.TimeRE] gives the directives. *)
Definition re_Y : group := [[digit; digit; digit; digit]].
Definition re_m : group :=
  [[chr "1"; range "0" "2"]; [chr "0"; range "1" "9"]; [range "1" "9"]].
Definition re_d : group :=
  [[chr "3"; range "0" "1"]; [range "1" "2"; digit]; [chr "0"; range "1" "9"];
   [range "1" "9"]; [chr " "; range "1" "9"]].
Definition re_H : group :=
  [[chr "2"; range "0" "3"]; [range "0" "1"; digit]; [digit]].
Definition re_M : group := [[range "0" "5"; digit]; [digit]].
Definition re_S : group :=
  [[chr "6"; range "0" "1"]; [range "0" "5"; digit]; [digit]].
(** [[0-9]{1,6}], greedy: the longest run first. *)
Definition re_f : group :=
  [repeat digit 6; repeat digit 5; repeat digit 4; repeat digit 3;
   repeat digit 2; repeat digit 1].
Definition re_dot : group := [[chr "."]].

(** The pattern of ["%Y.%m.%d.%H.%M.%S.%f"]. *)
Definition format_regex : list group :=
  [re_Y; re_dot; re_m; re_dot; re_d; re_dot; re_H; re_dot; re_M; re_dot;
   re_S; re_dot; re_f].

(** [int(s)] on the text of a group: decimal digits, blanks skipped. *)
Fixpoint int_go (acc : N) (s : string) : N :=
  match s with
  | EmptyString => acc
  | String c s' =>
      if PyStr.is_digit c then int_go (10 * acc + PyStr.digit_val c)%N s'
      else int_go acc s'
  end.
Definition int (s : string) : N := int_go 0 s.

Definition is_leap (y : N) : bool :=
  ((y mod 4 =? 0) && (negb (y mod 100 =? 0) || (y mod 400 =? 0)))%N.

Definition days_in_month (y m : N) : N :=
  if (m =? 2)%N then (if is_leap y then 29 else 28)%N
  else if ((m =? 4) || (m =? 6) || (m =? 9) || (m =? 11))%N then 30%N
  else 31%N.

(** [_check_date_fields] *)
Definition check_date_fields (y m d : N) : bool :=
  ((1 <=? y) && (y <=? 9999) && (1 <=? m) && (m <=? 12)
   && (1 <=? d) && (d <=? days_in_month y m))%N.

(** [_check_time_fields] *)
Definition check_time_fields (h mi s us : N) : bool :=
  ((h <=? 23) && (mi <=? 59) && (s <=? 59) && (us <=? 999999))%N.

(** [datetime.strptime(data_string, "%Y.%m.%d.%H.%M.%S.%f")] on a [str]:
    the pattern has to match a prefix, nothing may remain after it, and the
    fields have to form a date and a time of day. *)
Definition strptime (data_string : string) : result datetime :=
  match match_groups format_regex data_string with
  | None => Raise ValueError
  | Some (caps, rest) =>
      if negb (PyStr.eqb rest "") then Raise ValueError
      else
        match caps with
        | [sY; _; sm; _; sd; _; sH; _; sM; _; sS; _; f] =>
            let fraction :=
              int (f +:+ PyStr.zfill (6 - String.length f) 0) in
            if check_date_fields (int sY) (int sm) (int sd)
               && check_time_fields (int sH) (int sM) (int sS) fraction
            then Ok (mk_datetime (int sY) (int sm) (int sd)
                                 (int sH) (int sM) (int sS) fraction)
            else Raise ValueError
        | _ => Raise ValueError
        end
  end.

(** [dt.strftime("%Y%m%dT%H%M%S")]; the year is written on four digits. *)
Definition strftime (dt : datetime) : string :=
  PyStr.zfill 4 (year dt) +:+ PyStr.zfill 2 (month dt)
  +:+ PyStr.zfill 2 (day dt) +:+ "T" +:+ PyStr.zfill 2 (hour dt)
  +:+ PyStr.zfill 2 (minute dt) +:+ PyStr.zfill 2 (second dt).

End DateTime.

(** ** The file system *)

(** A node is a directory or a regular file with its content. *)
Inductive node : Type :=
  | Dir
  | File (content : string).

(** A location names a node by its components, innermost first: the root is
    [[]], and [/home/bryant] is [["bryant"; "home"]]. *)
Definition loc : Type := list string.

Abbreviation tree := (gmap (list string) node).

(** The state-and-exception monad of the routine: a computation takes the
    file system and gives a value or a raised exception, with the file system
    as it is then (nothing is rolled back when an exception is raised). *)
Definition M (A : Type) : Type := tree -> result A * tree.

Definition ret {A} (a : A) : M A := fun t => (Ok a, t).
Definition raise {A} (e : exn) : M A := fun t => (Raise e, t).
Definition lift {A} (r : result A) : M A := fun t => (r, t).
Definition bind {A B} (m : M A) (k : A -> M B) : M B :=
  fun t =>
    match m t with
    | (Ok a, t') => k a t'
    | (Raise e, t') => (Raise e, t')
    end.

Notation "'let*' x ':=' m 'in' k" := (bind m (fun x => k))
  (at level 10, x pattern, m at level 100, k at level 200).

(** [for x in l: f(x)] *)
Fixpoint for_each {A} (l : list A) (f : A -> M unit) : M unit :=
  match l with
  | [] => ret tt
  | x :: l' => let* _ := f x in for_each l' f
  end.

Module Fs.

(** The root always exists. *)
Definition node_at (t : tree) (l : loc) : option node :=
  match l with
  | [] => Some Dir
  | _ => t !! l
  end.

Definition is_dir (t : tree) (l : loc) : bool :=
  match node_at t l with
  | Some Dir => true
  | _ => false
  end.

(** Following one component from a directory. *)
Definition step (cur : loc) (c : string) : loc :=
  if PyStr.eqb c "." then cur
  else if PyStr.eqb c ".." then tail cur
  else c :: cur.

(** Path resolution: every component is looked up in a directory.  The
    location reached need not exist. *)
Fixpoint walk (t : tree) (cur : loc) (cs : list string) : result loc :=
  match cs with
  | [] => Ok cur
  | c :: cs' =>
      match node_at t cur with
      | Some Dir => walk t (step cur c) cs'
      | Some (File _) => Raise NotADirectoryError
      | None => Raise FileNotFoundError
      end
  end.

(** A trailing separator asks for a directory, like a final [.]. *)
Definition path_components (p : string) : list string :=
  PosixPath.components p ++ (if PyStr.endswith p "/" then ["."] else []).

Section WithCwd.

(** The working directory of the process, which the routine never
    changes. *)
Variable cwd : loc.

Definition start (p : string) : loc :=
  if PosixPath.isabs p then [] else cwd.

Definition resolve (t : tree) (p : string) : result loc :=
  if PyStr.eqb p "" then Raise FileNotFoundError
  else walk t (start p) (path_components p).

(** [os.stat(p)], as far as the kind of the node goes. *)
Definition stat (t : tree) (p : string) : result node :=
  match resolve t p with
  | Ok l =>
      match node_at t l with
      | Some n => Ok n
      | None => Raise FileNotFoundError
      end
  | Raise e => Raise e
  end.

(** [os.path.exists(p)] *)
Definition exists_ (p : string) : M bool :=
  fun t => (Ok (match stat t p with Ok _ => true | Raise _ => false end), t).

(** [os.path.isdir(p)] *)
Definition isdir (p : string) : M bool :=
  fun t => (Ok (match stat t p with Ok Dir => true | _ => false end), t).

(** [os.path.samefile(a, b)] inside [shutil._samefile]: both exist and
    are one node; a failing [stat] means no. *)
Definition samefile (a b : string) : M bool :=
  fun t =>
    (Ok (match resolve t a, resolve t b with
         | Ok la, Ok lb =>
             bool_decide (la = lb)
             && match node_at t la with Some _ => true | None => false end
         | _, _ => false
         end), t).

(** The effect of [os.makedirs] with [exist_ok=True] along the components
    of a path: a missing directory is created, an existing one is
    entered, a regular file in the way is an error. *)
Fixpoint walk_create (cur : loc) (cs : list string) : M unit :=
  fun t =>
    match cs with
    | [] => (Ok tt, t)
    | c :: cs' =>
        match node_at t cur with
        | Some Dir =>
            if PyStr.eqb c "." then walk_create cur cs' t
            else if PyStr.eqb c ".." then walk_create (tail cur) cs' t
            else
              match node_at t (c :: cur) with
              | None => walk_create (c :: cur) cs' (<[c :: cur := Dir]> t)
              | Some Dir => walk_create (c :: cur) cs' t
              | Some (File _) =>
                  (Raise (match cs' with
                          | [] => FileExistsError
                          | _ => NotADirectoryError
                          end), t)
              end
        | Some (File _) => (Raise NotADirectoryError, t)
        | None => (Raise FileNotFoundError, t)
        end
    end.

(** [os.makedirs(name, exist_ok=True)] *)
Definition makedirs (name : string) : M unit :=
  if PyStr.eqb name "" then raise FileNotFoundError
  else walk_create (start name) (path_components name).

(** The names of the entries of the directory at [l]. *)
Definition entries (t : tree) (l : loc) : list string :=
  omap (fun k => match k with
                 | c :: l' => if bool_decide (l' = l) then Some c else None
                 | [] => None
                 end)
       (map fst (map_to_list t)).

(** [os.listdir(p)]; the order of the names is the map's. *)
Definition listdir (p : string) : M (list string) :=
  fun t =>
    match resolve t p with
    | Ok l =>
        match node_at t l with
        | Some Dir => (Ok (entries t l), t)
        | Some (File _) => (Raise NotADirectoryError, t)
        | None => (Raise FileNotFoundError, t)
        end
    | Raise e => (Raise e, t)
    end.

(** [open(p, "rb").read()] *)
Definition read_file (p : string) : M string :=
  fun t =>
    match stat t p with
    | Ok (File data) => (Ok data, t)
    | Ok Dir => (Raise IsADirectoryError, t)
    | Raise e => (Raise e, t)
    end.

(** [open(p, "w")]: the file is created or truncated; the handle is its
    location. *)
Definition open_w (p : string) : M loc :=
  fun t =>
    match resolve t p with
    | Ok l =>
        match node_at t l with
        | Some Dir => (Raise IsADirectoryError, t)
        | _ =>
            if is_dir t (tail l) then (Ok l, <[l := File ""]> t)
            else (Raise FileNotFoundError, t)
        end
    | Raise e => (Raise e, t)
    end.

(** [f.write(data)] on an open handle. *)
Definition write (f : loc) (data : string) : M unit :=
  fun t =>
    match t !! f with
    | Some (File old) => (Ok tt, <[f := File (old +:+ data)]> t)
    | _ => (Ok tt, <[f := File data]> t)
    end.

(** [os.path.basename(p)] *)
Definition basename (p : string) : string :=
  match PyStr.rfind PosixPath.sep p with
  | Some i => PyStr.drop (S i) p
  | None => p
  end.

(** [shutil.copyfile(src, dst)] *)
Definition copyfile (src dst : string) : M unit :=
  let* same := samefile src dst in
  if (same : bool) then raise SameFileError
  else
    let* data := read_file src in
    let* fdst := open_w dst in
    write fdst data.

(** [shutil.copy(src, dst)]: into [dst] when it is a directory. *)
Definition copy (src dst : string) : M unit :=
  let* d := isdir dst in
  let dst := if (d : bool) then PosixPath.join dst [basename src] else dst in
  copyfile src dst.

(** [with open(p, "w") as f: json.dump(obj, f, indent=4)] *)
Definition json_dump (obj : value) (p : string) : M unit :=
  let* f := open_w p in
  let '(text, complete) := Json.iterencode 0 obj in
  let* _ := write f text in
  if (complete : bool) then ret tt else raise TypeError.

End WithCwd.

End Fs.

(** ** Built-in operations on values *)

(** [bool(v)], as [not v] asks for it. *)
Definition py_bool (v : value) : result bool :=
  match v with
  | VNone => Ok false
  | VBool b => Ok b
  | VInt z => Ok (negb (z =? 0)%Z)
  | VFloat r => Ok (negb (PyStr.eqb r "0.0" || PyStr.eqb r "-0.0"))
  | VStr s => Ok (negb (PyStr.eqb s ""))
  | VList l => Ok (match l with [] => false | _ => true end)
  | VDict d => Ok (match d with [] => false | _ => true end)
  | VObject _ _ (Some b) => Ok b
  | VObject _ _ None => Raise ValueError
  end.

(** [v.replace(old, new)]: only a [str] has the method. *)
Definition method_replace (v : value) (old new : string) : result string :=
  match v with
  | VStr s => Ok (PyStr.replace old new s)
  | _ => Raise AttributeError
  end.

(** [datetime.strptime(v, "%Y.%m.%d.%H.%M.%S.%f")]: the first argument must be
    a [str]. *)
Definition datetime_strptime (v : value) : result DateTime.datetime :=
  match v with
  | VStr s => DateTime.strptime s
  | _ => Raise TypeError
  end.

(** [os.path.splitext(v)]: the argument must be a [str]. *)
Definition os_path_splitext (v : value) : result (string * string) :=
  match v with
  | VStr s => Ok (PosixPath.splitext s)
  | _ => Raise TypeError
  end.

(** ** The routine *)

Section DatasetManager.

Variable cwd : loc.

Definition dataset_root : string := "/home/bryant/Desktop/mri_dataset".

Definition subfolders : list string := ["mat"; "csv"; "dcm"; "raw"; "seq"].

(** Extension, source subdirectory, destination subdirectory. *)
Definition file_map : list (string * (string * string)) :=
  [(".mat", ("mat", "mat"));
   (".csv", ("csv", "csv"));
   (".dcm", ("dcm", "dcm"));
   (".h5", ("ismrmrd", "raw"))].

(** [subject_label], line 33. *)
Definition subject_label (session_info : dict) : result string :=
  method_replace (dict_get session_info "subject_id" (VStr "UnknownSubject"))
    " " "_".

(** [session_label], lines 38 to 44. *)
Definition session_label (scan_info : dict) : result string :=
  let timestamp_str := dict_get scan_info "name_string" VNone in
  match py_bool timestamp_str with
  | Raise e => Raise e
  | Ok false => Raise ValueError
  | Ok true =>
      match datetime_strptime timestamp_str with
      | Ok dt_object => Ok ("ses-" +:+ DateTime.strftime dt_object)
      | Raise e => Raise e
      end
  end.

(** [base_filename], lines 59 to 61. *)
Definition base_filename (scan_info : dict) : result string :=
  match os_path_splitext (dict_get scan_info "fileName" (VStr "")) with
  | Ok (stem, _) =>
      if PyStr.eqb stem "" then Raise ValueError else Ok stem
  | Raise e => Raise e
  end.

(** Lines 52 to 54. *)
Definition make_subfolders (dataset_session_path : string) : M unit :=
  for_each subfolders
    (fun subfolder =>
       Fs.makedirs cwd (PosixPath.join dataset_session_path [subfolder])).

(** Lines 72 to 77. *)
Definition _try_copy (src_path dest_path : string) : M unit :=
  let* found := Fs.exists_ cwd src_path in
  if (found : bool) then Fs.copy cwd src_path dest_path else ret tt.

(** Lines 82 to 85. *)
Definition copy_data_files
  (primary_save_path dataset_session_path base : string) : M unit :=
  for_each file_map
    (fun '(ext, (src_subdir, dest_subdir)) =>
       let source_file :=
         PosixPath.join primary_save_path [src_subdir; base +:+ ext] in
       let dest_file :=
         PosixPath.join dataset_session_path [dest_subdir; base +:+ ext] in
       _try_copy source_file dest_file).

(** Lines 88 to 95. *)
Definition copy_seq_files
  (primary_save_path dataset_session_path base : string) : M unit :=
  let primary_seq_dir := PosixPath.join primary_save_path ["seq"] in
  let dest_seq_dir := PosixPath.join dataset_session_path ["seq"] in
  let* found := Fs.exists_ cwd primary_seq_dir in
  if (found : bool) then
    let* names := Fs.listdir cwd primary_seq_dir in
    for_each names
      (fun seq_file =>
         if PyStr.startswith seq_file base && PyStr.endswith seq_file ".seq"
         then
           let source_file := PosixPath.join primary_seq_dir [seq_file] in
           let dest_file := PosixPath.join dest_seq_dir [seq_file] in
           _try_copy source_file dest_file
         else ret tt)
  else ret tt.

(** [full_metadata], lines 100 to 103. *)
Definition full_metadata (session_info scan_info : dict) : value :=
  VDict [("session_info", VDict session_info);
         ("scan_parameters",
          VDict (dict_comprehension (fun v => VStr (PyRepr.str v)) scan_info))].

(** Lines 105 to 107. *)
Definition save_metadata
  (session_info scan_info : dict) (dataset_session_path : string) : M unit :=
  let metadata_path := PosixPath.join dataset_session_path ["metadata.json"] in
  Fs.json_dump cwd (full_metadata session_info scan_info) metadata_path.

(** The body of the [try] block, lines 26 to 110. *)
Definition body (session_info scan_info : dict) (primary_save_path : string)
  : M string :=
  let* subject_label := lift (subject_label session_info) in
  let subject_folder := "sub-" +:+ subject_label in
  let* session_label := lift (session_label scan_info) in
  let dataset_session_path :=
    PosixPath.join dataset_root [subject_folder; session_label] in
  let* _ := make_subfolders dataset_session_path in
  let* base := lift (base_filename scan_info) in
  let* _ := copy_data_files primary_save_path dataset_session_path base in
  let* _ := copy_seq_files primary_save_path dataset_session_path base in
  let* _ := save_metadata session_info scan_info dataset_session_path in
  ret dataset_session_path.

(** What a call does: it returns a value ([None] or a path), or an exception
    leaves it. *)
Inductive outcome : Type :=
  | Returns (v : option string)
  | Propagates (e : exn).

(** [createMirroredDataset]: the body under
    [try: ... except Exception as e: ...; return None]. *)
Definition createMirroredDataset
  (session_info scan_info : dict) (primary_save_path : string)
  : tree -> outcome * tree :=
  fun t =>
    match body session_info scan_info primary_save_path t with
    | (Ok dataset_session_path, t') => (Returns (Some dataset_session_path), t')
    | (Raise e, t') =>
        if is_Exception e then (Returns None, t') else (Propagates e, t')
    end.

End DatasetManager.

(** ** Vocabulary of the specification *)

(** The value stored under a key, if any. *)
Fixpoint dict_lookup (d : dict) (k : string) : option value :=
  match d with
  | [] => None
  | (k', v) :: d' => if PyStr.eqb k' k then Some v else dict_lookup d' k
  end.

(** The keys of a Python [dict] are pairwise distinct. *)
Definition dict_wf (d : dict) : Prop := NoDup (dict_keys d).

Definition space_to_underscore (c : ascii) : ascii :=
  if Ascii.eqb c " " then "_"%char else c.

(** The identifier the session takes from [subject_id]. *)
Definition subject_of (session_info : dict) : option string :=
  match dict_lookup session_info "subject_id" with
  | None => Some "UnknownSubject"
  | Some (VStr s) => Some s
  | Some _ => None
  end.


(** What a path names in a file system: a node, or nothing. *)
Definition lookup_path (cwd : loc) (t : tree) (p : string) : option node :=
  match Fs.stat cwd t p with
  | Ok n => Some n
  | Raise _ => None
  end.

(** Where [shutil.copy(src, dst)] writes. *)
Definition copy_target (cwd : loc) (t : tree) (src dst : string) : string :=
  match lookup_path cwd t dst with
  | Some Dir => PosixPath.join dst [Fs.basename src]
  | _ => dst
  end.

(** The last character of a text, if any. *)
Fixpoint last_char (s : string) : option ascii :=
  match s with
  | EmptyString => None
  | String c EmptyString => Some c
  | String _ s' => last_char s'
  end.





(** What follows the scaffolding in the body. *)
Definition after_scaffolding (cwd : loc) (session_info scan_info : dict)
  (primary p : string) : M string :=
  let* base := lift (base_filename scan_info) in
  let* _ := copy_data_files cwd primary p base in
  let* _ := copy_seq_files cwd primary p base in
  let* _ := save_metadata cwd session_info scan_info p in
  ret p.

(** A name a directory entry can have: not empty, not [.] nor [..], and free
    of separators. *)
Definition valid_name (n : string) : bool :=
  negb (PyStr.eqb n "") && negb (PyStr.eqb n ".") && negb (PyStr.eqb n "..")
  && negb (PyStr.contains_char "/" n).

(** Every component of every location of the file system is a name. *)
Definition wf_tree (t : tree) : bool :=
  forallb (fun kv => forallb valid_name (fst kv)) (map_to_list t).

(** The piece of a text after its last separator. *)
Definition last_piece (s : string) : string :=
  List.last (PyStr.split "/" s) "".

(** Whatever a path resolves to, its innermost component is [h]. *)
Definition tagged (cwd : loc) (p h : string) : Prop :=
  forall t l, Fs.resolve cwd t p = Ok l -> exists parent, l = h :: parent.

(** [writes tags t t']: [t'] comes from [t] by writing regular files, each at
    a location that held no directory and whose innermost component is one
    of [tags]. *)
Inductive writes (tags : list string) : tree -> tree -> Prop :=
  | writes_refl t : writes tags t t
  | writes_step t h parent data t' :
      Fs.is_dir t (h :: parent) = false ->
      In h tags ->
      writes tags (<[h :: parent := File data]> t) t' ->
      writes tags t t'.

(** A copy to attempt: source path, destination path, and the innermost
    component both have. *)
Definition copy_item : Type := string * string * string.

Definition item_tag (i : copy_item) : string := snd i.

(** The paths of an item, and the path [shutil.copy] uses when the
    destination is a directory, all end with the item's component. *)
Definition item_ok (cwd : loc) (i : copy_item) : Prop :=
  let '(src, dst, h) := i in
  tagged cwd src h /\ tagged cwd dst h
  /\ tagged cwd (PosixPath.join dst [Fs.basename src]) h.

(** In the file system [t] the attempt of an item cannot fail: its source is
    absent or a regular file, and its destination is a name in an existing
    directory, is not a directory, and is not the source itself. *)
Definition item_ready (cwd : loc) (t : tree) (i : copy_item) : Prop :=
  let '(src, dst, _) := i in
  (lookup_path cwd t src = None
   \/ exists data, lookup_path cwd t src = Some (File data)) /\
  exists k, Fs.resolve cwd t dst = Ok k /\ Fs.is_dir t (tail k) = true
            /\ Fs.is_dir t k = false /\ Fs.resolve cwd t src <> Ok k.

(** A run of copy attempts. *)
Definition copy_all (cwd : loc) (items : list copy_item) : M unit :=
  for_each items (fun i => let '(src, dst, _) := i in _try_copy cwd src dst).

(** The copy attempts of the data files, lines 82 to 85. *)
Definition data_items (primary session base : string) : list copy_item :=
  map (fun m => let '(ext, (src_subdir, dest_subdir)) := m in
                (PosixPath.join primary [src_subdir; base +:+ ext],
                 PosixPath.join session [dest_subdir; base +:+ ext],
                 last_piece base +:+ ext))
      file_map.

(** Does the loop of lines 91 to 95 copy the entry [seq_file]? *)
Definition seq_match (base seq_file : string) : bool :=
  PyStr.startswith seq_file base && PyStr.endswith seq_file ".seq".

(** The copy attempts of the sequence files among [names]. *)
Definition seq_items (primary session base : string) (names : list string)
  : list copy_item :=
  map (fun n => (PosixPath.join (PosixPath.join primary ["seq"]) [n],
                 PosixPath.join (PosixPath.join session ["seq"]) [n],
                 n))
      (List.filter (seq_match base) names).



(** The metadata path of a session directory. *)
Definition metadata_path (dataset_session_path : string) : string :=
  PosixPath.join dataset_session_path ["metadata.json"].

(** The [scan_parameters] of the metadata record. *)
Definition scan_parameters (scan_info : dict) : dict :=
  dict_comprehension (fun v => VStr (PyRepr.str v)) scan_info.

(** Every step of a computation raises instances of [Exception] only. *)
Definition raises_Exception {A} (m : M A) : Prop :=
  forall t e t', m t = (Raise e, t') -> is_Exception e = true.

(** A computation never removes a directory nor turns it into a file. *)
Definition keeps_dirs {A} (m : M A) : Prop :=
  forall t r t', m t = (r, t') ->
    forall l, Fs.is_dir t l = true -> Fs.is_dir t' l = true.

(** ** A worked example

    An acquisition directory [/acq] with a [.mat] and a [.csv] file of the
    scan [X1] (no [.dcm], no [.h5]) and three sequence files, two of them of
    that scan. *)

Module Example.

Definition cwd : loc := [].

Definition acquisition : tree :=
  list_to_map
    [(["acq"], Dir);
     (["mat"; "acq"], Dir);
     (["X1.mat"; "mat"; "acq"], File "MATDATA");
     (["csv"; "acq"], Dir);
     (["X1.csv"; "csv"; "acq"], File "CSVDATA");
     (["seq"; "acq"], Dir);
     (["X1.seq"; "seq"; "acq"], File "S1");
     (["X1_cal.seq"; "seq"; "acq"], File "S2");
     (["Y2.seq"; "seq"; "acq"], File "S3")].

Definition session : dict :=
  [("subject_id", VStr "Jane Doe"); ("study_id", VInt 3)].

Definition scan : dict :=
  [("name_string", VStr "2024.03.15.09.30.00.123456");
   ("fileName", VStr "X1.mat");
   ("data", VObject "[1 2]" "array([1, 2])" None)].

(** A scan without its [name_string]. *)
Definition scan_without_name_string : dict :=
  [("fileName", VStr "X1.mat")].

(** The same scan without its [fileName]. *)
Definition scan_without_fileName : dict :=
  [("name_string", VStr "2024.03.15.09.30.00.123456")].


Definition path : string :=
  "/home/bryant/Desktop/mri_dataset/sub-Jane_Doe/ses-20240315T093000".

(** The file system after the scaffolding, after the data files, after the
    sequence files, and after the whole call. *)
Abbreviation scaffolded :=
  (snd (make_subfolders cwd path acquisition)).
Abbreviation with_data :=
  (snd (copy_data_files cwd "/acq" path "X1" scaffolded)).
Abbreviation with_seq :=
  (snd (copy_seq_files cwd "/acq" path "X1" with_data)).
Abbreviation final :=
  (snd (createMirroredDataset cwd session scan "/acq" acquisition)).

End Example.

(** ** Vocabulary of the further properties *)

(** Two nodes of one kind: two directories, or two regular files. *)
Definition same_kind (a b : node) : bool :=
  match a, b with
  | Dir, Dir => true
  | File _, File _ => true
  | _, _ => false
  end.

(** [t'] has every entry of [t], each with the kind it had. *)
Definition grows (t t' : tree) : Prop :=
  forall l n, t !! l = Some n ->
    exists n', t' !! l = Some n' /\ same_kind n n' = true.

(** A computation removes no entry and changes the kind of none. *)
Definition keeps_entries {A} (m : M A) : Prop :=
  forall t r t', m t = (r, t') -> grows t t'.

(** Comparing by a first criterion, then by a second. *)
Definition lex (c d : comparison) : comparison :=
  match c with
  | Eq => d
  | _ => c
  end.

(** The order of two instants, by year, month, day, hour, minute and
    second; the microseconds do not count. *)
Definition compare_seconds (a b : DateTime.datetime) : comparison :=
  lex (DateTime.year a ?= DateTime.year b)%N
    (lex (DateTime.month a ?= DateTime.month b)%N
       (lex (DateTime.day a ?= DateTime.day b)%N
          (lex (DateTime.hour a ?= DateTime.hour b)%N
             (lex (DateTime.minute a ?= DateTime.minute b)%N
                (DateTime.second a ?= DateTime.second b)%N)))).

(** Every entry of the file system is at a location made of names. *)
Definition names_valid (t : tree) : Prop :=
  forall l, is_Some (t !! l) -> Forall (fun n => valid_name n = true) l.

(** The names of the files a call whose base file name is [base] may write:
    the metadata file, the four data files, and the sequence files of the
    base. *)
Definition mirrored_name (base name : string) : bool :=
  PyStr.eqb name "metadata.json"
  || existsb (fun m => PyStr.eqb name (last_piece base +:+ fst m)) file_map
  || seq_match base name.

(** The location of the session directory of a subject label and a session
    label that are names. *)
Definition session_loc (subj ses : string) : loc :=
  [ses; "sub-" +:+ subj; "mri_dataset"; "Desktop"; "bryant"; "home"].

(** [t'] differs from [t] inside the directory at [s] only, but for missing
    directories on the way to [s], which it has. *)
Definition confined (s : loc) (t t' : tree) : Prop :=
  forall l,
    t' !! l = t !! l \/ s `suffix_of` l \/
    (t !! l = None /\ t' !! l = Some Dir /\ l `suffix_of` s).

(** Whatever the file system, the path [q] resolves inside the directory at
    [s]. *)
Definition lands_in (cwd s : loc) (q : string) : Prop :=
  forall (t : tree) k, Fs.resolve cwd t q = Ok k -> s `suffix_of` k.

(** * Properties *)

(** ** The monad *)

Lemma bind_Ok_inv {A B} (m : M A) (k : A -> M B) t b t' :
  bind m k t = (Ok b, t') ->
  exists a t1, m t = (Ok a, t1) /\ k a t1 = (Ok b, t').
Proof.
  unfold bind. destruct (m t) as [[a|e] t1]; intros H.
  - exists a, t1. split; [reflexivity | exact H].
  - discriminate H.
Qed.

Lemma bind_Raise_inv {A B} (m : M A) (k : A -> M B) t e t' :
  bind m k t = (Raise e, t') ->
  m t = (Raise e, t') \/ exists a t1, m t = (Ok a, t1) /\ k a t1 = (Raise e, t').
Proof.
  unfold bind. destruct (m t) as [[a|e0] t1]; intros H.
  - right. exists a, t1. split; [reflexivity | exact H].
  - left. inversion H. reflexivity.
Qed.

Lemma bind_Ok_step {A B} (m : M A) (k : A -> M B) t a t1 :
  m t = (Ok a, t1) -> bind m k t = k a t1.
Proof. unfold bind. intros ->. reflexivity. Qed.

Lemma bind_Raise_step {A B} (m : M A) (k : A -> M B) t e t1 :
  m t = (Raise e, t1) -> bind m k t = (Raise e, t1).
Proof. unfold bind. intros ->. reflexivity. Qed.

Lemma lift_inv {A} (r : result A) t r' t' :
  lift r t = (r', t') -> r' = r /\ t' = t.
Proof. unfold lift. intros H. inversion H. split; reflexivity. Qed.

Lemma raises_Exception_bind {A B} (m : M A) (k : A -> M B) :
  raises_Exception m -> (forall a, raises_Exception (k a)) ->
  raises_Exception (bind m k).
Proof.
  intros Hm Hk t e t' H.
  apply bind_Raise_inv in H as [H | (a & t1 & _ & H)].
  - eapply Hm. exact H.
  - eapply Hk. exact H.
Qed.

Lemma raises_Exception_ret {A} (a : A) : raises_Exception (ret a).
Proof. intros t e t' H. discriminate H. Qed.

Lemma raises_Exception_for_each {A} (l : list A) (f : A -> M unit) :
  (forall x, raises_Exception (f x)) -> raises_Exception (for_each l f).
Proof.
  intros Hf. induction l as [|x l IH]; simpl.
  - apply raises_Exception_ret.
  - apply raises_Exception_bind; [apply Hf | intros _; exact IH].
Qed.

Lemma keeps_dirs_bind {A B} (m : M A) (k : A -> M B) :
  keeps_dirs m -> (forall a, keeps_dirs (k a)) -> keeps_dirs (bind m k).
Proof.
  intros Hm Hk t r t' H l Hl. unfold bind in H.
  destruct (m t) as [[a|e] t1] eqn:E.
  - eapply Hk; [exact H |]. eapply Hm; [exact E | exact Hl].
  - inversion H; subst. eapply Hm; [exact E | exact Hl].
Qed.

Lemma keeps_dirs_pure {A} (m : M A) :
  (forall t, snd (m t) = t) -> keeps_dirs m.
Proof.
  intros Hm t r t' H l Hl. specialize (Hm t). rewrite H in Hm. simpl in Hm.
  subst t'. exact Hl.
Qed.

Lemma keeps_dirs_for_each {A} (l : list A) (f : A -> M unit) :
  (forall x, keeps_dirs (f x)) -> keeps_dirs (for_each l f).
Proof.
  intros Hf. induction l as [|x l IH]; simpl.
  - apply keeps_dirs_pure. reflexivity.
  - apply keeps_dirs_bind; [apply Hf | intros _; exact IH].
Qed.

(** ** Strings *)

Lemma eqb_true (a b : string) : PyStr.eqb a b = true <-> a = b.
Proof. unfold PyStr.eqb. apply bool_decide_eq_true. Qed.

Lemma eqb_false (a b : string) : PyStr.eqb a b = false <-> a <> b.
Proof. unfold PyStr.eqb. apply bool_decide_eq_false. Qed.

Lemma eqb_refl (a : string) : PyStr.eqb a a = true.
Proof. apply eqb_true. reflexivity. Qed.

Lemma prefix_empty (s : string) : String.prefix "" s = true.
Proof. destruct s; reflexivity. Qed.

(** Replacing the one-character text [" "] acts character by character. *)
Lemma replace_space (s : string) :
  PyStr.replace " " "_" s = PyStr.map_chars space_to_underscore s.
Proof.
  unfold PyStr.replace.
  induction s as [|c s IH]; [reflexivity |].
  cbn [PyStr.replace_go PyStr.map_chars String.prefix String.length Nat.sub].
  unfold space_to_underscore at 1.
  destruct (ascii_dec " " c) as [<- | Hne].
  - rewrite prefix_empty. cbn. rewrite IH. reflexivity.
  - assert (Ascii.eqb c " " = false) as ->
      by (apply Ascii.eqb_neq; congruence).
    rewrite IH. reflexivity.
Qed.

Lemma map_chars_length f s :
  String.length (PyStr.map_chars f s) = String.length s.
Proof. induction s; simpl; congruence. Qed.

Lemma map_chars_no_space s :
  PyStr.contains_char " " (PyStr.map_chars space_to_underscore s) = false.
Proof.
  induction s as [|c s IH]; [reflexivity |]. simpl. rewrite IH.
  unfold space_to_underscore.
  destruct (Ascii.eqb c " ") eqn:E; [reflexivity |]. rewrite E. reflexivity.
Qed.

(** ** Exceptions raised by the steps *)

(** Case analysis on every scrutinee of the hypothesis [H], without
    unfolding anything. *)
Ltac cases_of H :=
  repeat match type of H with
         | context [match ?x with _ => _ end] => destruct x
         | context [if ?x then _ else _] => destruct x
         end.

Lemma walk_raises t cur cs e :
  Fs.walk t cur cs = Raise e -> is_Exception e = true.
Proof.
  revert cur. induction cs as [|c cs IH]; intros cur H; cbn [Fs.walk] in H.
  - discriminate H.
  - destruct (Fs.node_at t cur) as [[|d]|].
    + eapply IH. exact H.
    + inversion H. reflexivity.
    + inversion H. reflexivity.
Qed.

Lemma resolve_raises cwd t p e :
  Fs.resolve cwd t p = Raise e -> is_Exception e = true.
Proof.
  unfold Fs.resolve. destruct (PyStr.eqb p "").
  - intros H. inversion H. reflexivity.
  - apply walk_raises.
Qed.

Lemma stat_raises cwd t p e :
  Fs.stat cwd t p = Raise e -> is_Exception e = true.
Proof.
  unfold Fs.stat. destruct (Fs.resolve cwd t p) as [l|e0] eqn:E.
  - destruct (Fs.node_at t l); intros H; inversion H. reflexivity.
  - intros H. inversion H; subst. eapply resolve_raises. exact E.
Qed.

Lemma strptime_raises s e :
  DateTime.strptime s = Raise e -> e = ValueError.
Proof.
  unfold DateTime.strptime. intros H.
  cases_of H; inversion H; reflexivity.
Qed.

Lemma subject_label_raises session_info e :
  subject_label session_info = Raise e -> is_Exception e = true.
Proof.
  unfold subject_label, method_replace. intros H.
  destruct (dict_get _ _ _); inversion H; reflexivity.
Qed.

Lemma session_label_raises scan_info e :
  session_label scan_info = Raise e -> is_Exception e = true.
Proof.
  unfold session_label. intros H.
  destruct (py_bool _) as [[|]|e0] eqn:Eb.
  - destruct (datetime_strptime _) as [dt|e1] eqn:Ep; [discriminate H |].
    inversion H; subst. unfold datetime_strptime in Ep.
    destruct (dict_get _ _ _); try (inversion Ep; reflexivity).
    apply strptime_raises in Ep. subst. reflexivity.
  - inversion H. reflexivity.
  - inversion H; subst. unfold py_bool in Eb.
    cases_of Eb; inversion Eb; reflexivity.
Qed.

Lemma base_filename_raises scan_info e :
  base_filename scan_info = Raise e -> is_Exception e = true.
Proof.
  unfold base_filename, os_path_splitext. intros H.
  destruct (dict_get _ _ _); cases_of H; inversion H; reflexivity.
Qed.

Lemma raises_Exception_lift {A} (r : result A) :
  (forall e, r = Raise e -> is_Exception e = true) ->
  raises_Exception (lift r).
Proof.
  intros Hr t e t' H. apply lift_inv in H as [H _]. apply Hr. symmetry. exact H.
Qed.

Lemma walk_create_raises cs : forall cur, raises_Exception (Fs.walk_create cur cs).
Proof.
  induction cs as [|c cs IH]; intros cur t e t' H; cbn [Fs.walk_create] in H.
  - discriminate H.
  - destruct (Fs.node_at t cur) as [[|d]|]; [| inversion H; reflexivity ..].
    destruct (PyStr.eqb c "."); [eapply IH; exact H |].
    destruct (PyStr.eqb c ".."); [eapply IH; exact H |].
    destruct (Fs.node_at t (c :: cur)) as [[|d]|].
    + eapply IH; exact H.
    + inversion H. destruct cs; reflexivity.
    + eapply IH; exact H.
Qed.

Lemma makedirs_raises cwd name : raises_Exception (Fs.makedirs cwd name).
Proof.
  unfold Fs.makedirs. destruct (PyStr.eqb name "").
  - intros t e t' H. inversion H. reflexivity.
  - apply walk_create_raises.
Qed.

Lemma exists_pure cwd p t : exists b, Fs.exists_ cwd p t = (Ok b, t).
Proof. unfold Fs.exists_. eauto. Qed.

Lemma isdir_pure cwd p t : exists b, Fs.isdir cwd p t = (Ok b, t).
Proof. unfold Fs.isdir. eauto. Qed.

Lemma samefile_pure cwd a b t : exists r, Fs.samefile cwd a b t = (Ok r, t).
Proof. unfold Fs.samefile. eauto. Qed.

Lemma listdir_raises cwd p : raises_Exception (Fs.listdir cwd p).
Proof.
  intros t e t' H. unfold Fs.listdir in H.
  destruct (Fs.resolve cwd t p) as [l|e0] eqn:E.
  - destruct (Fs.node_at t l) as [[|d]|]; inversion H; reflexivity.
  - inversion H; subst. eapply resolve_raises. exact E.
Qed.

Lemma read_file_raises cwd p : raises_Exception (Fs.read_file cwd p).
Proof.
  intros t e t' H. unfold Fs.read_file in H.
  destruct (Fs.stat cwd t p) as [[|d]|e0] eqn:E; inversion H; subst.
  - reflexivity.
  - eapply stat_raises. exact E.
Qed.

Lemma open_w_raises cwd p : raises_Exception (Fs.open_w cwd p).
Proof.
  intros t e t' H. unfold Fs.open_w in H.
  destruct (Fs.resolve cwd t p) as [l|e0] eqn:E.
  - destruct (Fs.node_at t l) as [[|d]|]; destruct (Fs.is_dir t (tail l));
      inversion H; reflexivity.
  - inversion H; subst. eapply resolve_raises. exact E.
Qed.

Lemma write_Ok f data t : exists t', Fs.write f data t = (Ok tt, t').
Proof. unfold Fs.write. destruct (t !! f) as [[|old]|]; eauto. Qed.

Lemma write_raises f data : raises_Exception (Fs.write f data).
Proof.
  intros t e t' H. destruct (write_Ok f data t) as [t1 E].
  rewrite E in H. discriminate H.
Qed.

Lemma copyfile_raises cwd src dst : raises_Exception (Fs.copyfile cwd src dst).
Proof.
  unfold Fs.copyfile. apply raises_Exception_bind.
  - intros t e t' H. destruct (samefile_pure cwd src dst t) as [r E].
    rewrite E in H. discriminate H.
  - intros [|].
    + intros t e t' H. inversion H. reflexivity.
    + apply raises_Exception_bind; [apply read_file_raises |]. intros data.
      apply raises_Exception_bind; [apply open_w_raises |]. intros f.
      apply write_raises.
Qed.

Lemma copy_raises cwd src dst : raises_Exception (Fs.copy cwd src dst).
Proof.
  unfold Fs.copy. apply raises_Exception_bind.
  - intros t e t' H. destruct (isdir_pure cwd dst t) as [r E].
    rewrite E in H. discriminate H.
  - intros d. apply copyfile_raises.
Qed.

Lemma json_dump_raises cwd obj p : raises_Exception (Fs.json_dump cwd obj p).
Proof.
  unfold Fs.json_dump. apply raises_Exception_bind; [apply open_w_raises |].
  intros f. destruct (Json.iterencode 0 obj) as [text complete].
  apply raises_Exception_bind; [apply write_raises |]. intros _.
  destruct complete.
  - apply raises_Exception_ret.
  - intros t e t' H. inversion H. reflexivity.
Qed.

Lemma try_copy_raises cwd src dst : raises_Exception (_try_copy cwd src dst).
Proof.
  unfold _try_copy. apply raises_Exception_bind.
  - intros t e t' H. destruct (exists_pure cwd src t) as [r E].
    rewrite E in H. discriminate H.
  - intros [|]; [apply copy_raises | apply raises_Exception_ret].
Qed.

Lemma make_subfolders_raises cwd p : raises_Exception (make_subfolders cwd p).
Proof.
  unfold make_subfolders. apply raises_Exception_for_each.
  intros x. apply makedirs_raises.
Qed.

Lemma copy_data_files_raises cwd primary session base :
  raises_Exception (copy_data_files cwd primary session base).
Proof.
  unfold copy_data_files. apply raises_Exception_for_each.
  intros [ext [s d]]. apply try_copy_raises.
Qed.

Lemma copy_seq_files_raises cwd primary session base :
  raises_Exception (copy_seq_files cwd primary session base).
Proof.
  unfold copy_seq_files. apply raises_Exception_bind.
  - intros t e t' H. destruct (exists_pure cwd (PosixPath.join primary ["seq"]) t)
      as [r E]. rewrite E in H. discriminate H.
  - intros [|]; [| apply raises_Exception_ret].
    apply raises_Exception_bind; [apply listdir_raises |]. intros names.
    apply raises_Exception_for_each. intros n.
    destruct (_ && _); [apply try_copy_raises | apply raises_Exception_ret].
Qed.

Lemma save_metadata_raises cwd session_info scan_info p :
  raises_Exception (save_metadata cwd session_info scan_info p).
Proof. unfold save_metadata. apply json_dump_raises. Qed.

Lemma body_raises cwd session_info scan_info primary :
  raises_Exception (body cwd session_info scan_info primary).
Proof.
  unfold body.
  apply raises_Exception_bind;
    [apply raises_Exception_lift, subject_label_raises |]. intros subj.
  apply raises_Exception_bind;
    [apply raises_Exception_lift, session_label_raises |]. intros ses.
  apply raises_Exception_bind; [apply make_subfolders_raises |]. intros _.
  apply raises_Exception_bind;
    [apply raises_Exception_lift, base_filename_raises |]. intros base.
  apply raises_Exception_bind; [apply copy_data_files_raises |]. intros _.
  apply raises_Exception_bind; [apply copy_seq_files_raises |]. intros _.
  apply raises_Exception_bind; [apply save_metadata_raises |]. intros _.
  apply raises_Exception_ret.
Qed.

(** ** Dictionaries *)

Lemma dict_get_lookup d k default :
  dict_get d k default =
  match dict_lookup d k with Some v => v | None => default end.
Proof.
  induction d as [|[k' v] d IH]; simpl; [reflexivity |].
  destruct (PyStr.eqb k' k); [reflexivity | exact IH].
Qed.

Lemma dict_lookup_In d k v : dict_lookup d k = Some v -> In (k, v) d.
Proof.
  induction d as [|[k' v'] d IH]; simpl; [discriminate |].
  destruct (PyStr.eqb k' k) eqn:E.
  - intros H. inversion H; subst. apply eqb_true in E. subst. left. reflexivity.
  - intros H. right. apply IH. exact H.
Qed.

Lemma dict_lookup_None d k : dict_lookup d k = None <-> ~ In k (dict_keys d).
Proof.
  induction d as [|[k' v'] d IH]; simpl.
  - split; [intros _ [] | reflexivity].
  - destruct (PyStr.eqb k' k) eqn:E.
    + apply eqb_true in E. subst. split; [discriminate | intros H; exfalso; apply H; left; reflexivity].
    + apply eqb_false in E. rewrite IH. split.
      * intros H [H1 | H1]; [congruence | exact (H H1)].
      * intros H H1. apply H. right. exact H1.
Qed.

(** ** The stages of a call that returns a path *)

Lemma body_Ok_inv cwd session_info scan_info primary t p t' :
  body cwd session_info scan_info primary t = (Ok p, t') ->
  exists subj ses base t1 t2 t3,
    subject_label session_info = Ok subj /\
    session_label scan_info = Ok ses /\
    p = PosixPath.join dataset_root ["sub-" +:+ subj; ses] /\
    make_subfolders cwd p t = (Ok tt, t1) /\
    base_filename scan_info = Ok base /\
    copy_data_files cwd primary p base t1 = (Ok tt, t2) /\
    copy_seq_files cwd primary p base t2 = (Ok tt, t3) /\
    save_metadata cwd session_info scan_info p t3 = (Ok tt, t').
Proof.
  unfold body. intros H.
  apply bind_Ok_inv in H as (subj & ta & Hsubj & H).
  apply lift_inv in Hsubj as [Hsubj ->].
  apply bind_Ok_inv in H as (ses & tb & Hses & H).
  apply lift_inv in Hses as [Hses ->].
  apply bind_Ok_inv in H as ([] & t1 & Hmk & H).
  apply bind_Ok_inv in H as (base & tc & Hbase & H).
  apply lift_inv in Hbase as [Hbase ->].
  apply bind_Ok_inv in H as ([] & t2 & Hcp & H).
  apply bind_Ok_inv in H as ([] & t3 & Hseq & H).
  apply bind_Ok_inv in H as ([] & t4 & Hmeta & H).
  inversion H; subst.
  exists subj, ses, base, t1, t2, t3. repeat split; auto.
Qed.

Lemma created_Some_inv cwd session_info scan_info primary t p t' :
  createMirroredDataset cwd session_info scan_info primary t
    = (Returns (Some p), t') ->
  body cwd session_info scan_info primary t = (Ok p, t').
Proof.
  unfold createMirroredDataset.
  destruct (body _ _ _ _ t) as [[p0|e] t0].
  - intros H. inversion H. reflexivity.
  - destruct (is_Exception e); intros H; inversion H.
Qed.

Lemma subject_label_Ok session_info subj :
  subject_label session_info = Ok subj ->
  exists subject_id,
    match dict_lookup session_info "subject_id" with
    | None => subject_id = "UnknownSubject"
    | Some v => v = VStr subject_id
    end /\
    subj = PyStr.map_chars space_to_underscore subject_id.
Proof.
  unfold subject_label. rewrite dict_get_lookup.
  destruct (dict_lookup session_info "subject_id") as [v|]; unfold method_replace.
  - destruct v; try discriminate. intros H. inversion H.
    exists s. split; [reflexivity | apply replace_space].
  - intros H. inversion H. exists "UnknownSubject". split; reflexivity.
Qed.

Lemma session_label_Ok scan_info ses :
  session_label scan_info = Ok ses ->
  exists name_string dt,
    dict_lookup scan_info "name_string" = Some (VStr name_string) /\
    DateTime.strptime name_string = Ok dt /\
    ses = "ses-" +:+ DateTime.strftime dt.
Proof.
  unfold session_label. rewrite dict_get_lookup.
  destruct (dict_lookup scan_info "name_string") as [v|]; [| discriminate].
  destruct (py_bool v) as [[|]|]; try discriminate.
  unfold datetime_strptime. destruct v; try discriminate.
  destruct (DateTime.strptime s) as [dt|] eqn:E; [| discriminate].
  intros H. inversion H. exists s, dt. auto.
Qed.

(** ** Joining paths *)

Lemma app_cons (c : ascii) (a b : string) :
  String c a +:+ b = String c (a +:+ b).
Proof. reflexivity. Qed.

Lemma app_nil (b : string) : "" +:+ b = b.
Proof. reflexivity. Qed.

Lemma length_app (a b : string) :
  String.length (a +:+ b) = String.length a + String.length b.
Proof.
  induction a as [|c a IH]; [reflexivity |].
  rewrite app_cons. cbn [String.length]. rewrite IH. reflexivity.
Qed.

Lemma app_assoc_s (a b c : string) : (a +:+ b) +:+ c = a +:+ (b +:+ c).
Proof.
  induction a as [|x a IH]; [reflexivity |].
  rewrite !app_cons. rewrite IH. reflexivity.
Qed.

Lemma app_empty_r (a : string) : a +:+ "" = a.
Proof.
  induction a as [|x a IH]; [reflexivity |]. rewrite app_cons, IH. reflexivity.
Qed.

Lemma drop_last (s : string) :
  s <> "" ->
  PyStr.drop (String.length s - 1) s
  = match last_char s with Some c => String c "" | None => "" end.
Proof.
  induction s as [|c s IH]; [congruence |]. intros _.
  destruct s as [|c' s]; [reflexivity |].
  replace (String.length (String c (String c' s)) - 1)
    with (S (String.length (String c' s) - 1))
    by (cbn [String.length]; lia).
  cbn [PyStr.drop]. rewrite IH by discriminate. reflexivity.
Qed.

Lemma endswith_char (s : string) (c : ascii) :
  PyStr.endswith s (String c "") = true <-> last_char s = Some c.
Proof.
  unfold PyStr.endswith. destruct s as [|a s].
  - simpl. split; discriminate.
  - change (String.length (String c "")) with 1.
    assert ((1 <=? String.length (String a s))%nat = true) as -> by reflexivity.
    rewrite andb_true_l, eqb_true.
    rewrite drop_last by discriminate.
    destruct (last_char (String a s)) as [x|]; split; intros H;
      inversion H; reflexivity.
Qed.

Lemma endswith_char_false (s : string) (c : ascii) :
  PyStr.endswith s (String c "") = false <-> last_char s <> Some c.
Proof.
  rewrite <- endswith_char. destruct (PyStr.endswith s (String c ""));
    split; congruence.
Qed.

Lemma last_char_app (a b : string) :
  b <> "" -> last_char (a +:+ b) = last_char b.
Proof.
  intros Hb. induction a as [|c a IH]; [reflexivity |].
  rewrite app_cons. cbn [last_char]. rewrite IH.
  destruct (a +:+ b) eqn:E; [| reflexivity].
  destruct a; [rewrite app_nil in E; congruence | discriminate E].
Qed.

Lemma last_char_map (f : ascii -> ascii) (s : string) :
  last_char (PyStr.map_chars f s) = option_map f (last_char s).
Proof.
  induction s as [|c s IH]; [reflexivity |].
  destruct s as [|c' s]; [reflexivity |]. exact IH.
Qed.

Lemma startswith_char (s : string) (c : ascii) :
  PyStr.startswith s (String c "") = true <-> exists s', s = String c s'.
Proof.
  unfold PyStr.startswith. destruct s as [|a s]; simpl.
  - split; [discriminate | intros [s' H]; discriminate].
  - destruct (ascii_dec c a) as [<- | Hne].
    + rewrite prefix_empty. split; eauto.
    + split; [discriminate | intros [s' H]; congruence].
Qed.

(** A relative component is appended after a separator. *)
Lemma join2_relative (path b : string) :
  PyStr.startswith b "/" = false ->
  path <> "" ->
  last_char path <> Some "/"%char ->
  PosixPath.join2 path b = path +:+ "/" +:+ b.
Proof.
  intros Hb Hp Hl. unfold PosixPath.join2. rewrite Hb.
  apply eqb_false in Hp. rewrite Hp.
  apply endswith_char_false in Hl. rewrite Hl. reflexivity.
Qed.

Lemma join_root_explicit (a b : string) :
  last_char a <> Some "/"%char ->
  PosixPath.join dataset_root ["sub-" +:+ a; "ses-" +:+ b]
  = dataset_root +:+ "/sub-" +:+ a +:+ "/ses-" +:+ b.
Proof.
  intros Ha. unfold PosixPath.join. cbn [fold_left].
  rewrite (join2_relative dataset_root) by (reflexivity || discriminate).
  rewrite join2_relative.
  - rewrite !app_assoc_s. reflexivity.
  - reflexivity.
  - discriminate.
  - rewrite last_char_app by discriminate.
    change ("sub-" +:+ a) with (String "s" (String "u" (String "b" (String "-" a)))).
    destruct a as [|c a]; [discriminate |]. exact Ha.
Qed.

(** ** C1: the returned path *)

(** C1. A call that returns a path had a [name_string] the format parses
    and returns the join of the dataset root, [sub-] followed by the subject
    identifier with every space turned into an underscore ([UnknownSubject]
    when the session has no [subject_id]), and [ses-] followed by the compact
    timestamp.  When the identifier does not end with a separator the join is
    [<root>/sub-<label>/ses-<timestamp>]. *)
Theorem C1_returned_path cwd session_info scan_info primary t t' p :
  createMirroredDataset cwd session_info scan_info primary t
    = (Returns (Some p), t') ->
  exists subject_id name_string dt,
    match dict_lookup session_info "subject_id" with
    | None => subject_id = "UnknownSubject"
    | Some v => v = VStr subject_id
    end /\
    dict_lookup scan_info "name_string" = Some (VStr name_string) /\
    DateTime.strptime name_string = Ok dt /\
    p = PosixPath.join dataset_root
          ["sub-" +:+ PyStr.map_chars space_to_underscore subject_id;
           "ses-" +:+ DateTime.strftime dt] /\
    PyStr.contains_char " " (PyStr.map_chars space_to_underscore subject_id)
      = false /\
    (last_char subject_id <> Some "/"%char ->
     p = dataset_root +:+ "/sub-"
         +:+ PyStr.map_chars space_to_underscore subject_id
         +:+ "/ses-" +:+ DateTime.strftime dt).
Proof.
  intros H. apply created_Some_inv, body_Ok_inv in H
    as (subj & ses & base & t1 & t2 & t3 & Hsubj & Hses & Hp & _).
  apply subject_label_Ok in Hsubj as (subject_id & Hid & ->).
  apply session_label_Ok in Hses as (name_string & dt & Hname & Hparse & ->).
  exists subject_id, name_string, dt.
  split; [exact Hid |]. split; [exact Hname |]. split; [exact Hparse |].
  split; [exact Hp |]. split; [apply map_chars_no_space |].
  intros Hlast. rewrite Hp. apply join_root_explicit.
  rewrite last_char_map. destruct (last_char subject_id) as [c|]; [| discriminate].
  simpl. intros E. apply Hlast. inversion E as [E'].
  unfold space_to_underscore in E'.
  destruct (Ascii.eqb c " "); [discriminate | congruence].
Qed.

(** ** C2: exceptions become [None] *)

Lemma created_of_body cwd session_info scan_info primary t :
  createMirroredDataset cwd session_info scan_info primary t
  = match body cwd session_info scan_info primary t with
    | (Ok p, t') => (Returns (Some p), t')
    | (Raise _, t') => (Returns None, t')
    end.
Proof.
  unfold createMirroredDataset.
  destruct (body cwd session_info scan_info primary t) as [[p|e] t'] eqn:E;
    [reflexivity |].
  apply body_raises in E. rewrite E. reflexivity.
Qed.

(** C2. Whatever the inputs and the file system: when a step of the body
    raises, the call returns [None] (and nothing propagates); when no step
    raises, it returns the session directory path. *)
Theorem C2_exceptions_become_None cwd session_info scan_info primary t :
  (forall e, fst (createMirroredDataset cwd session_info scan_info primary t)
             <> Propagates e) /\
  match body cwd session_info scan_info primary t with
  | (Raise e, t') =>
      createMirroredDataset cwd session_info scan_info primary t
      = (Returns None, t')
  | (Ok p, t') =>
      createMirroredDataset cwd session_info scan_info primary t
      = (Returns (Some p), t') /\
      exists subj ses,
        subject_label session_info = Ok subj /\
        session_label scan_info = Ok ses /\
        p = PosixPath.join dataset_root ["sub-" +:+ subj; ses]
  end.
Proof.
  rewrite created_of_body.
  destruct (body cwd session_info scan_info primary t) as [[p|e] t'] eqn:E.
  - split; [intros e; discriminate |]. split; [reflexivity |].
    apply body_Ok_inv in E
      as (subj & ses & base & t1 & t2 & t3 & Hsubj & Hses & Hp & _).
    exists subj, ses. auto.
  - split; [intros e'; discriminate | reflexivity].
Qed.

(** ** C3: the two required fields *)

Lemma take_empty n s : PyStr.take n s = "" -> n = 0 \/ s = "".
Proof. destruct n, s; simpl; auto; discriminate. Qed.

(** The stem [os.path.splitext] leaves is empty for the empty name only. *)
Lemma splitext_stem_empty (p : string) :
  fst (PosixPath.splitext p) = "" <-> p = "".
Proof.
  split; [| intros ->; reflexivity].
  unfold PosixPath.splitext.
  destruct (PyStr.rfind PosixPath.extsep p) as [dotIndex|]; [| auto].
  destruct (_ <=? dotIndex)%nat; [| auto].
  destruct (PyStr.has_other _ _) eqn:E; [| auto].
  cbn [fst]. intros H. apply take_empty in H as [-> | ->]; [| reflexivity].
  rewrite Nat.sub_0_l in E. discriminate E.
Qed.

Lemma base_filename_Ok scan_info base :
  base_filename scan_info = Ok base ->
  exists f, dict_lookup scan_info "fileName" = Some (VStr f) /\
            base = fst (PosixPath.splitext f) /\ base <> "".
Proof.
  unfold base_filename. rewrite dict_get_lookup.
  destruct (dict_lookup scan_info "fileName") as [v|]; [| discriminate].
  unfold os_path_splitext. destruct v; try discriminate.
  destruct (PosixPath.splitext s) as [stem ext] eqn:E.
  destruct (PyStr.eqb stem "") eqn:Es; [discriminate |].
  intros H. inversion H; subst. exists s. rewrite E.
  apply eqb_false in Es. auto.
Qed.

(** C3. When [name_string] is absent or empty, or [fileName] is absent or
    has an empty stem, the call returns [None]. *)
Theorem C3_required_fields cwd session_info scan_info primary t :
  dict_lookup scan_info "name_string" = None \/
  dict_lookup scan_info "name_string" = Some (VStr "") \/
  dict_lookup scan_info "fileName" = None \/
  (exists f, dict_lookup scan_info "fileName" = Some (VStr f) /\
             fst (PosixPath.splitext f) = "") ->
  fst (createMirroredDataset cwd session_info scan_info primary t)
  = Returns None.
Proof.
  intros H. rewrite created_of_body.
  destruct (body cwd session_info scan_info primary t) as [[p|e] t'] eqn:E;
    [| reflexivity].
  exfalso. apply body_Ok_inv in E
    as (subj & ses & base & t1 & t2 & t3 & _ & Hses & _ & _ & Hbase & _).
  apply session_label_Ok in Hses as (s & dt & Hs & Hparse & _).
  apply base_filename_Ok in Hbase as (f & Hf & Hstem & Hne).
  destruct H as [H | [H | [H | (f' & H & Hf')]]].
  - congruence.
  - rewrite Hs in H. inversion H; subst. discriminate Hparse.
  - congruence.
  - rewrite Hf in H. inversion H; subst. congruence.
Qed.

(** ** The timestamp pattern *)











(** ** Numbers and their digits *)




Lemma snoc_cases (s : string) :
  s = "" \/ exists s' c, s = s' +:+ String c "".
Proof.
  induction s as [|a s IH]; [left; reflexivity | right].
  destruct IH as [-> | (s' & c & ->)].
  - exists "", a. reflexivity.
  - exists (String a s'), c. reflexivity.
Qed.









Lemma app_inj_length (a b x y : string) :
  String.length a = String.length b -> a +:+ x = b +:+ y -> a = b /\ x = y.
Proof.
  revert b. induction a as [|c a IH]; intros [|d b] Hl H; try discriminate.
  - split; [reflexivity | exact H].
  - rewrite !app_cons in H. inversion H; subst.
    destruct (IH b) as [-> ->]; auto.
Qed.





Lemma session_label_parsed scan_info s dt :
  dict_lookup scan_info "name_string" = Some (VStr s) ->
  DateTime.strptime s = Ok dt ->
  session_label scan_info = Ok ("ses-" +:+ DateTime.strftime dt).
Proof.
  intros Hs Hp. unfold session_label. rewrite dict_get_lookup, Hs.
  destruct s as [|c s]; [discriminate Hp |].
  cbn [py_bool]. assert (PyStr.eqb (String c s) "" = false) as ->
    by (apply eqb_false; discriminate).
  cbn [negb datetime_strptime]. rewrite Hp. reflexivity.
Qed.

Lemma session_label_unparsable scan_info s e :
  dict_lookup scan_info "name_string" = Some (VStr s) ->
  DateTime.strptime s = Raise e ->
  session_label scan_info = Raise ValueError.
Proof.
  intros Hs Hp. unfold session_label. rewrite dict_get_lookup, Hs.
  cbn [py_bool]. destruct (PyStr.eqb s ""); cbn [negb]; [reflexivity |].
  cbn [datetime_strptime]. rewrite Hp. apply strptime_raises in Hp. subst.
  reflexivity.
Qed.

Lemma body_session_label_Raise cwd session_info scan_info primary t e :
  session_label scan_info = Raise e ->
  exists e', body cwd session_info scan_info primary t = (Raise e', t).
Proof.
  intros H. unfold body, bind, lift.
  destruct (subject_label session_info) as [subj|e0]; [| eauto].
  rewrite H. eauto.
Qed.

(** ** C4: the session label *)


(** ** Directories are never lost *)

Lemma node_at_insert t k n l :
  Fs.node_at (<[k := n]> t) l
  = match l with
    | [] => Some Dir
    | _ => if decide (k = l) then Some n else Fs.node_at t l
    end.
Proof.
  destruct l as [|c l]; [reflexivity |]. unfold Fs.node_at.
  rewrite lookup_insert. repeat case_decide; congruence.
Qed.

Lemma is_dir_insert_Dir t k l :
  Fs.is_dir t l = true -> Fs.is_dir (<[k := Dir]> t) l = true.
Proof.
  unfold Fs.is_dir. rewrite node_at_insert. destruct l as [|c l]; [auto |].
  case_decide; [reflexivity | auto].
Qed.

(** Writing a file where no directory is leaves every directory in place. *)
Lemma is_dir_insert_File t k data l :
  Fs.is_dir t k = false ->
  Fs.is_dir (<[k := File data]> t) l = Fs.is_dir t l.
Proof.
  intros Hk. unfold Fs.is_dir. rewrite node_at_insert.
  destruct l as [|c l]; [reflexivity |].
  case_decide; [subst k | reflexivity].
  unfold Fs.is_dir in Hk. destruct (Fs.node_at t (c :: l)) as [[|d]|];
    [discriminate | reflexivity | reflexivity].
Qed.

Lemma walk_create_keeps_dirs cs : forall cur, keeps_dirs (Fs.walk_create cur cs).
Proof.
  induction cs as [|c cs IH]; intros cur t r t' H l Hl;
    cbn [Fs.walk_create] in H.
  - inversion H; subst. exact Hl.
  - destruct (Fs.node_at t cur) as [[|d]|];
      [| inversion H; subst; exact Hl ..].
    destruct (PyStr.eqb c "."); [eapply IH; eauto |].
    destruct (PyStr.eqb c ".."); [eapply IH; eauto |].
    destruct (Fs.node_at t (c :: cur)) as [[|d]|].
    + eapply IH; eauto.
    + inversion H; subst. exact Hl.
    + eapply IH; [exact H |]. apply is_dir_insert_Dir. exact Hl.
Qed.

Lemma makedirs_keeps_dirs cwd name : keeps_dirs (Fs.makedirs cwd name).
Proof.
  unfold Fs.makedirs. destruct (PyStr.eqb name "").
  - apply keeps_dirs_pure. reflexivity.
  - apply walk_create_keeps_dirs.
Qed.

Lemma make_subfolders_keeps_dirs cwd p : keeps_dirs (make_subfolders cwd p).
Proof.
  unfold make_subfolders. apply keeps_dirs_for_each. intros x.
  apply makedirs_keeps_dirs.
Qed.

(** What opening a file for writing does. *)
Lemma open_w_inv cwd p t r t' :
  Fs.open_w cwd p t = (r, t') ->
  (exists l, r = Ok l /\ Fs.resolve cwd t p = Ok l /\ Fs.is_dir t l = false
             /\ Fs.is_dir t (tail l) = true /\ t' = <[l := File ""]> t)
  \/ (exists e, r = Raise e /\ t' = t).
Proof.
  unfold Fs.open_w. destruct (Fs.resolve cwd t p) as [l|e] eqn:E.
  - destruct (Fs.node_at t l) as [[|d]|] eqn:En.
    + intros H. inversion H. right. eauto.
    + destruct (Fs.is_dir t (tail l)) eqn:Ed; intros H; inversion H; subst.
      * left. exists l. repeat split; auto.
        unfold Fs.is_dir. rewrite En. reflexivity.
      * right. eauto.
    + destruct (Fs.is_dir t (tail l)) eqn:Ed; intros H; inversion H; subst.
      * left. exists l. repeat split; auto.
        unfold Fs.is_dir. rewrite En. reflexivity.
      * right. eauto.
  - intros H. inversion H. right. eauto.
Qed.

(** Opening a file and writing one text to it. *)
Lemma open_write_inv cwd p data t r t' :
  bind (Fs.open_w cwd p) (fun f => Fs.write f data) t = (r, t') ->
  (exists l, r = Ok tt /\ Fs.resolve cwd t p = Ok l /\ Fs.is_dir t l = false
             /\ Fs.is_dir t (tail l) = true /\ t' = <[l := File data]> t)
  \/ (exists e, r = Raise e /\ t' = t).
Proof.
  unfold bind. destruct (Fs.open_w cwd p t) as [[l|e] t1] eqn:E;
    apply open_w_inv in E as [(l' & Hr & Hres & Hd & Hp & ->) | (e' & Hr & ->)];
    try discriminate.
  - inversion Hr; subst l'. unfold Fs.write. rewrite lookup_insert_eq.
    intros H. inversion H; subst. left. exists l.
    rewrite insert_insert_eq. auto.
  - intros H. inversion H; subst. right. eauto.
Qed.

Lemma open_write_keeps_dirs cwd p data :
  keeps_dirs (bind (Fs.open_w cwd p) (fun f => Fs.write f data)).
Proof.
  intros t r t' H l Hl.
  apply open_write_inv in H as [(k & _ & _ & Hd & _ & ->) | (e & _ & ->)].
  - rewrite is_dir_insert_File; assumption.
  - exact Hl.
Qed.

Lemma copyfile_keeps_dirs cwd src dst : keeps_dirs (Fs.copyfile cwd src dst).
Proof.
  unfold Fs.copyfile. apply keeps_dirs_bind.
  - apply keeps_dirs_pure. reflexivity.
  - intros [|]; [apply keeps_dirs_pure; reflexivity |].
    apply keeps_dirs_bind.
    + apply keeps_dirs_pure. intros t. unfold Fs.read_file.
      destruct (Fs.stat cwd t src) as [[|d]|]; reflexivity.
    + intros data. apply open_write_keeps_dirs.
Qed.

Lemma copy_keeps_dirs cwd src dst : keeps_dirs (Fs.copy cwd src dst).
Proof.
  unfold Fs.copy. apply keeps_dirs_bind.
  - apply keeps_dirs_pure. reflexivity.
  - intros d. apply copyfile_keeps_dirs.
Qed.

Lemma try_copy_keeps_dirs cwd src dst : keeps_dirs (_try_copy cwd src dst).
Proof.
  unfold _try_copy. apply keeps_dirs_bind.
  - apply keeps_dirs_pure. reflexivity.
  - intros [|]; [apply copy_keeps_dirs | apply keeps_dirs_pure; reflexivity].
Qed.

Lemma copy_data_files_keeps_dirs cwd primary session base :
  keeps_dirs (copy_data_files cwd primary session base).
Proof.
  unfold copy_data_files. apply keeps_dirs_for_each.
  intros [ext [s d]]. apply try_copy_keeps_dirs.
Qed.

Lemma listdir_pure cwd p t : snd (Fs.listdir cwd p t) = t.
Proof.
  unfold Fs.listdir. destruct (Fs.resolve cwd t p) as [l|]; [| reflexivity].
  destruct (Fs.node_at t l) as [[|d]|]; reflexivity.
Qed.

Lemma copy_seq_files_keeps_dirs cwd primary session base :
  keeps_dirs (copy_seq_files cwd primary session base).
Proof.
  unfold copy_seq_files. apply keeps_dirs_bind.
  - apply keeps_dirs_pure. reflexivity.
  - intros [|]; [| apply keeps_dirs_pure; reflexivity].
    apply keeps_dirs_bind; [apply keeps_dirs_pure, listdir_pure |].
    intros names. apply keeps_dirs_for_each. intros n.
    destruct (_ && _); [apply try_copy_keeps_dirs |].
    apply keeps_dirs_pure. reflexivity.
Qed.

Lemma bind_assoc {A B C} (m : M A) (k1 : A -> M B) (k2 : B -> M C) t :
  bind m (fun a => bind (k1 a) k2) t = bind (bind m k1) k2 t.
Proof.
  unfold bind. destruct (m t) as [[a|e] t1]; reflexivity.
Qed.

(** What writing the metadata file does. *)
Lemma json_dump_inv cwd obj p t r t' :
  Fs.json_dump cwd obj p t = (r, t') ->
  (exists l, Fs.resolve cwd t p = Ok l /\ Fs.is_dir t l = false
             /\ Fs.is_dir t (tail l) = true
             /\ t' = <[l := File (fst (Json.iterencode 0 obj))]> t
             /\ r = if snd (Json.iterencode 0 obj) then Ok tt
                    else Raise TypeError)
  \/ (exists e, r = Raise e /\ t' = t).
Proof.
  unfold Fs.json_dump. destruct (Json.iterencode 0 obj) as [text complete].
  cbn [fst snd]. intros H. rewrite bind_assoc in H.
  unfold bind at 1 in H.
  destruct (bind (Fs.open_w cwd p) (fun f => Fs.write f text) t)
    as [r1 t1] eqn:E.
  apply open_write_inv in E as [(l & -> & Hres & Hd & Hp & ->) | (e & -> & ->)].
  - left. exists l. destruct complete; inversion H; subst; auto.
  - right. inversion H; subst. eauto.
Qed.

(** ** C8: scaffolding again *)

Lemma is_dir_node t l : Fs.is_dir t l = true <-> Fs.node_at t l = Some Dir.
Proof.
  unfold Fs.is_dir. destruct (Fs.node_at t l) as [[|d]|]; split;
    congruence.
Qed.

(** Creating directories that a larger file system already has does
    nothing. *)
Lemma walk_create_replay cs : forall cur t t1 t2,
  Fs.walk_create cur cs t = (Ok tt, t1) ->
  (forall l, Fs.is_dir t1 l = true -> Fs.is_dir t2 l = true) ->
  Fs.walk_create cur cs t2 = (Ok tt, t2).
Proof.
  induction cs as [|c cs IH]; intros cur t t1 t2 H Hle; [reflexivity |].
  pose proof (walk_create_keeps_dirs _ _ _ _ _ H) as Hkeep.
  cbn [Fs.walk_create] in H |- *.
  destruct (Fs.node_at t cur) as [[|d]|] eqn:Ecur; try discriminate H.
  apply is_dir_node in Ecur. apply Hkeep, Hle, is_dir_node in Ecur.
  rewrite Ecur.
  destruct (PyStr.eqb c "."); [eapply IH; eauto |].
  destruct (PyStr.eqb c ".."); [eapply IH; eauto |].
  destruct (Fs.node_at t (c :: cur)) as [[|d]|] eqn:Enext.
  - apply is_dir_node in Enext. apply Hkeep, Hle, is_dir_node in Enext.
    rewrite Enext. eapply IH; eauto.
  - discriminate H.
  - assert (Fs.is_dir t2 (c :: cur) = true) as Hnew.
    { apply Hle. eapply walk_create_keeps_dirs; [exact H |].
      apply is_dir_node. unfold Fs.node_at. apply lookup_insert_eq. }
    apply is_dir_node in Hnew. rewrite Hnew. eapply IH; eauto.
Qed.

Lemma makedirs_replay cwd name t t1 t2 :
  Fs.makedirs cwd name t = (Ok tt, t1) ->
  (forall l, Fs.is_dir t1 l = true -> Fs.is_dir t2 l = true) ->
  Fs.makedirs cwd name t2 = (Ok tt, t2).
Proof.
  unfold Fs.makedirs. destruct (PyStr.eqb name ""); [discriminate |].
  apply walk_create_replay.
Qed.

Lemma for_each_makedirs_replay cwd (f : string -> string) names :
  forall t t1 t2,
    for_each names (fun x => Fs.makedirs cwd (f x)) t = (Ok tt, t1) ->
    (forall l, Fs.is_dir t1 l = true -> Fs.is_dir t2 l = true) ->
    for_each names (fun x => Fs.makedirs cwd (f x)) t2 = (Ok tt, t2).
Proof.
  induction names as [|x names IH]; intros t t1 t2 H Hle; [reflexivity |].
  cbn [for_each] in H |- *.
  apply bind_Ok_inv in H as ([] & ta & Hx & Hrest).
  erewrite bind_Ok_step.
  - eapply IH; eauto.
  - eapply makedirs_replay; [exact Hx |]. intros l Hl. apply Hle.
    eapply keeps_dirs_for_each; [| exact Hrest | exact Hl].
    intros y. apply makedirs_keeps_dirs.
Qed.

Lemma make_subfolders_replay cwd p t t1 t2 :
  make_subfolders cwd p t = (Ok tt, t1) ->
  (forall l, Fs.is_dir t1 l = true -> Fs.is_dir t2 l = true) ->
  make_subfolders cwd p t2 = (Ok tt, t2).
Proof. unfold make_subfolders. apply for_each_makedirs_replay. Qed.

Lemma body_scaffolded cwd session_info scan_info primary t subj ses :
  subject_label session_info = Ok subj ->
  session_label scan_info = Ok ses ->
  body cwd session_info scan_info primary t
  = bind (make_subfolders cwd (PosixPath.join dataset_root ["sub-" +:+ subj; ses]))
      (fun _ => after_scaffolding cwd session_info scan_info primary
                  (PosixPath.join dataset_root ["sub-" +:+ subj; ses])) t.
Proof.
  intros Hsubj Hses. unfold body.
  rewrite (bind_Ok_step _ _ t subj t) by (unfold lift; rewrite Hsubj; reflexivity).
  rewrite (bind_Ok_step _ _ t ses t) by (unfold lift; rewrite Hses; reflexivity).
  reflexivity.
Qed.

Lemma save_metadata_keeps_dirs cwd session_info scan_info p :
  keeps_dirs (save_metadata cwd session_info scan_info p).
Proof.
  intros t r t' H l Hl. unfold save_metadata in H.
  apply json_dump_inv in H as [(k & _ & Hd & _ & -> & _) | (e & _ & ->)].
  - rewrite is_dir_insert_File; assumption.
  - exact Hl.
Qed.

Lemma after_scaffolding_keeps_dirs cwd session_info scan_info primary p :
  keeps_dirs (after_scaffolding cwd session_info scan_info primary p).
Proof.
  unfold after_scaffolding.
  apply keeps_dirs_bind; [apply keeps_dirs_pure; reflexivity |]. intros base.
  apply keeps_dirs_bind; [apply copy_data_files_keeps_dirs |]. intros _.
  apply keeps_dirs_bind; [apply copy_seq_files_keeps_dirs |]. intros _.
  apply keeps_dirs_bind; [apply save_metadata_keeps_dirs |]. intros _.
  apply keeps_dirs_pure. reflexivity.
Qed.

Lemma created_state cwd session_info scan_info primary t :
  snd (createMirroredDataset cwd session_info scan_info primary t)
  = snd (body cwd session_info scan_info primary t).
Proof.
  rewrite created_of_body.
  destruct (body cwd session_info scan_info primary t) as [[p|e] t'];
    reflexivity.
Qed.

(** ** Components of paths *)

Lemma split_nonempty c s : PyStr.split c s <> [].
Proof.
  destruct s as [|a s]; simpl; [discriminate |].
  destruct (Ascii.eqb a c); [discriminate |].
  destruct (PyStr.split c s); discriminate.
Qed.

Lemma split_cons_other c a s :
  Ascii.eqb a c = false ->
  exists w ws, PyStr.split c s = w :: ws /\
               PyStr.split c (String a s) = String a w :: ws.
Proof.
  intros Ha. simpl. rewrite Ha.
  destruct (PyStr.split c s) as [|w ws] eqn:E; [destruct (split_nonempty _ _ E) |].
  exists w, ws. split; reflexivity.
Qed.

(** Splitting at a separator splits the pieces. *)
Lemma split_app_sep c a b :
  PyStr.split c (a +:+ String c b) = PyStr.split c a ++ PyStr.split c b.
Proof.
  induction a as [|x a IH].
  - rewrite app_nil. simpl. rewrite Ascii.eqb_refl. reflexivity.
  - rewrite app_cons. destruct (Ascii.eqb x c) eqn:Ex.
    + simpl. rewrite Ex, IH. reflexivity.
    + destruct (split_cons_other c x a Ex) as (w & ws & Ea & ->).
      destruct (split_cons_other c x (a +:+ String c b) Ex)
        as (w' & ws' & Ea' & ->).
      rewrite IH, Ea in Ea'. simpl in Ea'. inversion Ea'; subst.
      reflexivity.
Qed.

Lemma split_no_sep c s :
  PyStr.contains_char c s = false -> PyStr.split c s = [s].
Proof.
  induction s as [|a s IH]; [reflexivity |]. simpl.
  destruct (Ascii.eqb a c); [discriminate |]. simpl. intros H.
  rewrite (IH H). reflexivity.
Qed.

(** Text without separator appended to a path extends its last piece. *)
Lemma split_app_no_sep c a b :
  PyStr.contains_char c b = false ->
  exists init w, PyStr.split c a = init ++ [w] /\
                 PyStr.split c (a +:+ b) = init ++ [w +:+ b].
Proof.
  intros Hb. induction a as [|x a IH].
  - rewrite app_nil, (split_no_sep _ _ Hb). exists [], "". split; reflexivity.
  - rewrite app_cons. destruct IH as (init & w & E1 & E2).
    destruct (Ascii.eqb x c) eqn:Ex.
    + simpl PyStr.split. rewrite Ex. exists ("" :: init), w.
      rewrite E1, E2. split; reflexivity.
    + destruct (split_cons_other c x a Ex) as (v & vs & Ea & ->).
      destruct (split_cons_other c x (a +:+ b) Ex) as (v' & vs' & Ea' & ->).
      rewrite Ea in E1. rewrite E2 in Ea'.
      destruct init as [|i init].
      * simpl in E1, Ea'. injection E1 as -> ->. injection Ea' as <- <-.
        exists [], (String x w). split; reflexivity.
      * simpl in E1, Ea'. injection E1 as -> ->. injection Ea' as <- <-.
        exists (String x i :: init), w. split; reflexivity.
Qed.

Lemma last_snoc {A} (l : list A) (x d : A) : List.last (l ++ [x]) d = x.
Proof.
  induction l as [|a l IH]; [reflexivity |].
  simpl. destruct (l ++ [x]) eqn:E; [destruct l; discriminate | exact IH].
Qed.

Lemma contains_char_app c a b :
  PyStr.contains_char c (a +:+ b)
  = PyStr.contains_char c a || PyStr.contains_char c b.
Proof.
  induction a as [|x a IH]; [reflexivity |].
  rewrite app_cons. simpl. rewrite IH, orb_assoc. reflexivity.
Qed.

Lemma split_pieces_no_sep c s :
  Forall (fun w => PyStr.contains_char c w = false) (PyStr.split c s).
Proof.
  induction s as [|a s IH]; [repeat constructor |]. simpl.
  destruct (Ascii.eqb a c) eqn:Ea; [constructor; [reflexivity | exact IH] |].
  destruct (PyStr.split c s) as [|w ws]; [repeat constructor; simpl; rewrite Ea; reflexivity |].
  inversion IH; subst. constructor; [| assumption]. simpl. rewrite Ea. assumption.
Qed.

Lemma filter_snoc_nonempty (l : list string) (x : string) :
  x <> "" ->
  filter (fun c : string => c <> "") (l ++ [x])
  = filter (fun c : string => c <> "") l ++ [x].
Proof.
  intros Hx. rewrite filter_app. f_equal.
  rewrite filter_cons_True by exact Hx. reflexivity.
Qed.

(** A path that ends with a text free of separators has one last component:
    the last piece of what precedes that text, followed by it. *)
Lemma path_components_last (z b ext : string) :
  z = "" \/ last_char z = Some "/"%char ->
  PyStr.contains_char "/" ext = false ->
  ext <> "" ->
  exists init,
    Fs.path_components (z +:+ b +:+ ext) = init ++ [last_piece b +:+ ext].
Proof.
  intros Hz Hext Hne.
  assert (PyStr.endswith (z +:+ b +:+ ext) "/" = false) as Hend.
  { apply endswith_char_false. rewrite <- app_assoc_s.
    rewrite last_char_app by exact Hne. intros Hl.
    destruct (snoc_cases ext) as [-> | (e' & c & ->)]; [congruence |].
    rewrite last_char_app in Hl by discriminate. simpl in Hl.
    inversion Hl; subst. rewrite contains_char_app in Hext. simpl in Hext.
    rewrite orb_true_r in Hext. discriminate. }
  unfold Fs.path_components. rewrite Hend, app_nil_r.
  unfold PosixPath.components, last_piece, PosixPath.sep.
  destruct (split_app_no_sep "/" b ext Hext) as (init & w & E1 & E2).
  rewrite E1, last_snoc.
  assert (w +:+ ext <> "") as Hw.
  { intros E. apply (f_equal String.length) in E. rewrite length_app in E.
    destruct ext; [congruence | simpl in E; lia]. }
  destruct Hz as [-> | Hz].
  - rewrite app_nil, E2. rewrite filter_snoc_nonempty by exact Hw. eauto.
  - destruct (snoc_cases z) as [-> | (z' & c & ->)]; [discriminate |].
    rewrite last_char_app in Hz by discriminate. simpl in Hz.
    inversion Hz; subst c. rewrite app_assoc_s, app_cons, app_nil.
    rewrite split_app_sep, E2, app_assoc.
    rewrite filter_snoc_nonempty by exact Hw. eauto.
Qed.

Lemma join2_form (y b : string) :
  exists z, PosixPath.join2 y b = z +:+ b /\
            (z = "" \/ last_char z = Some "/"%char).
Proof.
  unfold PosixPath.join2. destruct (PyStr.startswith b "/").
  - exists "". auto.
  - destruct (PyStr.eqb y "") eqn:Ey.
    + apply eqb_true in Ey. subst. exists "". auto.
    + destruct (PyStr.endswith y "/") eqn:Ee; cbn [orb].
      * apply endswith_char in Ee. exists y. auto.
      * exists (y +:+ "/"). rewrite app_assoc_s. split; [reflexivity |].
        right. apply last_char_app. discriminate.
Qed.

Lemma join_snoc (a : string) (parts : list string) (b : string) :
  PosixPath.join a (parts ++ [b]) = PosixPath.join2 (PosixPath.join a parts) b.
Proof. unfold PosixPath.join. rewrite fold_left_app. reflexivity. Qed.

Lemma walk_app t cs1 : forall cur cs2,
  Fs.walk t cur (cs1 ++ cs2)
  = match Fs.walk t cur cs1 with
    | Ok l => Fs.walk t l cs2
    | Raise e => Raise e
    end.
Proof.
  induction cs1 as [|c cs1 IH]; intros cur cs2; [reflexivity |].
  cbn [app Fs.walk]. destruct (Fs.node_at t cur) as [[|d]|]; auto.
Qed.

Lemma step_name cur h :
  h <> "." -> h <> ".." -> Fs.step cur h = h :: cur.
Proof.
  intros H1 H2. unfold Fs.step. apply eqb_false in H1, H2.
  rewrite H1, H2. reflexivity.
Qed.

Lemma walk_last t cur init h l :
  h <> "." -> h <> ".." ->
  Fs.walk t cur (init ++ [h]) = Ok l ->
  exists parent, l = h :: parent /\ Fs.walk t cur init = Ok parent
                 /\ Fs.is_dir t parent = true.
Proof.
  intros H1 H2. rewrite walk_app.
  destruct (Fs.walk t cur init) as [l1|e]; [| discriminate].
  cbn [Fs.walk]. destruct (Fs.node_at t l1) as [[|d]|] eqn:E; try discriminate.
  intros H. inversion H. rewrite step_name by assumption.
  exists l1. repeat split. apply is_dir_node. exact E.
Qed.

Lemma tagged_last cwd p init h :
  Fs.path_components p = init ++ [h] -> h <> "." -> h <> ".." ->
  tagged cwd p h.
Proof.
  intros Hp H1 H2 t l. unfold Fs.resolve.
  destruct (PyStr.eqb p ""); [discriminate |]. rewrite Hp. intros H.
  apply walk_last in H as (parent & -> & _); eauto.
Qed.

(** The last component of a joined path whose last part ends with a text
    free of separators. *)
Lemma tagged_join cwd (a : string) (parts : list string) (b ext : string) :
  PyStr.contains_char "/" ext = false -> ext <> "" ->
  last_piece b +:+ ext <> "." -> last_piece b +:+ ext <> ".." ->
  tagged cwd (PosixPath.join a (parts ++ [b +:+ ext])) (last_piece b +:+ ext).
Proof.
  intros Hext Hne H1 H2. rewrite join_snoc.
  destruct (join2_form (PosixPath.join a parts) (b +:+ ext)) as (z & -> & Hz).
  destruct (path_components_last z b ext Hz Hext Hne) as (init & Hinit).
  eapply tagged_last; eauto.
Qed.

Lemma long_not_dots (w ext : string) :
  2 < String.length ext -> w +:+ ext <> "." /\ w +:+ ext <> "..".
Proof.
  intros Hl. split; intros E; apply (f_equal String.length) in E;
    rewrite length_app in E; simpl in E; lia.
Qed.

Lemma split_last_no_sep c s :
  PyStr.contains_char c (List.last (PyStr.split c s) "") = false.
Proof.
  pose proof (split_pieces_no_sep c s) as H.
  pose proof (split_nonempty c s) as Hne.
  induction H as [|w ws Hw Hws IH]; [congruence |].
  destruct ws as [|w' ws]; [exact Hw |]. apply IH. discriminate.
Qed.

Lemma last_piece_no_sep s : PyStr.contains_char "/" (last_piece s) = false.
Proof. apply split_last_no_sep. Qed.

(** The last piece of a path that ends with a text free of separators. *)
Lemma last_piece_app (z b ext : string) :
  z = "" \/ last_char z = Some "/"%char ->
  PyStr.contains_char "/" ext = false ->
  last_piece (z +:+ b +:+ ext) = last_piece b +:+ ext.
Proof.
  intros Hz Hext. unfold last_piece.
  destruct (split_app_no_sep "/" b ext Hext) as (init & w & E1 & E2).
  rewrite E1, last_snoc.
  destruct Hz as [-> | Hz].
  - rewrite app_nil, E2. apply last_snoc.
  - destruct (snoc_cases z) as [-> | (z' & c & ->)]; [discriminate |].
    rewrite last_char_app in Hz by discriminate. simpl in Hz.
    inversion Hz; subst c. rewrite app_assoc_s, app_cons, app_nil.
    rewrite split_app_sep, E2, app_assoc. apply last_snoc.
Qed.

Lemma rfind_None c s :
  PyStr.rfind c s = None -> PyStr.contains_char c s = false.
Proof.
  induction s as [|a s IH]; [reflexivity |]. simpl.
  destruct (PyStr.rfind c s); [discriminate |].
  destruct (Ascii.eqb a c); [discriminate |]. intros _. apply IH. reflexivity.
Qed.

Lemma rfind_Some_split c s i :
  PyStr.rfind c s = Some i ->
  exists w w' ws, PyStr.split c s = w :: w' :: ws.
Proof.
  revert i. induction s as [|a s IH]; intros i; [discriminate |]. simpl.
  destruct (PyStr.rfind c s) as [j|] eqn:E.
  - destruct (IH j eq_refl) as (w & w' & ws & ->). intros _.
    destruct (Ascii.eqb a c); eauto.
  - destruct (Ascii.eqb a c); [| discriminate]. intros _.
    destruct (PyStr.split c s) as [|w ws] eqn:Es;
      [destruct (split_nonempty _ _ Es) | eauto].
Qed.

(** [os.path.basename] is the last piece. *)
Lemma basename_last_piece s : Fs.basename s = last_piece s.
Proof.
  unfold Fs.basename, last_piece, PosixPath.sep.
  induction s as [|a s IH]; [reflexivity |].
  cbn [PyStr.rfind PyStr.split].
  destruct (PyStr.rfind "/" s) as [i|] eqn:E.
  - change (PyStr.drop (S (S i)) (String a s)) with (PyStr.drop (S i) s).
    rewrite IH.
    destruct (rfind_Some_split _ _ _ E) as (w & w' & ws & ->).
    destruct (Ascii.eqb a "/"); reflexivity.
  - apply rfind_None in E. rewrite (split_no_sep _ _ E).
    destruct (Ascii.eqb a "/"); reflexivity.
Qed.

(** ** Writing files does not disturb other paths *)

Lemma walk_same_dirs t t' :
  (forall l, Fs.is_dir t' l = Fs.is_dir t l) ->
  forall cs cur l, Fs.walk t cur cs = Ok l -> Fs.walk t' cur cs = Ok l.
Proof.
  intros Hd. induction cs as [|c cs IH]; intros cur l H; [exact H |].
  cbn [Fs.walk] in H |- *.
  destruct (Fs.node_at t cur) as [[|d]|] eqn:E; try discriminate.
  apply is_dir_node in E. rewrite <- Hd in E. apply is_dir_node in E.
  rewrite E. apply IH. exact H.
Qed.

Lemma resolve_same_dirs cwd t t' p l :
  (forall l, Fs.is_dir t' l = Fs.is_dir t l) ->
  Fs.resolve cwd t p = Ok l -> Fs.resolve cwd t' p = Ok l.
Proof.
  intros Hd. unfold Fs.resolve. destruct (PyStr.eqb p ""); [discriminate |].
  apply walk_same_dirs. exact Hd.
Qed.

Lemma lookup_path_resolve cwd t p :
  lookup_path cwd t p
  = match Fs.resolve cwd t p with
    | Ok l => Fs.node_at t l
    | Raise _ => None
    end.
Proof.
  unfold lookup_path, Fs.stat. destruct (Fs.resolve cwd t p) as [l|e];
    [| reflexivity].
  destruct (Fs.node_at t l); reflexivity.
Qed.

Lemma is_dir_root t : Fs.is_dir t [] = true.
Proof. reflexivity. Qed.

(** A path that does not name the written location reads as before. *)
Lemma lookup_path_insert_other cwd t k data p :
  Fs.is_dir t k = false ->
  (forall l, Fs.resolve cwd t p = Ok l -> l <> k) ->
  lookup_path cwd (<[k := File data]> t) p = lookup_path cwd t p.
Proof.
  intros Hk Hp. rewrite !lookup_path_resolve.
  pose proof (fun l => is_dir_insert_File t k data l Hk) as Hd.
  destruct (Fs.resolve cwd t p) as [l|e] eqn:E.
  - rewrite (resolve_same_dirs cwd t _ p l Hd E).
    rewrite node_at_insert. destruct l as [|c l]; [reflexivity |].
    case_decide; [| reflexivity]. exfalso. eapply Hp; eauto.
  - destruct (Fs.resolve cwd (<[k:=File data]> t) p) as [l|e'] eqn:E';
      [| reflexivity].
    apply (resolve_same_dirs cwd _ t p l) in E'; [congruence |].
    intros x. symmetry. apply Hd.
Qed.

(** A path that names the written location reads the new file. *)
Lemma lookup_path_insert_same cwd t k data p :
  Fs.is_dir t k = false ->
  Fs.resolve cwd t p = Ok k ->
  lookup_path cwd (<[k := File data]> t) p = Some (File data).
Proof.
  intros Hk Hp. rewrite lookup_path_resolve.
  pose proof (fun l => is_dir_insert_File t k data l Hk) as Hd.
  rewrite (resolve_same_dirs cwd t _ p k Hd Hp).
  rewrite node_at_insert. destruct k as [|c k]; [discriminate Hk |].
  case_decide; congruence.
Qed.

Lemma writes_is_dir tags t t' :
  writes tags t t' -> forall l, Fs.is_dir t' l = Fs.is_dir t l.
Proof.
  induction 1 as [t | t h parent data t' Hk Hin Hw IH]; intros l;
    [reflexivity |].
  rewrite IH. apply is_dir_insert_File. exact Hk.
Qed.

Lemma writes_lookup_path cwd tags t t' p h :
  writes tags t t' -> tagged cwd p h -> ~ In h tags ->
  lookup_path cwd t' p = lookup_path cwd t p.
Proof.
  intros Hw Hp Hh.
  induction Hw as [t | t h0 parent data t' Hk Hin Hw IH]; [reflexivity |].
  rewrite IH. apply lookup_path_insert_other; [exact Hk |].
  intros l Hl E. subst l. apply Hp in Hl as (parent' & Hl).
  inversion Hl; subst. contradiction.
Qed.

Lemma writes_frame tags t t' l :
  writes tags t t' ->
  (forall h parent, l = h :: parent -> ~ In h tags) ->
  t' !! l = t !! l.
Proof.
  intros Hw Hl.
  induction Hw as [t | t h parent data t' Hk Hin Hw IH]; [reflexivity |].
  rewrite IH. apply lookup_insert_ne. intros E. eapply Hl; eauto.
Qed.

Lemma writes_weaken tags tags' t t' :
  (forall h, In h tags -> In h tags') -> writes tags t t' -> writes tags' t t'.
Proof.
  intros Hi Hw.
  induction Hw as [t | t h parent data t' Hk Hin Hw IH]; [constructor |].
  eapply writes_step; eauto.
Qed.

(** ** What one copy does *)

Lemma copy_target_isdir cwd t src dst :
  copy_target cwd t src dst
  = if match Fs.stat cwd t dst with Ok Dir => true | _ => false end
    then PosixPath.join dst [Fs.basename src] else dst.
Proof.
  unfold copy_target, lookup_path.
  destruct (Fs.stat cwd t dst) as [[|d]|]; reflexivity.
Qed.

Lemma copy_inv cwd src dst t r t' :
  Fs.copy cwd src dst t = (r, t') ->
  (exists data k,
     r = Ok tt /\ lookup_path cwd t src = Some (File data) /\
     Fs.resolve cwd t (copy_target cwd t src dst) = Ok k /\
     Fs.is_dir t k = false /\ t' = <[k := File data]> t)
  \/ (exists e, r = Raise e /\ t' = t).
Proof.
  unfold Fs.copy, bind at 1, Fs.isdir. rewrite <- copy_target_isdir.
  generalize (copy_target cwd t src dst). intros target.
  unfold Fs.copyfile, bind at 1, Fs.samefile.
  match goal with |- context [if ?b then _ else _] => destruct b end.
  { intros H. inversion H. right. eauto. }
  unfold bind at 1, Fs.read_file. unfold lookup_path.
  destruct (Fs.stat cwd t src) as [[|data]|e].
  - intros H. inversion H. right. eauto.
  - intros H.
    apply open_write_inv in H as [(k & -> & Hres & Hd & _ & ->) | (e & -> & ->)].
    + left. exists data, k. auto.
    + right. eauto.
  - intros H. inversion H. right. eauto.
Qed.

Lemma try_copy_inv cwd src dst t r t' :
  _try_copy cwd src dst t = (r, t') ->
  (lookup_path cwd t src = None /\ r = Ok tt /\ t' = t)
  \/ (lookup_path cwd t src <> None /\ Fs.copy cwd src dst t = (r, t')).
Proof.
  unfold _try_copy, bind at 1, Fs.exists_, lookup_path.
  destruct (Fs.stat cwd t src) as [n|e].
  - intros H. right. split; [discriminate | exact H].
  - intros H. inversion H. left. auto.
Qed.

(** One attempt writes at most one file, at a location that ends with the
    item's component. *)
Lemma try_copy_writes cwd src dst h t r t' :
  item_ok cwd (src, dst, h) ->
  _try_copy cwd src dst t = (r, t') -> writes [h] t t'.
Proof.
  intros (Hs & Hd & Hj) H.
  apply try_copy_inv in H as [(_ & _ & ->) | (_ & H)]; [constructor |].
  apply copy_inv in H as [(data & k & _ & _ & Hres & Hk & ->) | (e & _ & ->)];
    [| constructor].
  assert (exists parent, k = h :: parent) as (parent & ->).
  { unfold copy_target in Hres.
    destruct (lookup_path cwd t dst) as [[|d]|]; eauto. }
  eapply writes_step; [exact Hk | left; reflexivity | constructor].
Qed.

(** ** A run of copy attempts *)

Lemma copy_all_cons cwd src dst h items t :
  copy_all cwd ((src, dst, h) :: items) t
  = bind (_try_copy cwd src dst) (fun _ => copy_all cwd items) t.
Proof. reflexivity. Qed.

Lemma copy_all_writes cwd items : forall t r t',
  Forall (item_ok cwd) items ->
  copy_all cwd items t = (r, t') -> writes (map item_tag items) t t'.
Proof.
  induction items as [|[[src dst] h] items IH]; intros t r t' Hok H.
  - inversion H. constructor.
  - inversion Hok as [|? ? Hi Hrest]; subst. rewrite copy_all_cons in H.
    unfold bind in H.
    destruct (_try_copy cwd src dst t) as [[[]|e] ta] eqn:E.
    + apply (try_copy_writes _ _ _ h) in E; [| exact Hi].
      apply IH in H; [| exact Hrest].
      clear -E H. cbn [map item_tag snd].
      induction E as [t | t h0 parent data ta Hk Hin Hw IHw].
      * eapply writes_weaken; [| exact H]. intros x Hx. right. exact Hx.
      * eapply writes_step; [exact Hk | | apply IHw; exact H].
        destruct Hin as [<- | []]. left. reflexivity.
    + inversion H; subst.
      apply (try_copy_writes _ _ _ h) in E; [| exact Hi].
      eapply writes_weaken; [| exact E]. intros x [<- | []]. left. reflexivity.
Qed.

Lemma copy_target_writes cwd tags t t' src dst h :
  writes tags t t' -> tagged cwd dst h -> ~ In h tags ->
  copy_target cwd t' src dst = copy_target cwd t src dst.
Proof.
  intros Hw Hd Hh. unfold copy_target.
  rewrite (writes_lookup_path cwd tags t t' dst h Hw Hd Hh). reflexivity.
Qed.

Lemma copy_target_tagged cwd t src dst h :
  item_ok cwd (src, dst, h) -> tagged cwd (copy_target cwd t src dst) h.
Proof.
  intros (Hs & Hd & Hj). unfold copy_target.
  destruct (lookup_path cwd t dst) as [[|d]|]; assumption.
Qed.

(** The outcome of every attempt of a run that completes, read in the file
    system before and after the run: an absent source leaves its destination
    as it was; a present source is a regular file and its content is what
    the copy target holds. *)
Lemma copy_all_Ok cwd items : forall t t',
  NoDup (map item_tag items) ->
  Forall (item_ok cwd) items ->
  copy_all cwd items t = (Ok tt, t') ->
  forall src dst h, In (src, dst, h) items ->
    (lookup_path cwd t src = None ->
     lookup_path cwd t' dst = lookup_path cwd t dst) /\
    (lookup_path cwd t src <> None ->
     exists data,
       lookup_path cwd t src = Some (File data) /\
       lookup_path cwd t' (copy_target cwd t src dst) = Some (File data)).
Proof.
  induction items as [|[[s0 d0] h0] items IH]; intros t t' Hnd Hok H src dst h Hin;
    [destruct Hin |].
  inversion Hok as [|? ? Hi Hrest]; subst.
  cbn [map item_tag snd] in Hnd. inversion Hnd as [|? ? Hh0 Hnd']; subst.
  rewrite list_elem_of_In in Hh0.
  rewrite copy_all_cons in H. apply bind_Ok_inv in H as ([] & ta & E & H).
  pose proof (copy_all_writes _ _ _ _ _ Hrest H) as Hw.
  pose proof (try_copy_writes _ _ _ _ _ _ _ Hi E) as Hw0.
  destruct Hin as [Hin | Hin].
  - inversion Hin; subst s0 d0 h0. clear Hin.
    destruct Hi as (Hs & Hd & Hj). split.
    + intros Hnone.
      apply try_copy_inv in E as [(_ & _ & ->) | (Hsome & _)]; [| contradiction].
      exact (writes_lookup_path cwd _ _ _ _ h Hw Hd Hh0).
    + intros Hsome.
      apply try_copy_inv in E as [(Hnone & _) | (_ & E)]; [contradiction |].
      apply copy_inv in E as [(data & k & _ & Hsrc & Hres & Hk & ->) | (e & He & _)];
        [| discriminate].
      exists data. split; [exact Hsrc |].
      rewrite (writes_lookup_path cwd _ _ _ _ h Hw).
      * apply lookup_path_insert_same; assumption.
      * apply copy_target_tagged. repeat split; assumption.
      * exact Hh0.
  - assert (h <> h0) as Hne.
    { intros ->. apply Hh0. apply (in_map item_tag) in Hin. exact Hin. }
    assert (~ In h [h0]) as Hne' by (intros [-> | []]; congruence).
    pose proof Hrest as Hrest'. rewrite Forall_forall in Hrest'.
    destruct (Hrest' _ (proj2 (list_elem_of_In _ _) Hin)) as (Hs & Hd & Hj).
    destruct (IH _ _ Hnd' Hrest H _ _ _ Hin) as [IH1 IH2].
    rewrite (writes_lookup_path cwd _ _ _ src h Hw0 Hs Hne') in IH1, IH2.
    rewrite (writes_lookup_path cwd _ _ _ dst h Hw0 Hd Hne') in IH1.
    rewrite (copy_target_writes cwd _ _ _ src dst h Hw0 Hd Hne') in IH2.
    split; assumption.
Qed.

(** A run fails only at a source that is present. *)
Lemma copy_all_Raise cwd items : forall t e t',
  NoDup (map item_tag items) ->
  Forall (item_ok cwd) items ->
  copy_all cwd items t = (Raise e, t') ->
  exists src dst h, In (src, dst, h) items /\ lookup_path cwd t src <> None.
Proof.
  induction items as [|[[s0 d0] h0] items IH]; intros t e t' Hnd Hok H;
    [discriminate H |].
  inversion Hok as [|? ? Hi Hrest]; subst.
  cbn [map item_tag snd] in Hnd. inversion Hnd as [|? ? Hh0 Hnd']; subst.
  rewrite list_elem_of_In in Hh0.
  rewrite copy_all_cons in H.
  apply bind_Raise_inv in H as [E | ([] & ta & E & H)].
  - apply try_copy_inv in E as [(_ & He & _) | (Hsome & _)]; [discriminate |].
    exists s0, d0, h0. split; [left; reflexivity | exact Hsome].
  - pose proof (try_copy_writes _ _ _ _ _ _ _ Hi E) as Hw0.
    destruct (IH _ _ _ Hnd' Hrest H) as (src & dst & h & Hin & Hsome).
    exists src, dst, h. split; [right; exact Hin |].
    assert (~ In h [h0]) as Hne'.
    { intros [-> | []]. apply Hh0. apply (in_map item_tag) in Hin. exact Hin. }
    rewrite Forall_forall in Hrest.
    destruct (Hrest _ (proj2 (list_elem_of_In _ _) Hin)) as (Hs & _).
    rewrite (writes_lookup_path cwd _ _ _ src h Hw0 Hs Hne') in Hsome.
    exact Hsome.
Qed.

(** A run without a present source does nothing. *)
Lemma copy_all_absent cwd items : forall t,
  (forall src dst h, In (src, dst, h) items -> lookup_path cwd t src = None) ->
  copy_all cwd items t = (Ok tt, t).
Proof.
  induction items as [|[[s0 d0] h0] items IH]; intros t Habs; [reflexivity |].
  rewrite copy_all_cons.
  assert (_try_copy cwd s0 d0 t = (Ok tt, t)) as E.
  { unfold _try_copy, bind, Fs.exists_.
    specialize (Habs s0 d0 h0 (or_introl eq_refl)). unfold lookup_path in Habs.
    destruct (Fs.stat cwd t s0); [discriminate | reflexivity]. }
  rewrite (bind_Ok_step _ _ _ _ _ E). apply IH.
  intros src dst h Hin. eapply Habs. right. exact Hin.
Qed.

Lemma resolve_node_not_dir cwd t p k :
  Fs.resolve cwd t p = Ok k -> Fs.is_dir t k = false ->
  lookup_path cwd t p <> Some Dir.
Proof.
  intros Hres Hk. rewrite lookup_path_resolve, Hres. intros E.
  apply is_dir_node in E. congruence.
Qed.

(** An attempt that is ready completes. *)
Lemma try_copy_ready cwd src dst h t :
  item_ready cwd t (src, dst, h) ->
  exists t', _try_copy cwd src dst t = (Ok tt, t').
Proof.
  intros ([Hsrc | (data & Hsrc)] & k & Hres & Hparent & Hk & Hne).
  - exists t. unfold _try_copy, bind, Fs.exists_. unfold lookup_path in Hsrc.
    destruct (Fs.stat cwd t src); [discriminate | reflexivity].
  - pose proof (resolve_node_not_dir _ _ _ _ Hres Hk) as Hnd.
    unfold lookup_path in Hsrc, Hnd. unfold _try_copy, bind at 1, Fs.exists_.
    destruct (Fs.stat cwd t src) as [n|] eqn:Es; [| discriminate].
    inversion Hsrc; subst n.
    unfold Fs.copy, bind at 1, Fs.isdir.
    assert (match Fs.stat cwd t dst with Ok Dir => true | _ => false end = false)
      as ->.
    { destruct (Fs.stat cwd t dst) as [[|d]|]; [congruence | reflexivity ..]. }
    unfold Fs.copyfile, bind at 1, Fs.samefile. rewrite Hres.
    assert (exists la, Fs.resolve cwd t src = Ok la) as (la & Hla).
    { unfold Fs.stat in Es. destruct (Fs.resolve cwd t src); [eauto | discriminate]. }
    rewrite Hla. rewrite bool_decide_eq_false_2 by congruence. cbn [andb].
    unfold bind at 1, Fs.read_file. rewrite Es.
    unfold bind, Fs.open_w. rewrite Hres.
    assert (Fs.node_at t k <> Some Dir) as Hn
      by (intros E; apply is_dir_node in E; congruence).
    rewrite Hparent.
    destruct (Fs.node_at t k) as [[|d]|]; [congruence | |];
      unfold Fs.write; rewrite lookup_insert_eq; eauto.
Qed.

Lemma resolve_writes cwd tags t t' p l :
  writes tags t t' ->
  Fs.resolve cwd t' p = Ok l <-> Fs.resolve cwd t p = Ok l.
Proof.
  intros Hw. pose proof (writes_is_dir _ _ _ Hw) as Hd. split.
  - apply resolve_same_dirs. intros x. symmetry. apply Hd.
  - apply resolve_same_dirs. exact Hd.
Qed.

Lemma item_ready_writes cwd tags t t' src dst h :
  writes tags t t' -> item_ok cwd (src, dst, h) -> ~ In h tags ->
  item_ready cwd t (src, dst, h) -> item_ready cwd t' (src, dst, h).
Proof.
  intros Hw (Hs & Hd & _) Hh (Hsrc & k & Hres & Hparent & Hk & Hne).
  split.
  - rewrite (writes_lookup_path cwd tags t t' src h Hw Hs Hh). exact Hsrc.
  - exists k. rewrite !(writes_is_dir _ _ _ Hw).
    rewrite !(resolve_writes cwd tags t t' _ _ Hw). auto.
Qed.

(** A run whose attempts are all ready completes. *)
Lemma copy_all_ready cwd items : forall t,
  NoDup (map item_tag items) ->
  Forall (item_ok cwd) items ->
  Forall (item_ready cwd t) items ->
  exists t', copy_all cwd items t = (Ok tt, t').
Proof.
  induction items as [|[[s0 d0] h0] items IH]; intros t Hnd Hok Hready;
    [exists t; reflexivity |].
  inversion Hok as [|? ? Hi Hrest]; subst.
  inversion Hready as [|? ? Hr Hrs]; subst.
  cbn [map item_tag snd] in Hnd. inversion Hnd as [|? ? Hh0 Hnd']; subst.
  rewrite list_elem_of_In in Hh0.
  destruct (try_copy_ready _ _ _ _ _ Hr) as (ta & E).
  pose proof (try_copy_writes _ _ _ _ _ _ _ Hi E) as Hw0.
  rewrite copy_all_cons, (bind_Ok_step _ _ _ _ _ E).
  apply IH; [exact Hnd' | exact Hrest |].
  rewrite Forall_forall in Hrest, Hrs. apply Forall_forall.
  intros [[src dst] h] Hin.
  apply (item_ready_writes cwd [h0] t ta); [exact Hw0 | auto | | auto].
  intros [-> | []]. apply Hh0.
  apply list_elem_of_In in Hin. apply (in_map item_tag) in Hin. exact Hin.
Qed.

(** ** C6: the data files *)

Lemma copy_data_files_items cwd primary session base :
  copy_data_files cwd primary session base
  = copy_all cwd (data_items primary session base).
Proof. reflexivity. Qed.

Lemma last_piece_empty : last_piece "" = "".
Proof. reflexivity. Qed.

(** A source, its destination, and the destination inside a directory of
    that name all end with the last piece of the base followed by the
    extension. *)
Lemma data_item_ok cwd primary session src_subdir dest_subdir base ext :
  PyStr.contains_char "/" ext = false ->
  2 < String.length ext ->
  item_ok cwd
    (PosixPath.join primary [src_subdir; base +:+ ext],
     PosixPath.join session [dest_subdir; base +:+ ext],
     last_piece base +:+ ext).
Proof.
  intros Hext Hlen.
  assert (ext <> "") as Hne by (destruct ext; [simpl in Hlen; lia | discriminate]).
  destruct (long_not_dots (last_piece base) ext Hlen) as [H1 H2].
  split; [| split].
  - apply (tagged_join cwd primary [src_subdir]); assumption.
  - apply (tagged_join cwd session [dest_subdir]); assumption.
  - rewrite basename_last_piece.
    change [src_subdir; base +:+ ext] with ([src_subdir] ++ [base +:+ ext]).
    rewrite join_snoc.
    destruct (join2_form (PosixPath.join primary [src_subdir]) (base +:+ ext))
      as (z & -> & Hz).
    rewrite (last_piece_app z base ext Hz Hext).
    pose proof (tagged_join cwd (PosixPath.join session [dest_subdir; base +:+ ext])
                  [] "" (last_piece base +:+ ext)) as Ht.
    rewrite last_piece_empty, !app_nil in Ht. apply Ht; try assumption.
    + rewrite contains_char_app, last_piece_no_sep, Hext. reflexivity.
    + intros E. apply (f_equal String.length) in E. rewrite length_app in E.
      simpl in E. lia.
Qed.

Lemma data_items_ok cwd primary session base :
  Forall (item_ok cwd) (data_items primary session base).
Proof.
  unfold data_items, file_map. cbn [map].
  repeat (constructor; [apply data_item_ok; [reflexivity | simpl; lia] |]).
  constructor.
Qed.

Lemma data_items_tags base :
  NoDup (map item_tag (data_items "" "" base)) /\
  forall primary session,
    map item_tag (data_items primary session base)
    = map (fun ext => last_piece base +:+ ext) [".mat"; ".csv"; ".dcm"; ".h5"].
Proof.
  split; [| reflexivity].
  change (map item_tag (data_items "" "" base))
    with ((fun ext => last_piece base +:+ ext) <$> [".mat"; ".csv"; ".dcm"; ".h5"]).
  apply NoDup_fmap_2; [apply String.app_inj |].
  repeat (apply NoDup_cons; split;
          [rewrite ?elem_of_cons, elem_of_nil; intuition discriminate |]).
  apply NoDup_nil. exact I.
Qed.

Lemma data_items_NoDup primary session base :
  NoDup (map item_tag (data_items primary session base)).
Proof.
  destruct (data_items_tags base) as [H E]. rewrite E. rewrite E in H. exact H.
Qed.

Lemma data_items_In primary session base ext src_subdir dest_subdir :
  In (ext, (src_subdir, dest_subdir)) file_map ->
  In (PosixPath.join primary [src_subdir; base +:+ ext],
      PosixPath.join session [dest_subdir; base +:+ ext],
      last_piece base +:+ ext)
     (data_items primary session base).
Proof.
  intros H. unfold data_items.
  apply (in_map (fun m => let '(ext, (src_subdir, dest_subdir)) := m in
                          (PosixPath.join primary [src_subdir; base +:+ ext],
                           PosixPath.join session [dest_subdir; base +:+ ext],
                           last_piece base +:+ ext))) in H.
  exact H.
Qed.

Lemma data_items_In_inv primary session base src dst h :
  In (src, dst, h) (data_items primary session base) ->
  exists ext src_subdir dest_subdir,
    In (ext, (src_subdir, dest_subdir)) file_map /\
    src = PosixPath.join primary [src_subdir; base +:+ ext] /\
    dst = PosixPath.join session [dest_subdir; base +:+ ext].
Proof.
  unfold data_items. rewrite in_map_iff.
  intros ([ext [ss ds]] & E & Hin). inversion E; subst.
  exists ext, ss, ds. auto.
Qed.

(** C6. The loop over the four extension mappings, from any file system
    [t].  When it completes: a mapping whose source is absent leaves its
    destination exactly as it was, and a mapping whose source is present had
    a regular file for source, whose content the destination now holds (the
    destination itself, or the entry of the same name inside it when it was
    a directory).  Absent sources never fail: with every source absent the
    loop completes and changes nothing, and a loop that raises has a source
    that is present.  And the loop does complete when every source is absent
    or a regular file and every destination is a name in an existing
    directory that is neither a directory nor the source itself. *)
Theorem C6_selective_copy cwd primary session base t :
  (forall t',
     copy_data_files cwd primary session base t = (Ok tt, t') ->
     forall ext src_subdir dest_subdir,
       In (ext, (src_subdir, dest_subdir)) file_map ->
       let src := PosixPath.join primary [src_subdir; base +:+ ext] in
       let dst := PosixPath.join session [dest_subdir; base +:+ ext] in
       (lookup_path cwd t src = None ->
        lookup_path cwd t' dst = lookup_path cwd t dst) /\
       (lookup_path cwd t src <> None ->
        exists data,
          lookup_path cwd t src = Some (File data) /\
          lookup_path cwd t' (copy_target cwd t src dst) = Some (File data) /\
          (lookup_path cwd t dst <> Some Dir ->
           lookup_path cwd t' dst = Some (File data)))) /\
  ((forall ext src_subdir dest_subdir,
      In (ext, (src_subdir, dest_subdir)) file_map ->
      lookup_path cwd t (PosixPath.join primary [src_subdir; base +:+ ext])
      = None) ->
   copy_data_files cwd primary session base t = (Ok tt, t)) /\
  (forall e t',
     copy_data_files cwd primary session base t = (Raise e, t') ->
     exists ext src_subdir dest_subdir,
       In (ext, (src_subdir, dest_subdir)) file_map /\
       lookup_path cwd t (PosixPath.join primary [src_subdir; base +:+ ext])
       <> None) /\
  ((forall ext src_subdir dest_subdir,
      In (ext, (src_subdir, dest_subdir)) file_map ->
      let src := PosixPath.join primary [src_subdir; base +:+ ext] in
      let dst := PosixPath.join session [dest_subdir; base +:+ ext] in
      (lookup_path cwd t src = None
       \/ exists data, lookup_path cwd t src = Some (File data)) /\
      exists k, Fs.resolve cwd t dst = Ok k /\ Fs.is_dir t (tail k) = true
                /\ Fs.is_dir t k = false /\ Fs.resolve cwd t src <> Ok k) ->
   exists t', copy_data_files cwd primary session base t = (Ok tt, t')).
Proof.
  rewrite copy_data_files_items. split; [| split; [| split]].
  - intros t' H ext ss ds Hin src dst.
    destruct (copy_all_Ok cwd _ _ _ (data_items_NoDup primary session base)
                (data_items_ok cwd primary session base) H src dst _
                (data_items_In primary session base _ _ _ Hin)) as [H1 H2].
    split; [exact H1 |]. intros Hsome.
    destruct (H2 Hsome) as (data & Hsrc & Hdst). exists data.
    split; [exact Hsrc |]. split; [exact Hdst |].
    intros Hnd. unfold copy_target in Hdst.
    destruct (lookup_path cwd t dst) as [[|d]|]; [congruence | exact Hdst ..].
  - intros Habs. apply copy_all_absent. intros src dst h Hin.
    apply data_items_In_inv in Hin as (ext & ss & ds & Hin & -> & _).
    eapply Habs. exact Hin.
  - intros e t' H.
    destruct (copy_all_Raise cwd _ _ _ _ (data_items_NoDup primary session base)
                (data_items_ok cwd primary session base) H)
      as (src & dst & h & Hin & Hsome).
    apply data_items_In_inv in Hin as (ext & ss & ds & Hin & -> & _).
    exists ext, ss, ds. auto.
  - intros Hready.
    apply (copy_all_ready cwd _ _ (data_items_NoDup primary session base)
             (data_items_ok cwd primary session base)).
    apply Forall_forall. intros [[src dst] h] Hin.
    apply list_elem_of_In, data_items_In_inv in Hin
      as (ext & ss & ds & Hin & -> & ->).
    exact (Hready ext ss ds Hin).
Qed.

(** ** Directory listings *)

Lemma entries_In t P n :
  In n (Fs.entries t P) <-> is_Some (t !! (n :: P)).
Proof.
  unfold Fs.entries. rewrite <- list_elem_of_In, list_elem_of_omap.
  change (map fst (map_to_list t)) with ((map_to_list t).*1).
  split.
  - intros (k & Hk & Hf). destruct k as [|c l']; [discriminate |].
    case_bool_decide; [| discriminate]. inversion Hf; subst.
    apply list_elem_of_fmap in Hk as ([k v] & E & Hkv). simpl in E. subst k.
    apply elem_of_map_to_list in Hkv. eauto.
  - intros [v Hv]. exists (n :: P). split.
    + apply list_elem_of_fmap. exists (n :: P, v). split; [reflexivity |].
      apply elem_of_map_to_list. exact Hv.
    + rewrite bool_decide_eq_true_2 by reflexivity. reflexivity.
Qed.

Lemma NoDup_omap_inj {A B} (f : A -> option B) (l : list A) :
  (forall x y z, f x = Some z -> f y = Some z -> x = y) ->
  NoDup l -> NoDup (omap f l).
Proof.
  intros Hinj. induction 1 as [|x l Hx Hl IH]; [constructor |].
  simpl. destruct (f x) as [z|] eqn:E; [| exact IH].
  constructor; [| exact IH]. rewrite list_elem_of_omap.
  intros (y & Hy & Hfy). rewrite (Hinj x y z E Hfy) in Hx. contradiction.
Qed.

Lemma entries_NoDup t P : NoDup (Fs.entries t P).
Proof.
  unfold Fs.entries. apply NoDup_omap_inj.
  - intros [|c l] [|c' l'] z; try discriminate.
    repeat case_bool_decide; try discriminate. intros H1 H2.
    inversion H1; inversion H2; subst. reflexivity.
  - apply NoDup_fst_map_to_list.
Qed.

Lemma filter_NoDup (f : string -> bool) (l : list string) :
  NoDup l -> NoDup (List.filter f l).
Proof.
  induction 1 as [|x l Hx Hl IH]; [constructor |]. simpl.
  destruct (f x); [| exact IH]. constructor; [| exact IH].
  rewrite list_elem_of_In, filter_In. intros [Hin _].
  apply Hx. apply list_elem_of_In. exact Hin.
Qed.

(** ** Names under a directory *)

Lemma valid_name_inv n :
  valid_name n = true ->
  n <> "" /\ n <> "." /\ n <> ".." /\ PyStr.contains_char "/" n = false.
Proof.
  unfold valid_name. rewrite !andb_true_iff, !negb_true_iff, !eqb_false.
  tauto.
Qed.

Lemma name_not_abs n :
  PyStr.contains_char "/" n = false -> PyStr.startswith n "/" = false.
Proof.
  intros H. destruct (PyStr.startswith n "/") eqn:E; [| reflexivity].
  apply startswith_char in E as [s' ->]. simpl in H. discriminate.
Qed.

Lemma name_last_char n :
  PyStr.contains_char "/" n = false -> last_char n <> Some "/"%char.
Proof.
  intros H E. destruct (snoc_cases n) as [-> | (n' & c & ->)]; [discriminate |].
  rewrite last_char_app in E by discriminate. simpl in E. inversion E; subst.
  rewrite contains_char_app in H. simpl in H. rewrite orb_true_r in H.
  discriminate.
Qed.

Lemma join_name dir n :
  dir <> "" -> last_char dir <> Some "/"%char ->
  PyStr.contains_char "/" n = false ->
  PosixPath.join dir [n] = dir +:+ "/" +:+ n.
Proof.
  intros Hd Hl Hn. unfold PosixPath.join. cbn [fold_left].
  apply join2_relative; auto using name_not_abs.
Qed.

Lemma path_components_join_name dir n :
  dir <> "" -> last_char dir <> Some "/"%char -> valid_name n = true ->
  Fs.path_components (dir +:+ "/" +:+ n) = Fs.path_components dir ++ [n].
Proof.
  intros Hd Hl Hn. apply valid_name_inv in Hn as (Hne & _ & _ & Hsep).
  unfold Fs.path_components.
  apply endswith_char_false in Hl. rewrite Hl, app_nil_r.
  assert (PyStr.endswith (dir +:+ "/" +:+ n) "/" = false) as ->.
  { apply endswith_char_false. rewrite <- app_assoc_s.
    rewrite last_char_app by exact Hne. apply name_last_char. exact Hsep. }
  rewrite app_nil_r. unfold PosixPath.components, PosixPath.sep.
  change ("/" +:+ n) with (String "/" n).
  rewrite split_app_sep, (split_no_sep _ _ Hsep).
  apply filter_snoc_nonempty. exact Hne.
Qed.

Lemma start_app cwd dir rest :
  dir <> "" -> Fs.start cwd (dir +:+ rest) = Fs.start cwd dir.
Proof.
  intros Hd. unfold Fs.start, PosixPath.isabs.
  destruct dir as [|c dir]; [congruence |]. rewrite app_cons.
  destruct (ascii_dec c "/") as [-> | Hne].
  - rewrite !(proj2 (startswith_char _ _)) by eauto. reflexivity.
  - assert (forall s, PyStr.startswith (String c s) "/" = false) as E.
    { intros s. destruct (PyStr.startswith (String c s) "/") eqn:E;
        [| reflexivity].
      apply startswith_char in E as [s' E]. inversion E. congruence. }
    rewrite !E. reflexivity.
Qed.

(** The entry [n] of the directory a path names. *)
Lemma resolve_join_name cwd t dir n P :
  dir <> "" -> last_char dir <> Some "/"%char -> valid_name n = true ->
  Fs.resolve cwd t dir = Ok P -> Fs.is_dir t P = true ->
  Fs.resolve cwd t (PosixPath.join dir [n]) = Ok (n :: P).
Proof.
  intros Hd Hl Hn Hres HP.
  pose proof (valid_name_inv n Hn) as (Hne & Hd1 & Hd2 & Hsep).
  rewrite join_name by assumption. unfold Fs.resolve in *.
  apply eqb_false in Hd. rewrite Hd in Hres. apply eqb_false in Hd.
  assert (PyStr.eqb (dir +:+ "/" +:+ n) "" = false) as ->.
  { apply eqb_false. destruct dir; [congruence | discriminate]. }
  rewrite start_app by exact Hd.
  rewrite path_components_join_name by assumption.
  rewrite walk_app, Hres. cbn [Fs.walk]. apply is_dir_node in HP.
  rewrite HP, step_name by assumption. reflexivity.
Qed.

Lemma seq_dir_shape a :
  PosixPath.join a ["seq"] <> "" /\
  last_char (PosixPath.join a ["seq"]) <> Some "/"%char.
Proof.
  change ["seq"] with ([] ++ ["seq"]). rewrite join_snoc.
  destruct (join2_form (PosixPath.join a []) "seq") as (z & -> & _).
  split.
  - intros E. apply (f_equal String.length) in E. rewrite length_app in E.
    simpl in E. lia.
  - rewrite last_char_app by discriminate. discriminate.
Qed.

(** A source and a destination that are the entry [n] of two directories. *)
Lemma name_item_ok cwd a b n :
  valid_name n = true ->
  item_ok cwd (PosixPath.join a [n], PosixPath.join b [n], n).
Proof.
  intros Hn. apply valid_name_inv in Hn as (Hne & Hd1 & Hd2 & Hsep).
  assert (forall x, tagged cwd (PosixPath.join x [n]) n) as Ht.
  { intros x. pose proof (tagged_join cwd x [] "" n) as Ht.
    rewrite last_piece_empty, !app_nil in Ht. apply Ht; assumption. }
  split; [apply Ht | split; [apply Ht |]].
  rewrite basename_last_piece.
  change [n] with ([] ++ [n]) at 2. rewrite join_snoc.
  destruct (join2_form (PosixPath.join a []) n) as (z & -> & Hz).
  pose proof (last_piece_app z "" n Hz Hsep) as E.
  rewrite app_nil, last_piece_empty, app_nil in E. rewrite E. apply Ht.
Qed.

(** ** C7: the sequence files *)

Lemma seq_loop_items cwd primary session base names : forall t,
  for_each names
    (fun seq_file =>
       if PyStr.startswith seq_file base && PyStr.endswith seq_file ".seq"
       then _try_copy cwd
              (PosixPath.join (PosixPath.join primary ["seq"]) [seq_file])
              (PosixPath.join (PosixPath.join session ["seq"]) [seq_file])
       else ret tt) t
  = copy_all cwd (seq_items primary session base names) t.
Proof.
  induction names as [|n names IH]; intros t; [reflexivity |].
  unfold seq_items. cbn [for_each List.filter]. unfold seq_match at 1.
  destruct (PyStr.startswith n base && PyStr.endswith n ".seq").
  - cbn [map]. rewrite copy_all_cons. unfold bind.
    destruct (_try_copy cwd _ _ t) as [[[]|e] ta]; [apply IH | reflexivity].
  - unfold bind, ret. apply IH.
Qed.

Lemma seq_items_tags primary session base names :
  map item_tag (seq_items primary session base names)
  = List.filter (seq_match base) names.
Proof.
  unfold seq_items. rewrite map_map. cbn [item_tag snd]. apply map_id.
Qed.

Lemma seq_items_ok cwd primary session base names :
  Forall (fun n => valid_name n = true) names ->
  Forall (item_ok cwd) (seq_items primary session base names).
Proof.
  intros Hv. unfold seq_items. induction Hv as [|n names Hn Hv IH];
    [constructor |].
  cbn [List.filter]. destruct (seq_match base n); [| exact IH].
  cbn [map]. constructor; [| exact IH]. apply name_item_ok. exact Hn.
Qed.

Lemma copy_seq_files_absent cwd primary session base t :
  lookup_path cwd t (PosixPath.join primary ["seq"]) = None ->
  copy_seq_files cwd primary session base t = (Ok tt, t).
Proof.
  intros H. unfold copy_seq_files, bind at 1, Fs.exists_.
  unfold lookup_path in H.
  destruct (Fs.stat cwd t (PosixPath.join primary ["seq"]));
    [discriminate | reflexivity].
Qed.

Lemma copy_seq_files_listed cwd primary session base t P :
  Fs.resolve cwd t (PosixPath.join primary ["seq"]) = Ok P ->
  Fs.is_dir t P = true ->
  copy_seq_files cwd primary session base t
  = copy_all cwd (seq_items primary session base (Fs.entries t P)) t.
Proof.
  intros Hres HP. apply is_dir_node in HP.
  unfold copy_seq_files, bind at 1, Fs.exists_, Fs.stat.
  rewrite Hres, HP. unfold bind at 1, Fs.listdir. rewrite Hres, HP.
  apply seq_loop_items.
Qed.

(** C7. The loop over the entries of the [seq] directory of the acquisition,
    from any file system [t].  When that directory is absent the step
    completes and changes nothing.  When it is a directory whose entries
    have valid names: with no entry whose name starts with the base and ends
    with [.seq] the step completes and changes nothing; and when the step
    completes, every such entry was a regular file whose content the
    destination [seq] directory now holds under the same name, every other
    entry has its destination unchanged, and only files named like such
    entries were written at all. *)
Theorem C7_sequence_files cwd primary session base t :
  let primary_seq_dir := PosixPath.join primary ["seq"] in
  let dest_seq_dir := PosixPath.join session ["seq"] in
  (lookup_path cwd t primary_seq_dir = None ->
   copy_seq_files cwd primary session base t = (Ok tt, t)) /\
  (forall P,
     Fs.resolve cwd t primary_seq_dir = Ok P ->
     Fs.is_dir t P = true ->
     Forall (fun n => valid_name n = true) (Fs.entries t P) ->
     (List.filter (seq_match base) (Fs.entries t P) = [] ->
      copy_seq_files cwd primary session base t = (Ok tt, t)) /\
     (forall t',
        copy_seq_files cwd primary session base t = (Ok tt, t') ->
        (forall n, In n (Fs.entries t P) ->
           let src := PosixPath.join primary_seq_dir [n] in
           let dst := PosixPath.join dest_seq_dir [n] in
           if seq_match base n
           then exists data,
                  t !! (n :: P) = Some (File data) /\
                  lookup_path cwd t' (copy_target cwd t src dst)
                  = Some (File data) /\
                  (lookup_path cwd t dst <> Some Dir ->
                   lookup_path cwd t' dst = Some (File data))
           else lookup_path cwd t' dst = lookup_path cwd t dst) /\
        writes (List.filter (seq_match base) (Fs.entries t P)) t t') /\
     (forall D,
        Fs.resolve cwd t dest_seq_dir = Ok D ->
        Fs.is_dir t D = true ->
        D <> P ->
        (forall n, In n (Fs.entries t P) -> seq_match base n = true ->
           (exists data, t !! (n :: P) = Some (File data)) /\
           Fs.is_dir t (n :: D) = false) ->
        exists t', copy_seq_files cwd primary session base t = (Ok tt, t'))).
Proof.
  intros primary_seq_dir dest_seq_dir. subst primary_seq_dir dest_seq_dir.
  split; [apply copy_seq_files_absent |].
  intros P Hres HP Hvalid.
  rewrite (copy_seq_files_listed cwd primary session base t P Hres HP).
  pose proof (seq_items_ok cwd primary session base _ Hvalid) as Hok.
  assert (NoDup (map item_tag (seq_items primary session base (Fs.entries t P))))
    as Hnd by (rewrite seq_items_tags; apply filter_NoDup, entries_NoDup).
  split; [| split].
  - intros Hnone. unfold seq_items. rewrite Hnone. reflexivity.
  - intros t' H.
    pose proof (copy_all_writes cwd _ _ _ _ Hok H) as Hw.
    rewrite seq_items_tags in Hw. split; [| exact Hw].
    intros n Hin src dst. subst src dst.
    set (src := PosixPath.join (PosixPath.join primary ["seq"]) [n]).
    set (dst := PosixPath.join (PosixPath.join session ["seq"]) [n]).
    assert (valid_name n = true) as Hn.
    { rewrite Forall_forall in Hvalid. apply Hvalid, list_elem_of_In, Hin. }
    destruct (seq_dir_shape primary) as [Hne Hlast].
    assert (lookup_path cwd t src = t !! (n :: P)) as Hsrc.
    { rewrite lookup_path_resolve. unfold src.
      rewrite (resolve_join_name cwd t _ n P Hne Hlast Hn Hres HP).
      reflexivity. }
    destruct (seq_match base n) eqn:Em.
    + assert (In (src, dst, n) (seq_items primary session base (Fs.entries t P)))
        as Hitem.
      { unfold seq_items. apply in_map_iff. exists n.
        split; [reflexivity |]. apply filter_In. split; assumption. }
      destruct (copy_all_Ok cwd _ _ _ Hnd Hok H _ _ _ Hitem) as [_ H2].
      apply entries_In in Hin as [v Hv].
      destruct H2 as (data & Hd & Ht); [rewrite Hsrc, Hv; discriminate |].
      exists data. rewrite <- Hsrc. split; [exact Hd |]. split; [exact Ht |].
      intros Hnd'. unfold copy_target in Ht.
      destruct (lookup_path cwd t dst) as [[|d]|]; [congruence | exact Ht ..].
    + apply (writes_lookup_path cwd _ _ _ _ n Hw).
      * apply (name_item_ok cwd (PosixPath.join primary ["seq"])
                 (PosixPath.join session ["seq"]) n Hn).
      * rewrite filter_In. intros [_ E]. congruence.
  - intros D HresD HD Hne Hfiles.
    apply (copy_all_ready cwd _ _ Hnd Hok).
    apply Forall_forall. intros [[src dst] h] Hin.
    apply list_elem_of_In in Hin. unfold seq_items in Hin.
    apply in_map_iff in Hin as (n & E & Hin).
    injection E as <- <- <-.
    apply filter_In in Hin as [Hin Hm].
    assert (valid_name n = true) as Hn.
    { rewrite Forall_forall in Hvalid. apply Hvalid, list_elem_of_In, Hin. }
    destruct (Hfiles n Hin Hm) as ((data & Hdata) & Hnd').
    destruct (seq_dir_shape primary) as [Hne1 Hlast1].
    destruct (seq_dir_shape session) as [Hne2 Hlast2].
    pose proof (resolve_join_name cwd t _ n P Hne1 Hlast1 Hn Hres HP) as Hsrc.
    pose proof (resolve_join_name cwd t _ n D Hne2 Hlast2 Hn HresD HD) as Hdst.
    split.
    + right. exists data.
      change (lookup_path cwd t
                (PosixPath.join (PosixPath.join primary ["seq"]) [n])
              = Some (File data)).
      rewrite lookup_path_resolve, Hsrc. exact Hdata.
    + exists (n :: D).
      change (Fs.resolve cwd t
                (PosixPath.join (PosixPath.join session ["seq"]) [n])
              = Ok (n :: D)
              /\ Fs.is_dir t (tail (n :: D)) = true
              /\ Fs.is_dir t (n :: D) = false
              /\ Fs.resolve cwd t
                   (PosixPath.join (PosixPath.join primary ["seq"]) [n])
                 <> Ok (n :: D)).
      split; [exact Hdst |]. split; [exact HD |].
      split; [exact Hnd' |]. rewrite Hsrc. congruence.
Qed.

(** ** Dict comprehensions *)

Lemma dict_setitem_fresh d k v :
  ~ In k (dict_keys d) -> dict_setitem d k v = d ++ [(k, v)].
Proof.
  induction d as [|[k' v'] d IH]; intros Hk; [reflexivity |]. simpl.
  destruct (PyStr.eqb k' k) eqn:E.
  - apply eqb_true in E. subst. exfalso. apply Hk. left. reflexivity.
  - rewrite IH; [reflexivity |]. intros H. apply Hk. right. exact H.
Qed.

Lemma dict_setitem_keys d k v x :
  In x (dict_keys (dict_setitem d k v)) <-> In x (dict_keys d) \/ x = k.
Proof.
  induction d as [|[k' v'] d IH]; simpl.
  - split; [intros [<- | []]; auto | intros [[] | ->]; auto].
  - destruct (PyStr.eqb k' k) eqn:E; simpl.
    + apply eqb_true in E. subst. split; [auto | intros [H | ->]; auto].
    + rewrite IH. tauto.
Qed.

Lemma dict_comprehension_fold f d : forall acc,
  NoDup (dict_keys acc ++ dict_keys d) ->
  fold_left (fun acc kv => dict_setitem acc (fst kv) (f (snd kv))) d acc
  = acc ++ map (fun kv => (fst kv, f (snd kv))) d.
Proof.
  induction d as [|[k v] d IH]; intros acc Hnd; simpl.
  - rewrite app_nil_r. reflexivity.
  - assert (~ In k (dict_keys acc)) as Hk.
    { apply NoDup_app in Hnd as (_ & Hdis & _). intros H.
      apply (Hdis k); [apply list_elem_of_In; exact H |]. simpl. left. }
    rewrite dict_setitem_fresh by exact Hk. rewrite IH.
    + rewrite <- app_assoc. reflexivity.
    + unfold dict_keys in *. rewrite map_app. simpl.
      rewrite <- app_assoc. exact Hnd.
Qed.

(** On a dict, the comprehension maps the values and keeps keys and order. *)
Lemma dict_comprehension_map f d :
  dict_wf d ->
  dict_comprehension f d = map (fun kv => (fst kv, f (snd kv))) d.
Proof.
  intros Hwf. unfold dict_comprehension.
  rewrite dict_comprehension_fold; [reflexivity | exact Hwf].
Qed.

Lemma dict_comprehension_keys f d x :
  In x (dict_keys (dict_comprehension f d)) <-> In x (dict_keys d).
Proof.
  unfold dict_comprehension.
  assert (forall acc,
            In x (dict_keys
                    (fold_left (fun acc kv => dict_setitem acc (fst kv) (f (snd kv)))
                       d acc))
            <-> In x (dict_keys acc) \/ In x (dict_keys d)) as H.
  { induction d as [|[k v] d IH]; intros acc; simpl; [tauto |].
    rewrite IH, dict_setitem_keys. intuition. }
  rewrite H. simpl. tauto.
Qed.

Lemma dict_setitem_values (P : value -> Prop) d k v :
  Forall (fun kv => P (snd kv)) d -> P v ->
  Forall (fun kv => P (snd kv)) (dict_setitem d k v).
Proof.
  intros Hd Hv. induction Hd as [|[k' v'] d Hx Hd IH]; simpl.
  - constructor; [exact Hv | constructor].
  - destruct (PyStr.eqb k' k); constructor; auto.
Qed.

Lemma dict_comprehension_values (P : value -> Prop) f d :
  (forall v, P (f v)) ->
  Forall (fun kv => P (snd kv)) (dict_comprehension f d).
Proof.
  intros Hf. unfold dict_comprehension.
  assert (forall acc, Forall (fun kv => P (snd kv)) acc ->
            Forall (fun kv => P (snd kv))
              (fold_left (fun acc kv => dict_setitem acc (fst kv) (f (snd kv)))
                 d acc)) as H.
  { induction d as [|[k v] d IH]; intros acc Hacc; simpl; [exact Hacc |].
    apply IH. apply dict_setitem_values; [exact Hacc | apply Hf]. }
  apply H. constructor.
Qed.

Lemma dict_lookup_map f d k :
  dict_lookup (map (fun kv => (fst kv, f (snd kv))) d) k
  = option_map f (dict_lookup d k).
Proof.
  induction d as [|[k' v] d IH]; [reflexivity |]. simpl.
  destruct (PyStr.eqb k' k); [reflexivity | exact IH].
Qed.

(** ** The encoder *)








(** ** C5: the metadata record *)

Lemma scan_parameters_strings scan_info :
  Forall (fun kv => exists s, snd kv = VStr s) (scan_parameters scan_info).
Proof.
  unfold scan_parameters.
  apply (dict_comprehension_values (fun v => exists s, v = VStr s)).
  intros v. eauto.
Qed.

Lemma metadata_path_tagged cwd p :
  tagged cwd (metadata_path p) "metadata.json".
Proof.
  pose proof (tagged_join cwd p [] "" "metadata.json") as H.
  rewrite last_piece_empty in H. apply H; [reflexivity | discriminate ..].
Qed.

(** What the metadata step leaves behind: the whole text when it completes,
    the text up to the first value the encoder cannot render when it raises
    there, and nothing when the file cannot be opened. *)
Lemma save_metadata_inv cwd session_info scan_info p t r t' :
  save_metadata cwd session_info scan_info p t = (r, t') ->
  (exists l,
     Fs.resolve cwd t (metadata_path p) = Ok l /\ Fs.is_dir t l = false /\
     t' = <[l := File (fst (Json.iterencode 0
                              (full_metadata session_info scan_info)))]> t /\
     r = if snd (Json.iterencode 0 (full_metadata session_info scan_info))
         then Ok tt else Raise TypeError)
  \/ (exists e, r = Raise e /\ t' = t).
Proof.
  unfold save_metadata. intros H.
  apply json_dump_inv in H as [(l & Hres & Hd & _ & -> & ->) | H];
    [left; exists l; auto | right; exact H].
Qed.

(** C5. After a call that returns a path, the metadata file of the session
    directory holds the encoding of a record of exactly two fields:
    [session_info], the session mapping as given, and [scan_parameters],
    whose keys are those of the scan mapping and whose values are all
    strings; for a scan mapping with distinct keys, [scan_parameters] has the
    same keys in the same order and, under each key, the string
    representation of the scan mapping's value. *)
Theorem C5_metadata_record cwd session_info scan_info primary t t' p :
  createMirroredDataset cwd session_info scan_info primary t
    = (Returns (Some p), t') ->
  exists text,
    lookup_path cwd t' (metadata_path p) = Some (File text) /\
    Json.iterencode 0
      (VDict [("session_info", VDict session_info);
              ("scan_parameters", VDict (scan_parameters scan_info))])
    = (text, true) /\
    (forall k, In k (dict_keys (scan_parameters scan_info))
               <-> In k (dict_keys scan_info)) /\
    Forall (fun kv => exists s, snd kv = VStr s) (scan_parameters scan_info) /\
    (dict_wf scan_info ->
     dict_keys (scan_parameters scan_info) = dict_keys scan_info /\
     forall k, dict_lookup (scan_parameters scan_info) k
               = option_map (fun v => VStr (PyRepr.str v))
                   (dict_lookup scan_info k)).
Proof.
  intros H. apply created_Some_inv, body_Ok_inv in H
    as (subj & ses & base & t1 & t2 & t3 & _ & _ & _ & _ & _ & _ & _ & H).
  apply save_metadata_inv in H as [(l & Hres & Hd & -> & Hr) | (e & He & _)];
    [| discriminate].
  change (full_metadata session_info scan_info)
    with (VDict [("session_info", VDict session_info);
                 ("scan_parameters", VDict (scan_parameters scan_info))]) in *.
  destruct (Json.iterencode 0 _) as [text complete] eqn:E. cbn [fst snd] in *.
  destruct complete; [| discriminate]. exists text.
  split; [apply lookup_path_insert_same; assumption |].
  split; [reflexivity |].
  split; [intros k; apply dict_comprehension_keys |].
  split; [apply scan_parameters_strings |].
  intros Hwf. unfold scan_parameters. rewrite dict_comprehension_map by exact Hwf.
  split.
  - unfold dict_keys. rewrite map_map. reflexivity.
  - intros k.
    exact (dict_lookup_map (fun v => VStr (PyRepr.str v)) scan_info k).
Qed.

(** ** C10: what the string coercion protects *)




(** ** Directories made by the scaffolding *)

Lemma cons_neq_self {A} (x : A) (l : list A) : x :: l <> l.
Proof.
  intros E. apply (f_equal (@length A)) in E. simpl in E. lia.
Qed.

(** After [os.makedirs], the path names a directory. *)
Lemma walk_create_walk cs : forall cur t t' init h,
  Fs.walk_create cur cs t = (Ok tt, t') ->
  cs = init ++ [h] -> h <> "." -> h <> ".." ->
  exists parent,
    Fs.walk t' cur cs = Ok (h :: parent) /\ Fs.is_dir t' (h :: parent) = true.
Proof.
  induction cs as [|c cs IH]; intros cur t t' init h H Hcs H1 H2.
  - destruct init; discriminate Hcs.
  - pose proof (walk_create_keeps_dirs _ _ _ _ _ H) as Hkeep.
    cbn [Fs.walk_create] in H. cbn [Fs.walk].
    destruct (Fs.node_at t cur) as [[|d]|] eqn:Ecur; try discriminate H.
    apply is_dir_node in Ecur. apply Hkeep, is_dir_node in Ecur. rewrite Ecur.
    destruct init as [|c0 init].
    + simpl in Hcs. injection Hcs as -> ->.
      apply eqb_false in H1, H2. rewrite H1, H2 in H. apply eqb_false in H1, H2.
      rewrite step_name by assumption. exists cur. split; [reflexivity |].
      destruct (Fs.node_at t (h :: cur)) as [[|d]|] eqn:E.
      * inversion H; subst. apply is_dir_node. exact E.
      * discriminate H.
      * inversion H; subst. apply is_dir_node. unfold Fs.node_at.
        apply lookup_insert_eq.
    + simpl in Hcs. injection Hcs as -> ->. unfold Fs.step.
      destruct (PyStr.eqb c0 "."); [eapply IH; eauto |].
      destruct (PyStr.eqb c0 ".."); [eapply IH; eauto |].
      destruct (Fs.node_at t (c0 :: cur)) as [[|d]|];
        [eapply IH; eauto | discriminate H | eapply IH; eauto].
Qed.

Lemma walk_dirs_le t t' :
  (forall l, Fs.is_dir t l = true -> Fs.is_dir t' l = true) ->
  forall cs cur l, Fs.walk t cur cs = Ok l -> Fs.walk t' cur cs = Ok l.
Proof.
  intros Hd. induction cs as [|c cs IH]; intros cur l H; [exact H |].
  cbn [Fs.walk] in H |- *.
  destruct (Fs.node_at t cur) as [[|d]|] eqn:E; try discriminate.
  apply is_dir_node, Hd, is_dir_node in E. rewrite E. apply IH. exact H.
Qed.

(** A path that names a directory keeps naming it as directories are
    added. *)
Lemma lookup_path_Dir_le cwd t t' p :
  (forall l, Fs.is_dir t l = true -> Fs.is_dir t' l = true) ->
  lookup_path cwd t p = Some Dir -> lookup_path cwd t' p = Some Dir.
Proof.
  intros Hd. rewrite !lookup_path_resolve. unfold Fs.resolve.
  destruct (PyStr.eqb p ""); [discriminate |].
  destruct (Fs.walk t (Fs.start cwd p) (Fs.path_components p)) as [l|e] eqn:E;
    [| discriminate].
  rewrite (walk_dirs_le t t' Hd _ _ _ E). intros H.
  apply is_dir_node, Hd, is_dir_node in H. exact H.
Qed.

Lemma makedirs_Ok_dir cwd name t t' init h :
  Fs.makedirs cwd name t = (Ok tt, t') ->
  Fs.path_components name = init ++ [h] -> h <> "." -> h <> ".." ->
  lookup_path cwd t' name = Some Dir.
Proof.
  unfold Fs.makedirs. intros H Hpc H1 H2.
  rewrite lookup_path_resolve. unfold Fs.resolve.
  destruct (PyStr.eqb name ""); [discriminate H |].
  destruct (walk_create_walk _ _ _ _ _ _ H Hpc H1 H2) as (parent & -> & Hd).
  apply is_dir_node. exact Hd.
Qed.

Lemma subfolder_components p sub :
  In sub subfolders ->
  exists init, Fs.path_components (PosixPath.join p [sub]) = init ++ [sub].
Proof.
  intros Hin. change [sub] with ([] ++ [sub]) at 1. rewrite join_snoc.
  destruct (join2_form (PosixPath.join p []) sub) as (z & -> & Hz).
  pose proof (path_components_last z "" sub Hz) as H.
  rewrite last_piece_empty, !app_nil in H.
  simpl in Hin. repeat (destruct Hin as [<- | Hin];
                        [apply H; [reflexivity | discriminate] |]).
  destruct Hin.
Qed.

Lemma subfolder_not_dots sub : In sub subfolders -> sub <> "." /\ sub <> "..".
Proof.
  intros Hin. simpl in Hin.
  repeat (destruct Hin as [<- | Hin]; [split; discriminate |]). destruct Hin.
Qed.

Lemma for_each_makedirs_dirs cwd p names : forall t t1,
  (forall sub, In sub names -> In sub subfolders) ->
  for_each names (fun sub => Fs.makedirs cwd (PosixPath.join p [sub])) t
  = (Ok tt, t1) ->
  forall sub, In sub names ->
    lookup_path cwd t1 (PosixPath.join p [sub]) = Some Dir.
Proof.
  induction names as [|x names IH]; intros t t1 Hsub H sub Hin; [destruct Hin |].
  cbn [for_each] in H. apply bind_Ok_inv in H as ([] & ta & Hx & Hrest).
  destruct Hin as [<- | Hin].
  - destruct (subfolder_components p x (Hsub x (or_introl eq_refl)))
      as (init & Hpc).
    destruct (subfolder_not_dots x (Hsub x (or_introl eq_refl))) as [H1 H2].
    apply (lookup_path_Dir_le cwd ta).
    + intros l. eapply keeps_dirs_for_each; [| exact Hrest].
      intros y. apply makedirs_keeps_dirs.
    + eapply makedirs_Ok_dir; eauto.
  - eapply IH; [| exact Hrest | exact Hin]. intros y Hy. apply Hsub. right.
    exact Hy.
Qed.

(** After the scaffolding, the five subdirectories are directories. *)
Lemma make_subfolders_dirs cwd p t t1 :
  make_subfolders cwd p t = (Ok tt, t1) ->
  forall sub, In sub subfolders ->
    lookup_path cwd t1 (PosixPath.join p [sub]) = Some Dir.
Proof.
  unfold make_subfolders. intros H.
  eapply for_each_makedirs_dirs; [| exact H]. auto.
Qed.

(** C8. When the scaffolding of a call did not fail, running it again on the
    file system it left, or on the file system the whole call left (as a
    second call with the same inputs does), does not fail and changes
    nothing; there the five subdirectories are directories. *)
Theorem C8_idempotent_scaffolding cwd session_info scan_info primary t subj ses t1 :
  subject_label session_info = Ok subj ->
  session_label scan_info = Ok ses ->
  let p := PosixPath.join dataset_root ["sub-" +:+ subj; ses] in
  make_subfolders cwd p t = (Ok tt, t1) ->
  let t' := snd (createMirroredDataset cwd session_info scan_info primary t) in
  make_subfolders cwd p t1 = (Ok tt, t1) /\
  make_subfolders cwd p t' = (Ok tt, t') /\
  (forall sub, In sub subfolders ->
     lookup_path cwd t' (PosixPath.join p [sub]) = Some Dir).
Proof.
  intros Hsubj Hses p Hmk t'.
  assert (forall l, Fs.is_dir t1 l = true -> Fs.is_dir t' l = true) as Hle.
  { intros l Hl. subst t'.
    rewrite created_state, (body_scaffolded _ _ _ _ _ _ _ Hsubj Hses).
    fold p. rewrite (bind_Ok_step _ _ _ _ _ Hmk).
    destruct (after_scaffolding cwd session_info scan_info primary p t1)
      as [r t2] eqn:E. cbn [snd].
    eapply after_scaffolding_keeps_dirs; eauto. }
  split; [| split].
  - eapply make_subfolders_replay; eauto.
  - eapply make_subfolders_replay; eauto.
  - intros sub Hin. apply (lookup_path_Dir_le cwd t1 t' _ Hle).
    eapply make_subfolders_dirs; eauto.
Qed.

(** ** C9: where the two required-field failures happen *)

Lemma session_label_missing scan_info :
  dict_lookup scan_info "name_string" = None \/
  dict_lookup scan_info "name_string" = Some (VStr "") \/
  (exists s e, dict_lookup scan_info "name_string" = Some (VStr s) /\
               DateTime.strptime s = Raise e) ->
  session_label scan_info = Raise ValueError.
Proof.
  intros [H | [H | (s & e & H & Hp)]].
  - unfold session_label. rewrite dict_get_lookup, H. reflexivity.
  - unfold session_label. rewrite dict_get_lookup, H. reflexivity.
  - eapply session_label_unparsable; eauto.
Qed.

Lemma base_filename_missing scan_info :
  dict_lookup scan_info "fileName" = None \/
  dict_lookup scan_info "fileName" = Some (VStr "") ->
  base_filename scan_info = Raise ValueError.
Proof.
  intros [H | H]; unfold base_filename; rewrite dict_get_lookup, H;
    reflexivity.
Qed.

(** C9. A [name_string] that is absent, empty or not parsed by the format
    makes the call return [None] with the file system exactly as it was.  A
    [fileName] that is absent or empty, with subject and timestamp in order,
    makes it return [None] with the file system as the scaffolding left it:
    when the scaffolding completed, the five subdirectories are there. *)
Theorem C9_failure_before_or_after_scaffolding
  cwd session_info scan_info primary t :
  (dict_lookup scan_info "name_string" = None \/
   dict_lookup scan_info "name_string" = Some (VStr "") \/
   (exists s e, dict_lookup scan_info "name_string" = Some (VStr s) /\
                DateTime.strptime s = Raise e) ->
   createMirroredDataset cwd session_info scan_info primary t
   = (Returns None, t)) /\
  (forall subj ses,
     subject_label session_info = Ok subj ->
     session_label scan_info = Ok ses ->
     dict_lookup scan_info "fileName" = None \/
     dict_lookup scan_info "fileName" = Some (VStr "") ->
     let p := PosixPath.join dataset_root ["sub-" +:+ subj; ses] in
     createMirroredDataset cwd session_info scan_info primary t
     = (Returns None, snd (make_subfolders cwd p t)) /\
     forall t1, make_subfolders cwd p t = (Ok tt, t1) ->
       forall sub, In sub subfolders ->
         lookup_path cwd t1 (PosixPath.join p [sub]) = Some Dir).
Proof.
  split.
  - intros H. apply session_label_missing in H.
    rewrite created_of_body.
    destruct (body_session_label_Raise cwd session_info scan_info primary t _ H)
      as [e' ->]. reflexivity.
  - intros subj ses Hsubj Hses Hfile p. apply base_filename_missing in Hfile.
    split; [| apply make_subfolders_dirs].
    rewrite created_of_body, (body_scaffolded _ _ _ _ _ _ _ Hsubj Hses).
    fold p. unfold bind at 1.
    destruct (make_subfolders cwd p t) as [[[]|e] t1]; [| reflexivity].
    unfold after_scaffolding, bind at 1, lift. rewrite Hfile. reflexivity.
Qed.

(** ** The example, step by step *)

Lemma pair_eq {A B} (x : A * B) (a : A) (b : B) :
  fst x = a -> snd x = b -> x = (a, b).
Proof. destruct x. simpl. intros -> ->. reflexivity. Qed.

Lemma Forall_forallb {A} (f : A -> bool) (l : list A) :
  forallb f l = true -> Forall (fun x => f x = true) l.
Proof.
  induction l as [|x l IH]; simpl; [constructor |].
  rewrite andb_true_iff. intros [Hx Hl]. constructor; auto.
Qed.

Lemma C1_returned_path_witness :
  exists subject_id name_string dt,
    match dict_lookup Example.session "subject_id" with
    | None => subject_id = "UnknownSubject"
    | Some v => v = VStr subject_id
    end /\
    dict_lookup Example.scan "name_string" = Some (VStr name_string) /\
    DateTime.strptime name_string = Ok dt /\
    Example.path
    = PosixPath.join dataset_root
        ["sub-" +:+ PyStr.map_chars space_to_underscore subject_id;
         "ses-" +:+ DateTime.strftime dt] /\
    PyStr.contains_char " " (PyStr.map_chars space_to_underscore subject_id)
      = false /\
    (last_char subject_id <> Some "/"%char ->
     Example.path
     = dataset_root +:+ "/sub-"
       +:+ PyStr.map_chars space_to_underscore subject_id
       +:+ "/ses-" +:+ DateTime.strftime dt).
Proof.
  refine (C1_returned_path Example.cwd Example.session Example.scan "/acq"
            Example.acquisition Example.final Example.path _).
  apply pair_eq; [vm_compute; reflexivity | reflexivity].
Defined.

Lemma C3_required_fields_witness :
  fst (createMirroredDataset Example.cwd Example.session
         Example.scan_without_fileName "/acq" Example.acquisition)
  = Returns None.
Proof.
  refine (C3_required_fields Example.cwd Example.session
            Example.scan_without_fileName "/acq" Example.acquisition _).
  right. right. left. reflexivity.
Defined.


Lemma C5_metadata_record_witness :
  exists text,
    lookup_path Example.cwd Example.final (metadata_path Example.path)
    = Some (File text) /\
    Json.iterencode 0
      (VDict [("session_info", VDict Example.session);
              ("scan_parameters", VDict (scan_parameters Example.scan))])
    = (text, true) /\
    dict_keys (scan_parameters Example.scan) = dict_keys Example.scan /\
    dict_lookup (scan_parameters Example.scan) "data" = Some (VStr "[1 2]").
Proof.
  assert (createMirroredDataset Example.cwd Example.session Example.scan "/acq"
            Example.acquisition
          = (Returns (Some Example.path), Example.final)) as Hrun
    by (apply pair_eq; [vm_compute; reflexivity | reflexivity]).
  assert (dict_wf Example.scan) as Hscan.
  { unfold dict_wf. cbn [dict_keys map fst Example.scan].
    repeat (apply NoDup_cons; split;
            [rewrite ?elem_of_cons, elem_of_nil; intuition discriminate |]).
    apply NoDup_nil. exact I. }
  destruct (C5_metadata_record Example.cwd Example.session Example.scan "/acq"
              Example.acquisition Example.final Example.path Hrun)
    as (text & Hfile & Henc & _ & _ & Hwf).
  destruct (Hwf Hscan) as [Hkeys Hval].
  exists text. split; [exact Hfile |]. split; [exact Henc |].
  split; [exact Hkeys |]. rewrite Hval. reflexivity.
Defined.

Lemma C6_selective_copy_witness :
  lookup_path Example.cwd Example.with_data
    (PosixPath.join Example.path ["mat"; "X1" +:+ ".mat"])
  = Some (File "MATDATA") /\
  lookup_path Example.cwd Example.with_data
    (PosixPath.join Example.path ["dcm"; "X1" +:+ ".dcm"])
  = lookup_path Example.cwd Example.scaffolded
      (PosixPath.join Example.path ["dcm"; "X1" +:+ ".dcm"]) /\
  exists t',
    copy_data_files Example.cwd "/acq" Example.path "X1" Example.scaffolded
    = (Ok tt, t').
Proof.
  destruct (C6_selective_copy Example.cwd "/acq" Example.path "X1"
              Example.scaffolded) as (H & _ & _ & Hready).
  assert (copy_data_files Example.cwd "/acq" Example.path "X1"
            Example.scaffolded = (Ok tt, Example.with_data)) as Hrun
    by (apply pair_eq; [vm_compute; reflexivity | reflexivity]).
  split; [| split].
  - destruct (H _ Hrun ".mat" "mat" "mat") as [_ Hmat];
      [left; reflexivity |].
    assert (lookup_path Example.cwd Example.scaffolded
              (PosixPath.join "/acq" ["mat"; "X1" +:+ ".mat"]) <> None)
      as Hpresent by (vm_compute; discriminate).
    destruct (Hmat Hpresent) as (data & Hsrc & _ & Hdst).
    assert (data = "MATDATA") as ->
      by (vm_compute in Hsrc; injection Hsrc as <-; reflexivity).
    apply Hdst. vm_compute. discriminate.
  - destruct (H _ Hrun ".dcm" "dcm" "dcm") as [Hdcm _];
      [right; right; left; reflexivity |].
    apply Hdcm. vm_compute. reflexivity.
  - apply Hready. intros ext src_subdir dest_subdir Hin. simpl in Hin.
    destruct Hin as [E | [E | [E | [E | []]]]]; injection E as <- <- <-;
      cbv zeta; (split; [| eexists; split; [vm_compute; reflexivity |]]).
    + right. eexists. vm_compute. reflexivity.
    + vm_compute. repeat split. discriminate.
    + right. eexists. vm_compute. reflexivity.
    + vm_compute. repeat split. discriminate.
    + left. vm_compute. reflexivity.
    + vm_compute. repeat split. discriminate.
    + left. vm_compute. reflexivity.
    + vm_compute. repeat split. discriminate.
Defined.

Lemma C7_sequence_files_witness :
  lookup_path Example.cwd Example.with_seq
    (PosixPath.join (PosixPath.join Example.path ["seq"]) ["X1_cal.seq"])
  = Some (File "S2") /\
  lookup_path Example.cwd Example.with_seq
    (PosixPath.join (PosixPath.join Example.path ["seq"]) ["Y2.seq"])
  = lookup_path Example.cwd Example.with_data
      (PosixPath.join (PosixPath.join Example.path ["seq"]) ["Y2.seq"]) /\
  exists t',
    copy_seq_files Example.cwd "/acq" Example.path "X1" Example.with_data
    = (Ok tt, t').
Proof.
  destruct (C7_sequence_files Example.cwd "/acq" Example.path "X1"
              Example.with_data) as [_ H].
  destruct (H ["seq"; "acq"]) as (_ & H' & Hready).
  { vm_compute. reflexivity. }
  { vm_compute. reflexivity. }
  { apply Forall_forallb. vm_compute. reflexivity. }
  destruct (H' Example.with_seq) as [Hn _].
  { apply pair_eq; [vm_compute; reflexivity | reflexivity]. }
  split; [| split].
  - assert (In "X1_cal.seq" (Fs.entries Example.with_data ["seq"; "acq"]))
      as Hin
      by (apply (proj2 (entries_In _ _ _)); vm_compute; eexists; reflexivity).
    pose proof (Hn "X1_cal.seq" Hin) as H1. cbv zeta in H1.
    change (seq_match "X1" "X1_cal.seq") with true in H1. cbv iota in H1.
    destruct H1 as (data & Hsrc & _ & Hdst).
    assert (data = "S2") as ->
      by (vm_compute in Hsrc; injection Hsrc as <-; reflexivity).
    apply Hdst. vm_compute. discriminate.
  - assert (In "Y2.seq" (Fs.entries Example.with_data ["seq"; "acq"]))
      as Hin
      by (apply (proj2 (entries_In _ _ _)); vm_compute; eexists; reflexivity).
    pose proof (Hn "Y2.seq" Hin) as H2. cbv zeta in H2.
    change (seq_match "X1" "Y2.seq") with false in H2. cbv iota in H2.
    exact H2.
  - apply (Hready ["seq"; "ses-20240315T093000"; "sub-Jane_Doe"; "mri_dataset";
                   "Desktop"; "bryant"; "home"]).
    + vm_compute. reflexivity.
    + vm_compute. reflexivity.
    + discriminate.
    + intros n Hin Hm.
      assert (Fs.entries Example.with_data ["seq"; "acq"]
              = ["X1_cal.seq"; "Y2.seq"; "X1.seq"]) as He
        by (vm_compute; reflexivity).
      rewrite He in Hin.
      destruct Hin as [<- | [<- | [<- | []]]].
      * split; [exists "S2" |]; vm_compute; reflexivity.
      * assert (seq_match "X1" "Y2.seq" = false) as Hn'
          by (vm_compute; reflexivity).
        rewrite Hn' in Hm. discriminate Hm.
      * split; [exists "S1" |]; vm_compute; reflexivity.
Defined.

Lemma C8_idempotent_scaffolding_witness :
  make_subfolders Example.cwd Example.path Example.scaffolded
  = (Ok tt, Example.scaffolded) /\
  make_subfolders Example.cwd Example.path Example.final
  = (Ok tt, Example.final) /\
  lookup_path Example.cwd Example.final (PosixPath.join Example.path ["raw"])
  = Some Dir.
Proof.
  destruct (C8_idempotent_scaffolding Example.cwd Example.session Example.scan
              "/acq" Example.acquisition "Jane_Doe" "ses-20240315T093000"
              Example.scaffolded) as (H1 & H2 & H3).
  - vm_compute. reflexivity.
  - vm_compute. reflexivity.
  - apply pair_eq; [vm_compute; reflexivity | reflexivity].
  - split; [exact H1 |]. split; [exact H2 |].
    apply (H3 "raw"). simpl. tauto.
Defined.

Lemma C9_failure_before_or_after_scaffolding_witness :
  createMirroredDataset Example.cwd Example.session
    Example.scan_without_name_string "/acq" Example.acquisition
  = (Returns None, Example.acquisition) /\
  createMirroredDataset Example.cwd Example.session
    Example.scan_without_fileName "/acq" Example.acquisition
  = (Returns None, Example.scaffolded).
Proof.
  split.
  - refine (proj1 (C9_failure_before_or_after_scaffolding Example.cwd
                     Example.session Example.scan_without_name_string "/acq"
                     Example.acquisition) _).
    left. reflexivity.
  - refine (proj1 (proj2 (C9_failure_before_or_after_scaffolding Example.cwd
                            Example.session Example.scan_without_fileName
                            "/acq" Example.acquisition)
                     "Jane_Doe" "ses-20240315T093000" _ _ _)).
    + vm_compute. reflexivity.
    + vm_compute. reflexivity.
    + left. reflexivity.
Defined.


(** * Further properties of the routine *)

(** ** Values of the wrong type *)

Lemma body_subject_label_Raise cwd session_info scan_info primary t e :
  subject_label session_info = Raise e ->
  body cwd session_info scan_info primary t = (Raise e, t).
Proof. intros H. unfold body, bind, lift. rewrite H. reflexivity. Qed.

Lemma subject_label_not_str session_info v :
  dict_lookup session_info "subject_id" = Some v ->
  (forall s, v <> VStr s) ->
  subject_label session_info = Raise AttributeError.
Proof.
  intros Hv Hns. unfold subject_label. rewrite dict_get_lookup, Hv.
  destruct v; try reflexivity. exfalso. eapply Hns. reflexivity.
Qed.

Lemma session_label_not_str scan_info v :
  dict_lookup scan_info "name_string" = Some v ->
  (forall s, v <> VStr s) ->
  exists e, session_label scan_info = Raise e.
Proof.
  intros Hv Hns. unfold session_label. rewrite dict_get_lookup, Hv.
  destruct (py_bool v) as [[|]|e]; [| eauto ..].
  destruct v; try (cbn [datetime_strptime]; eauto).
  exfalso. eapply Hns. reflexivity.
Qed.

Lemma base_filename_not_str scan_info v :
  dict_lookup scan_info "fileName" = Some v ->
  (forall s, v <> VStr s) ->
  base_filename scan_info = Raise TypeError.
Proof.
  intros Hv Hns. unfold base_filename. rewrite dict_get_lookup, Hv.
  destruct v; try reflexivity. exfalso. eapply Hns. reflexivity.
Qed.

(** X1. A [subject_id] that is [None], a Boolean, a number, a list or a
    dict (none of which has a [replace] method), or a [name_string] that is
    present but is not a string, makes the call return [None] before
    anything is created: the file system is exactly as it was. *)
Theorem wrong_type_before_scaffolding cwd session_info scan_info primary t :
  (exists v, dict_lookup session_info "subject_id" = Some v /\
             match v with
             | VStr _ | VObject _ _ _ => False
             | _ => True
             end) \/
  (exists v, dict_lookup scan_info "name_string" = Some v /\
             forall s, v <> VStr s) ->
  createMirroredDataset cwd session_info scan_info primary t
  = (Returns None, t).
Proof.
  intros [(v & Hv & Hns) | (v & Hv & Hns)]; rewrite created_of_body.
  - assert (forall s, v <> VStr s) as Hns'
      by (intros s ->; exact Hns).
    rewrite (body_subject_label_Raise _ _ _ _ _ _
               (subject_label_not_str _ _ Hv Hns')).
    reflexivity.
  - destruct (session_label_not_str _ _ Hv Hns) as [e He].
    destruct (body_session_label_Raise cwd session_info scan_info primary t _ He)
      as [e' ->].
    reflexivity.
Qed.

Lemma wrong_type_before_scaffolding_witness :
  createMirroredDataset Example.cwd [("subject_id", VNone)] Example.scan
    "/acq" Example.acquisition
  = (Returns None, Example.acquisition).
Proof.
  apply wrong_type_before_scaffolding. left. exists VNone.
  split; [reflexivity | exact I].
Defined.

(** X2. With subject and timestamp in order, a [fileName] that is [None], a
    Boolean, a number, a list or a dict (which [os.path.splitext] rejects)
    makes the call return [None] after the scaffolding: the file system is
    the one the five [makedirs] calls left. *)
Theorem fileName_wrong_type_after_scaffolding
  cwd session_info scan_info primary t subj ses v :
  subject_label session_info = Ok subj ->
  session_label scan_info = Ok ses ->
  dict_lookup scan_info "fileName" = Some v ->
  match v with
  | VStr _ | VObject _ _ _ => False
  | _ => True
  end ->
  createMirroredDataset cwd session_info scan_info primary t
  = (Returns None,
     snd (make_subfolders cwd
            (PosixPath.join dataset_root ["sub-" +:+ subj; ses]) t)).
Proof.
  intros Hsubj Hses Hv Hns.
  assert (forall s, v <> VStr s) as Hns' by (intros s ->; exact Hns).
  pose proof (base_filename_not_str _ _ Hv Hns') as Hfile.
  rewrite created_of_body, (body_scaffolded _ _ _ _ _ _ _ Hsubj Hses).
  unfold bind at 1.
  destruct (make_subfolders cwd _ t) as [[[]|e] t1]; [| reflexivity].
  unfold after_scaffolding, bind at 1, lift. rewrite Hfile. reflexivity.
Qed.

Lemma fileName_wrong_type_after_scaffolding_witness :
  createMirroredDataset Example.cwd Example.session
    [("name_string", VStr "2024.03.15.09.30.00.123456"); ("fileName", VInt 7)]
    "/acq" Example.acquisition
  = (Returns None, Example.scaffolded).
Proof.
  apply (fileName_wrong_type_after_scaffolding Example.cwd Example.session _
           "/acq" Example.acquisition "Jane_Doe" "ses-20240315T093000"
           (VInt 7)).
  - vm_compute. reflexivity.
  - vm_compute. reflexivity.
  - reflexivity.
  - exact I.
Defined.

(** ** File systems that only grow *)

Lemma node_at_subseteq (t t' : tree) l n :
  t ⊆ t' -> Fs.node_at t l = Some n -> Fs.node_at t' l = Some n.
Proof.
  intros Hsub. destruct l as [|c l]; [auto |]. cbn [Fs.node_at].
  intros H. exact (lookup_weaken _ _ _ _ H Hsub).
Qed.

Lemma is_dir_subseteq (t t' : tree) l :
  t ⊆ t' -> Fs.is_dir t l = true -> Fs.is_dir t' l = true.
Proof.
  intros Hsub. rewrite !is_dir_node. apply node_at_subseteq, Hsub.
Qed.

Lemma resolve_subseteq (cwd : loc) (t t' : tree) p l :
  t ⊆ t' -> Fs.resolve cwd t p = Ok l -> Fs.resolve cwd t' p = Ok l.
Proof.
  intros Hsub. unfold Fs.resolve. destruct (PyStr.eqb p ""); [discriminate |].
  apply walk_dirs_le. intros k. apply is_dir_subseteq, Hsub.
Qed.

Lemma lookup_path_subseteq (cwd : loc) (t t' : tree) p n :
  t ⊆ t' -> lookup_path cwd t p = Some n -> lookup_path cwd t' p = Some n.
Proof.
  intros Hsub. rewrite !lookup_path_resolve.
  destruct (Fs.resolve cwd t p) as [l|e] eqn:E; [| discriminate].
  rewrite (resolve_subseteq _ _ _ _ _ Hsub E).
  apply node_at_subseteq, Hsub.
Qed.

Lemma walk_create_subseteq cs : forall cur t r t',
  Fs.walk_create cur cs t = (r, t') -> t ⊆ t'.
Proof.
  induction cs as [|c cs IH]; intros cur t r t' H; cbn [Fs.walk_create] in H.
  - inversion H. reflexivity.
  - destruct (Fs.node_at t cur) as [[|d]|]; [| inversion H; reflexivity ..].
    destruct (PyStr.eqb c "."); [eapply IH; exact H |].
    destruct (PyStr.eqb c ".."); [eapply IH; exact H |].
    destruct (Fs.node_at t (c :: cur)) as [[|d]|] eqn:E.
    + eapply IH; exact H.
    + inversion H. reflexivity.
    + etrans; [| eapply IH; exact H].
      apply insert_subseteq. exact E.
Qed.

Lemma makedirs_subseteq cwd name t r t' :
  Fs.makedirs cwd name t = (r, t') -> t ⊆ t'.
Proof.
  unfold Fs.makedirs. destruct (PyStr.eqb name "").
  - intros H. inversion H. reflexivity.
  - apply walk_create_subseteq.
Qed.

Lemma for_each_subseteq {A} (l : list A) (f : A -> M unit) :
  (forall x t r t', f x t = (r, t') -> t ⊆ t') ->
  forall t r t', for_each l f t = (r, t') -> t ⊆ t'.
Proof.
  intros Hf. induction l as [|x l IH]; intros t r t' H; cbn [for_each] in H.
  - inversion H. reflexivity.
  - unfold bind in H. destruct (f x t) as [[[]|e] t1] eqn:E.
    + etrans; [eapply Hf; exact E | eapply IH; exact H].
    + inversion H; subst. eapply Hf; exact E.
Qed.

Lemma make_subfolders_subseteq cwd p t r t' :
  make_subfolders cwd p t = (r, t') -> t ⊆ t'.
Proof.
  unfold make_subfolders. apply for_each_subseteq.
  intros x. apply makedirs_subseteq.
Qed.

(** ** Names the data files never take *)

Lemma data_tags_last_char primary session base h :
  In h (map item_tag (data_items primary session base)) ->
  last_char h = Some "t"%char \/ last_char h = Some "v"%char \/
  last_char h = Some "m"%char \/ last_char h = Some "5"%char.
Proof.
  destruct (data_items_tags base) as [_ E]. rewrite E. cbn [map In].
  intros [<- | [<- | [<- | [<- | []]]]];
    rewrite last_char_app by discriminate; cbn; auto.
Qed.

Lemma seq_dir_tagged cwd primary :
  tagged cwd (PosixPath.join primary ["seq"]) "seq".
Proof.
  destruct (name_item_ok cwd primary primary "seq") as [H _];
    [reflexivity | exact H].
Qed.

(** ** A [seq] entry that is not a directory *)

Lemma copy_seq_files_not_dir cwd primary session base t data :
  lookup_path cwd t (PosixPath.join primary ["seq"]) = Some (File data) ->
  copy_seq_files cwd primary session base t = (Raise NotADirectoryError, t).
Proof.
  intros H. unfold lookup_path in H.
  unfold copy_seq_files, bind at 1, Fs.exists_.
  destruct (Fs.stat cwd t (PosixPath.join primary ["seq"])) as [n|e] eqn:E;
    [| discriminate].
  injection H as ->. unfold bind at 1, Fs.listdir.
  unfold Fs.stat in E.
  destruct (Fs.resolve cwd t (PosixPath.join primary ["seq"])) as [l|e];
    [| discriminate].
  destruct (Fs.node_at t l) as [[|d]|]; try discriminate. reflexivity.
Qed.

(** X3. When [seq] in the acquisition directory is a regular file, the
    listing of line 91 raises [NotADirectoryError]: the step leaves the file
    system as it found it, and the call returns [None]. *)
Theorem seq_regular_file_returns_None
  cwd session_info scan_info primary t data :
  lookup_path cwd t (PosixPath.join primary ["seq"]) = Some (File data) ->
  (forall session base,
     copy_seq_files cwd primary session base t
     = (Raise NotADirectoryError, t)) /\
  fst (createMirroredDataset cwd session_info scan_info primary t)
  = Returns None.
Proof.
  intros Hseq. split.
  { intros session base. eapply copy_seq_files_not_dir. exact Hseq. }
  rewrite created_of_body.
  destruct (body cwd session_info scan_info primary t) as [[p|e] t'] eqn:E;
    [| reflexivity].
  exfalso.
  apply body_Ok_inv in E
    as (subj & ses & base & t1 & t2 & t3 & _ & _ & _ & Hmk & _ & Hcp & Hsq & _).
  apply make_subfolders_subseteq in Hmk.
  pose proof (lookup_path_subseteq cwd _ _ _ _ Hmk Hseq) as H1.
  rewrite copy_data_files_items in Hcp.
  apply copy_all_writes in Hcp; [| apply data_items_ok].
  assert (lookup_path cwd t2 (PosixPath.join primary ["seq"])
          = Some (File data)) as H2.
  { rewrite <- H1. eapply writes_lookup_path;
      [exact Hcp | apply seq_dir_tagged |].
    intros Hin. apply data_tags_last_char in Hin.
    cbn in Hin. intuition discriminate. }
  rewrite (copy_seq_files_not_dir _ _ _ _ _ _ H2) in Hsq. discriminate Hsq.
Qed.

Lemma seq_regular_file_returns_None_witness :
  fst (createMirroredDataset Example.cwd Example.session Example.scan "/acq"
         (<[ ["seq"; "acq"] := File "x" ]> Example.acquisition))
  = Returns None.
Proof.
  apply (seq_regular_file_returns_None Example.cwd Example.session
           Example.scan "/acq" _ "x").
  vm_compute. reflexivity.
Defined.
(** ** A metadata record the encoder cannot finish *)







(** ** The base file name *)

Lemma take_drop (n : nat) (s : string) :
  PyStr.take n s +:+ PyStr.drop n s = s.
Proof.
  revert s. induction n as [|n IH]; intros s; [reflexivity |].
  destruct s as [|c s]; [reflexivity |].
  cbn [PyStr.take PyStr.drop]. rewrite app_cons, IH. reflexivity.
Qed.

Lemma contains_char_drop c n s :
  PyStr.contains_char c s = false ->
  PyStr.contains_char c (PyStr.drop n s) = false.
Proof.
  revert s. induction n as [|n IH]; intros s; [auto |].
  destruct s as [|a s]; [auto |]. cbn [PyStr.drop PyStr.contains_char].
  intros H. apply orb_false_iff in H as [_ H]. apply IH, H.
Qed.

Lemma drop_drop n m s :
  PyStr.drop n (PyStr.drop m s) = PyStr.drop (m + n) s.
Proof.
  revert s. induction m as [|m IH]; intros s; [reflexivity |].
  destruct s as [|a s]; [destruct n; reflexivity |].
  cbn [PyStr.drop Nat.add]. apply IH.
Qed.

(** The last occurrence of a character: it stands at the index found, and
    does not occur after it. *)
Lemma rfind_Some c s : forall i,
  PyStr.rfind c s = Some i ->
  PyStr.drop i s = String c (PyStr.drop (S i) s) /\
  PyStr.contains_char c (PyStr.drop (S i) s) = false.
Proof.
  induction s as [|a s IH]; intros i; [discriminate |].
  cbn [PyStr.rfind]. destruct (PyStr.rfind c s) as [j|] eqn:E.
  - intros H. injection H as <-. cbn [PyStr.drop]. apply IH. reflexivity.
  - destruct (Ascii.eqb a c) eqn:Ea; [| discriminate].
    intros H. injection H as <-. apply Ascii.eqb_eq in Ea. subst a.
    cbn [PyStr.drop]. split; [reflexivity |]. apply rfind_None, E.
Qed.

(** [os.path.splitext] cuts a path in two, and the extension it cuts off is
    empty or one dot followed by characters other than the dot and the
    separator. *)
Lemma splitext_parts (p : string) :
  p = fst (PosixPath.splitext p) +:+ snd (PosixPath.splitext p) /\
  (snd (PosixPath.splitext p) = "" \/
   exists e, snd (PosixPath.splitext p) = String "." e /\
             PyStr.contains_char "." e = false /\
             PyStr.contains_char "/" e = false).
Proof.
  unfold PosixPath.splitext.
  destruct (PyStr.rfind PosixPath.extsep p) as [d|] eqn:Ed;
    [| cbn [fst snd]; rewrite app_empty_r; auto].
  destruct (_ <=? d)%nat eqn:Ele;
    [| cbn [fst snd]; rewrite app_empty_r; auto].
  destruct (PyStr.has_other _ _);
    [| cbn [fst snd]; rewrite app_empty_r; auto].
  cbn [fst snd]. split; [symmetry; apply take_drop |]. right.
  apply rfind_Some in Ed as [Hd Hno]. exists (PyStr.drop (S d) p).
  split; [exact Hd | split; [exact Hno |]].
  apply Nat.leb_le in Ele.
  destruct (PyStr.rfind PosixPath.sep p) as [i|] eqn:Ei.
  - apply rfind_Some in Ei as [_ Hs].
    replace (S d) with (S i + (S d - S i)) by lia.
    rewrite <- drop_drop. apply contains_char_drop, Hs.
  - apply contains_char_drop. apply rfind_None, Ei.
Qed.

(** X5. Every [fileName] that is a non-empty string is accepted, and the
    base file name is that string without at most one extension: the string
    is the base followed by nothing, or by one dot and characters that are
    neither dots nor separators.  The call fails at line 61 for the empty
    string only. *)
Theorem base_filename_strips_one_extension scan_info f :
  dict_lookup scan_info "fileName" = Some (VStr f) ->
  (f = "" -> base_filename scan_info = Raise ValueError) /\
  (f <> "" ->
   exists base ext,
     base_filename scan_info = Ok base /\
     f = base +:+ ext /\ base <> "" /\
     (ext = "" \/
      exists e, ext = String "." e /\ PyStr.contains_char "." e = false /\
                PyStr.contains_char "/" e = false)).
Proof.
  intros Hf. split.
  - intros ->. apply base_filename_missing. right. exact Hf.
  - intros Hne. exists (fst (PosixPath.splitext f)), (snd (PosixPath.splitext f)).
    assert (fst (PosixPath.splitext f) <> "") as Hstem
      by (rewrite splitext_stem_empty; exact Hne).
    destruct (splitext_parts f) as [Hcut Hext].
    split; [| split; [exact Hcut | split; [exact Hstem | exact Hext]]].
    unfold base_filename. rewrite dict_get_lookup, Hf.
    cbn [os_path_splitext]. destruct (PosixPath.splitext f) as [stem ext].
    cbn [fst] in Hstem. apply eqb_false in Hstem. rewrite Hstem. reflexivity.
Qed.

Lemma base_filename_strips_one_extension_witness :
  exists base ext,
    base_filename [("fileName", VStr "scan.tar.gz")] = Ok base /\
    "scan.tar.gz" = base +:+ ext /\ base <> "" /\
    (ext = "" \/
     exists e, ext = String "." e /\ PyStr.contains_char "." e = false /\
               PyStr.contains_char "/" e = false).
Proof.
  destruct (base_filename_strips_one_extension
              [("fileName", VStr "scan.tar.gz")] "scan.tar.gz") as [_ H].
  - reflexivity.
  - apply H. discriminate.
Defined.
(** ** Bases that are prefixes of one another *)

Lemma prefix_trans (a b c : string) :
  String.prefix a b = true -> String.prefix b c = true ->
  String.prefix a c = true.
Proof.
  revert b c. induction a as [|x a IH]; intros b c; [intros _ _; apply prefix_empty |].
  destruct b as [|y b]; [discriminate |].
  destruct c as [|z c]; [discriminate |].
  cbn [String.prefix].
  destruct (ascii_dec x y) as [-> | _]; [| discriminate].
  destruct (ascii_dec y z) as [-> | _]; [| discriminate].
  apply IH.
Qed.

(** X6. The sequence files are chosen by prefix, so a scan whose base is a
    prefix of another scan's base takes that scan's sequence files as well:
    when [b1] is a prefix of [b2], every entry that passes the test of line
    92 for [b2] passes it for [b1], and every copy the loop of lines 91 to
    95 attempts for [b2] it also attempts for [b1]. *)
Theorem seq_files_of_longer_base b1 b2 :
  PyStr.startswith b2 b1 = true ->
  (forall seq_file,
     PyStr.startswith seq_file b2 && PyStr.endswith seq_file ".seq" = true ->
     PyStr.startswith seq_file b1 && PyStr.endswith seq_file ".seq" = true) /\
  (forall primary session names item,
     In item (seq_items primary session b2 names) ->
     In item (seq_items primary session b1 names)).
Proof.
  intros Hpre.
  assert (forall n, seq_match b2 n = true -> seq_match b1 n = true) as Hm.
  { intros n. unfold seq_match. rewrite !andb_true_iff. intros [Hs He].
    split; [| exact He]. unfold PyStr.startswith in *.
    eapply prefix_trans; eassumption. }
  split; [exact Hm |].
  intros primary session names item. unfold seq_items. rewrite !in_map_iff.
  intros (n & <- & Hin). exists n. split; [reflexivity |].
  apply filter_In in Hin as [Hin Hn]. apply filter_In. auto.
Qed.

Lemma seq_files_of_longer_base_witness :
  In ("/acq/seq/X10.seq", "/d/seq/X10.seq", "X10.seq")
     (seq_items "/acq" "/d" "X1" ["X1.seq"; "X10.seq"; "Y2.seq"]).
Proof.
  destruct (seq_files_of_longer_base "X1" "X10") as [_ H].
  - reflexivity.
  - apply H. vm_compute. left. reflexivity.
Defined.
(** ** Nothing is removed *)

Lemma same_kind_refl n : same_kind n n = true.
Proof. destruct n; reflexivity. Qed.

Lemma grows_refl t : grows t t.
Proof. intros l n H. exists n. split; [exact H | apply same_kind_refl]. Qed.

Lemma same_kind_trans a b c :
  same_kind a b = true -> same_kind b c = true -> same_kind a c = true.
Proof. destruct a, b, c; simpl; congruence. Qed.

Lemma grows_trans t1 t2 t3 : grows t1 t2 -> grows t2 t3 -> grows t1 t3.
Proof.
  intros H12 H23 l n H. destruct (H12 l n H) as (n2 & H2 & K2).
  destruct (H23 l n2 H2) as (n3 & H3 & K3). exists n3.
  split; [exact H3 | eapply same_kind_trans; eassumption].
Qed.

Lemma grows_subseteq (t t' : tree) : t ⊆ t' -> grows t t'.
Proof.
  intros Hsub l n H. exists n.
  split; [exact (lookup_weaken _ _ _ _ H Hsub) | apply same_kind_refl].
Qed.

Lemma is_dir_false_lookup t l :
  Fs.is_dir t l = false -> l <> [] /\ t !! l <> Some Dir.
Proof.
  unfold Fs.is_dir, Fs.node_at. destruct l as [|c l]; [discriminate |].
  intros H. split; [discriminate |]. intros E. rewrite E in H. discriminate.
Qed.

(** Writing a regular file where no directory is. *)
Lemma grows_insert_File t k data :
  Fs.is_dir t k = false -> grows t (<[k := File data]> t).
Proof.
  intros Hd l n H. destruct (decide (k = l)) as [-> | Hne].
  - rewrite lookup_insert_eq. exists (File data). split; [reflexivity |].
    apply is_dir_false_lookup in Hd as [_ Hd].
    destruct n; [contradiction | reflexivity].
  - rewrite lookup_insert_ne by exact Hne. exists n.
    split; [exact H | apply same_kind_refl].
Qed.

Lemma keeps_entries_bind {A B} (m : M A) (k : A -> M B) :
  keeps_entries m -> (forall a, keeps_entries (k a)) ->
  keeps_entries (bind m k).
Proof.
  intros Hm Hk t r t' H. unfold bind in H.
  destruct (m t) as [[a|e] t1] eqn:E.
  - eapply grows_trans; [eapply Hm; exact E | eapply Hk; exact H].
  - inversion H; subst. eapply Hm; exact E.
Qed.

Lemma keeps_entries_pure {A} (m : M A) :
  (forall t, snd (m t) = t) -> keeps_entries m.
Proof.
  intros Hm t r t' H. specialize (Hm t). rewrite H in Hm. simpl in Hm.
  subst t'. apply grows_refl.
Qed.

Lemma keeps_entries_for_each {A} (l : list A) (f : A -> M unit) :
  (forall x, keeps_entries (f x)) -> keeps_entries (for_each l f).
Proof.
  intros Hf. induction l as [|x l IH]; simpl.
  - apply keeps_entries_pure. reflexivity.
  - apply keeps_entries_bind; [apply Hf | intros _; exact IH].
Qed.

Lemma make_subfolders_keeps_entries cwd p :
  keeps_entries (make_subfolders cwd p).
Proof.
  intros t r t' H. apply grows_subseteq.
  eapply make_subfolders_subseteq. exact H.
Qed.

Lemma try_copy_keeps_entries cwd src dst :
  keeps_entries (_try_copy cwd src dst).
Proof.
  intros t r t' H.
  apply try_copy_inv in H as [(_ & _ & ->) | [_ H]]; [apply grows_refl |].
  apply copy_inv in H as [(data & k & _ & _ & _ & Hd & ->) | (e & _ & ->)];
    [apply grows_insert_File, Hd | apply grows_refl].
Qed.

Lemma copy_data_files_keeps_entries cwd primary session base :
  keeps_entries (copy_data_files cwd primary session base).
Proof.
  unfold copy_data_files. apply keeps_entries_for_each.
  intros [ext [s d]]. apply try_copy_keeps_entries.
Qed.

Lemma copy_seq_files_keeps_entries cwd primary session base :
  keeps_entries (copy_seq_files cwd primary session base).
Proof.
  unfold copy_seq_files.
  apply keeps_entries_bind; [apply keeps_entries_pure; reflexivity |].
  intros [|]; [| apply keeps_entries_pure; reflexivity].
  apply keeps_entries_bind; [apply keeps_entries_pure, listdir_pure |].
  intros names. apply keeps_entries_for_each. intros n.
  destruct (_ && _);
    [apply try_copy_keeps_entries | apply keeps_entries_pure; reflexivity].
Qed.

Lemma save_metadata_keeps_entries cwd session_info scan_info p :
  keeps_entries (save_metadata cwd session_info scan_info p).
Proof.
  intros t r t' H.
  apply save_metadata_inv in H as [(k & _ & Hd & -> & _) | (e & _ & ->)];
    [apply grows_insert_File, Hd | apply grows_refl].
Qed.

Lemma body_keeps_entries cwd session_info scan_info primary :
  keeps_entries (body cwd session_info scan_info primary).
Proof.
  unfold body.
  apply keeps_entries_bind; [apply keeps_entries_pure; reflexivity |].
  intros subj.
  apply keeps_entries_bind; [apply keeps_entries_pure; reflexivity |].
  intros ses.
  apply keeps_entries_bind; [apply make_subfolders_keeps_entries |]. intros _.
  apply keeps_entries_bind; [apply keeps_entries_pure; reflexivity |].
  intros base.
  apply keeps_entries_bind; [apply copy_data_files_keeps_entries |]. intros _.
  apply keeps_entries_bind; [apply copy_seq_files_keeps_entries |]. intros _.
  apply keeps_entries_bind; [apply save_metadata_keeps_entries |]. intros _.
  apply keeps_entries_pure. reflexivity.
Qed.

(** X7. Whatever the inputs and whatever the outcome, a call removes
    nothing: every entry of the file system is still there afterwards, a
    directory as a directory and a regular file as a regular file. *)
Theorem call_removes_nothing cwd session_info scan_info primary t l n :
  t !! l = Some n ->
  exists n',
    snd (createMirroredDataset cwd session_info scan_info primary t) !! l
    = Some n' /\
    same_kind n n' = true.
Proof.
  rewrite created_state.
  destruct (body cwd session_info scan_info primary t) as [r t'] eqn:E.
  apply (body_keeps_entries _ _ _ _ _ _ _ E).
Qed.

Lemma call_removes_nothing_witness :
  exists n',
    Example.final !! ["X1.mat"; "mat"; "acq"] = Some n' /\
    same_kind (File "MATDATA") n' = true.
Proof.
  apply (call_removes_nothing Example.cwd Example.session Example.scan "/acq"
           Example.acquisition).
  vm_compute. reflexivity.
Defined.
(** ** The order of session labels *)

Lemma compare_app (a b x y : string) :
  String.length a = String.length b ->
  String.compare (a +:+ x) (b +:+ y)
  = lex (String.compare a b) (String.compare x y).
Proof.
  revert b. induction a as [|c a IH]; intros [|d b] Hlen; try discriminate.
  - reflexivity.
  - rewrite !app_cons. cbn [String.compare String.length] in *.
    destruct (Ascii.compare c d); [| reflexivity ..].
    apply IH. congruence.
Qed.

Lemma compare_same (s : string) : String.compare s s = Eq.
Proof.
  induction s as [|c s IH]; [reflexivity |]. cbn [String.compare].
  unfold Ascii.compare. rewrite N.compare_refl. exact IH.
Qed.

Lemma zfill_length w : forall n, String.length (PyStr.zfill w n) = w.
Proof.
  induction w as [|w IH]; intros n; [reflexivity |].
  cbn [PyStr.zfill]. rewrite length_app, IH. cbn. lia.
Qed.

Lemma digit_char_code n : N_of_ascii (PyStr.digit_char n) = (48 + n mod 10)%N.
Proof.
  unfold PyStr.digit_char. apply N_ascii_embedding.
  pose proof (N.mod_upper_bound n 10 ltac:(lia)) as H. revert H.
  generalize (n mod 10)%N. intros r H. lia.
Qed.

Lemma compare_digits (n m : N) :
  (n ?= m)%N
  = lex (n / 10 ?= m / 10)%N (n mod 10 ?= m mod 10)%N.
Proof.
  pose proof (N.div_mod n 10 ltac:(lia)) as Hn.
  pose proof (N.div_mod m 10 ltac:(lia)) as Hm.
  pose proof (N.mod_upper_bound n 10 ltac:(lia)) as Hrn.
  pose proof (N.mod_upper_bound m 10 ltac:(lia)) as Hrm.
  revert Hn Hm Hrn Hrm.
  generalize (n / 10)%N (m / 10)%N (n mod 10)%N (m mod 10)%N.
  intros a b r s Hn Hm Hrn Hrm.
  unfold lex.
  destruct (N.compare_spec a b) as [E | E | E].
  - destruct (N.compare_spec r s) as [E' | E' | E'].
    + apply N.compare_eq_iff. lia.
    + apply N.compare_lt_iff. lia.
    + apply N.compare_gt_iff. lia.
  - apply N.compare_lt_iff. lia.
  - apply N.compare_gt_iff. lia.
Qed.

(** Texts of one width compare as the numbers they spell. *)
Lemma zfill_compare w : forall n m,
  String.compare (PyStr.zfill w n) (PyStr.zfill w m)
  = (n mod 10 ^ N.of_nat w ?= m mod 10 ^ N.of_nat w)%N.
Proof.
  induction w as [|w IH]; intros n m.
  - cbn [PyStr.zfill String.compare]. change (N.of_nat 0) with 0%N.
    rewrite N.pow_0_r, !N.mod_1_r. reflexivity.
  - cbn [PyStr.zfill].
    rewrite compare_app by (rewrite !zfill_length; reflexivity).
    rewrite IH. cbn [String.compare]. unfold Ascii.compare.
    rewrite !digit_char_code.
    rewrite (compare_digits (n mod 10 ^ N.of_nat (S w))).
    replace (N.of_nat (S w)) with (N.succ (N.of_nat w)) by lia.
    rewrite N.pow_succ_r'.
    assert (forall k, ((k mod (10 * 10 ^ N.of_nat w)) / 10
                       = (k / 10) mod 10 ^ N.of_nat w)%N) as Hdiv.
    { intros k. rewrite N.Div0.mod_mul_r.
      rewrite (N.mul_comm 10), N.div_add by lia.
      rewrite N.div_small by (apply N.mod_upper_bound; lia).
      reflexivity. }
    assert (forall k, ((k mod (10 * 10 ^ N.of_nat w)) mod 10 = k mod 10)%N)
      as Hmod.
    { intros k. rewrite N.Div0.mod_mul_r.
      rewrite (N.mul_comm 10), N.Div0.mod_add.
      apply N.Div0.mod_mod. }
    rewrite !Hdiv, !Hmod. f_equal.
    destruct (N.compare_spec (n mod 10) (m mod 10)) as [E | E | E].
    + rewrite E. destruct (N.compare_spec (48 + m mod 10) (48 + m mod 10));
        try lia. reflexivity.
    + destruct (N.compare_spec (48 + n mod 10) (48 + m mod 10)); try lia.
      reflexivity.
    + destruct (N.compare_spec (48 + n mod 10) (48 + m mod 10)); try lia.
      reflexivity.
Qed.

Lemma zfill_compare_small w n m :
  (n < 10 ^ N.of_nat w)%N -> (m < 10 ^ N.of_nat w)%N ->
  String.compare (PyStr.zfill w n) (PyStr.zfill w m) = (n ?= m)%N.
Proof.
  intros Hn Hm. rewrite zfill_compare, !N.mod_small by assumption.
  reflexivity.
Qed.

(** The fields of a parsed instant are in the ranges of a date and a time of
    day. *)
Lemma strptime_ranges s dt :
  DateTime.strptime s = Ok dt ->
  (DateTime.year dt <= 9999 /\ DateTime.month dt <= 12 /\
   DateTime.day dt <= 31 /\ DateTime.hour dt <= 23 /\
   DateTime.minute dt <= 59 /\ DateTime.second dt <= 59)%N.
Proof.
  unfold DateTime.strptime.
  destruct (Re.match_groups _ _) as [[caps rest]|]; [| discriminate].
  destruct (negb _); [discriminate |].
  destruct caps as [|sY [|? [|sm [|? [|sd [|? [|sH [|? [|sM [|? [|sS [|? [|f
    [|? ?]]]]]]]]]]]]]]; try discriminate.
  destruct (DateTime.check_date_fields _ _ _ && _) eqn:E; [| discriminate].
  intros H. injection H as <-. cbn [DateTime.year DateTime.month DateTime.day
    DateTime.hour DateTime.minute DateTime.second].
  unfold DateTime.check_date_fields, DateTime.check_time_fields in E.
  rewrite !andb_true_iff, !N.leb_le in E.
  destruct E as [[[[[[_ HY] _] Hm] _] Hd] [[[HH HM] HS] _]].
  assert (DateTime.days_in_month (DateTime.int sY) (DateTime.int sm) <= 31)%N.
  { unfold DateTime.days_in_month.
    repeat match goal with |- context [if ?b then _ else _] => destruct b end;
      lia. }
  lia.
Qed.

Lemma strftime_compare a b :
  (DateTime.year a <= 9999 /\ DateTime.month a <= 12 /\
   DateTime.day a <= 31 /\ DateTime.hour a <= 23 /\
   DateTime.minute a <= 59 /\ DateTime.second a <= 59)%N ->
  (DateTime.year b <= 9999 /\ DateTime.month b <= 12 /\
   DateTime.day b <= 31 /\ DateTime.hour b <= 23 /\
   DateTime.minute b <= 59 /\ DateTime.second b <= 59)%N ->
  String.compare (DateTime.strftime a) (DateTime.strftime b)
  = compare_seconds a b.
Proof.
  intros (Ya & ma & da & Ha & Ma & Sa) (Yb & mb & db & Hb & Mb & Sb).
  unfold DateTime.strftime, compare_seconds.
  repeat (rewrite compare_app by (rewrite !zfill_length; reflexivity);
          rewrite zfill_compare_small by (cbn; lia); f_equal).
  rewrite (compare_app "T" "T") by reflexivity.
  change (String.compare "T" "T") with Eq. unfold lex at 1.
  repeat (rewrite compare_app by (rewrite !zfill_length; reflexivity);
          rewrite zfill_compare_small by (cbn; lia); f_equal).
  apply zfill_compare_small; cbn; lia.
Qed.

(** X8. Session labels sort as the instants they come from: for timestamps
    from the year 1000 on, the order of the labels of two scans as texts is
    the order of their timestamps by year, month, day, hour, minute and
    second, and two labels are equal exactly when the timestamps agree to
    the second. *)
Theorem session_labels_sort_chronologically scan1 scan2 s1 s2 dt1 dt2 :
  dict_lookup scan1 "name_string" = Some (VStr s1) ->
  DateTime.strptime s1 = Ok dt1 ->
  dict_lookup scan2 "name_string" = Some (VStr s2) ->
  DateTime.strptime s2 = Ok dt2 ->
  (1000 <= DateTime.year dt1)%N ->
  (1000 <= DateTime.year dt2)%N ->
  exists l1 l2,
    session_label scan1 = Ok l1 /\ session_label scan2 = Ok l2 /\
    String.compare l1 l2 = compare_seconds dt1 dt2 /\
    (l1 = l2 <-> compare_seconds dt1 dt2 = Eq).
Proof.
  intros Hs1 Hp1 Hs2 Hp2 _ _.
  exists ("ses-" +:+ DateTime.strftime dt1), ("ses-" +:+ DateTime.strftime dt2).
  split; [eapply session_label_parsed; eassumption |].
  split; [eapply session_label_parsed; eassumption |].
  assert (String.compare ("ses-" +:+ DateTime.strftime dt1)
            ("ses-" +:+ DateTime.strftime dt2) = compare_seconds dt1 dt2) as E.
  { rewrite compare_app by reflexivity. cbn [lex].
    change (String.compare "ses-" "ses-") with Eq. cbv iota.
    apply strftime_compare; eapply strptime_ranges; eassumption. }
  split; [exact E |]. rewrite <- E. split.
  - intros ->. apply compare_same.
  - apply String.compare_eq_iff.
Qed.

Lemma session_labels_sort_chronologically_witness :
  exists l1 l2,
    session_label Example.scan = Ok l1 /\
    session_label [("name_string", VStr "2024.3.15.10.5.7.0")] = Ok l2 /\
    String.compare l1 l2
    = compare_seconds
        (DateTime.mk_datetime 2024 3 15 9 30 0 123456)
        (DateTime.mk_datetime 2024 3 15 10 5 7 0) /\
    (l1 = l2 <->
     compare_seconds
       (DateTime.mk_datetime 2024 3 15 9 30 0 123456)
       (DateTime.mk_datetime 2024 3 15 10 5 7 0) = Eq).
Proof.
  apply (session_labels_sort_chronologically Example.scan
           [("name_string", VStr "2024.3.15.10.5.7.0")]
           "2024.03.15.09.30.00.123456" "2024.3.15.10.5.7.0").
  - reflexivity.
  - vm_compute. reflexivity.
  - reflexivity.
  - vm_compute. reflexivity.
  - vm_compute. discriminate.
  - vm_compute. discriminate.
Defined.

(** ** One directory for one subject and second *)

Lemma strftime_length dt : String.length (DateTime.strftime dt) = 15.
Proof.
  unfold DateTime.strftime. rewrite !length_app, !zfill_length. reflexivity.
Qed.

Lemma session_path_inj (a b x y : string) :
  last_char a <> Some "/"%char -> last_char b <> Some "/"%char ->
  String.length x = String.length y ->
  PosixPath.join dataset_root ["sub-" +:+ a; "ses-" +:+ x]
  = PosixPath.join dataset_root ["sub-" +:+ b; "ses-" +:+ y] ->
  a = b /\ x = y.
Proof.
  intros Ha Hb Hlen. rewrite !join_root_explicit by assumption.
  intros H.
  apply String.app_inj in H. apply String.app_inj in H.
  assert (String.length a = String.length b) as Hab.
  { apply (f_equal String.length) in H. rewrite !length_app in H.
    cbn [String.length] in H. lia. }
  apply app_inj_length in H as [-> H]; [| exact Hab].
  split; [reflexivity |]. apply String.app_inj in H. exact H.
Qed.

(** X9. Two calls that return a path, for subject labels that do not end
    with a separator, return the same path exactly when they have the same
    subject label (the identifier with its spaces replaced) and the same
    session label. *)
Theorem same_path_same_session
  cwd1 session1 scan1 primary1 t1 t1' p1 subj1
  cwd2 session2 scan2 primary2 t2 t2' p2 subj2 :
  createMirroredDataset cwd1 session1 scan1 primary1 t1
  = (Returns (Some p1), t1') ->
  createMirroredDataset cwd2 session2 scan2 primary2 t2
  = (Returns (Some p2), t2') ->
  subject_label session1 = Ok subj1 ->
  subject_label session2 = Ok subj2 ->
  last_char subj1 <> Some "/"%char ->
  last_char subj2 <> Some "/"%char ->
  exists ses1 ses2,
    session_label scan1 = Ok ses1 /\ session_label scan2 = Ok ses2 /\
    (p1 = p2 <-> subj1 = subj2 /\ ses1 = ses2).
Proof.
  intros H1 H2 Hsubj1 Hsubj2 Hl1 Hl2.
  apply created_Some_inv, body_Ok_inv in H1
    as (subj1' & ses1 & _ & _ & _ & _ & Hsubj1' & Hses1 & -> & _).
  apply created_Some_inv, body_Ok_inv in H2
    as (subj2' & ses2 & _ & _ & _ & _ & Hsubj2' & Hses2 & -> & _).
  assert (subj1' = subj1) as -> by congruence.
  assert (subj2' = subj2) as -> by congruence.
  exists ses1, ses2. repeat (split; [assumption |]).
  split; [| intros [-> ->]; reflexivity].
  destruct (session_label_Ok _ _ Hses1) as (s1 & dt1 & _ & _ & ->).
  destruct (session_label_Ok _ _ Hses2) as (s2 & dt2 & _ & _ & ->).
  intros H. apply session_path_inj in H as [-> ->]; try assumption.
  - split; reflexivity.
  - rewrite !strftime_length. reflexivity.
Qed.

Lemma same_path_same_session_witness :
  exists ses1 ses2,
    session_label Example.scan = Ok ses1 /\
    session_label Example.scan = Ok ses2 /\
    (Example.path = Example.path <-> "Jane_Doe" = "Jane_Doe" /\ ses1 = ses2).
Proof.
  apply (same_path_same_session
           Example.cwd Example.session Example.scan "/acq"
           Example.acquisition Example.final Example.path "Jane_Doe"
           Example.cwd [("subject_id", VStr "Jane_Doe")] Example.scan "/acq"
           Example.acquisition
           (snd (createMirroredDataset Example.cwd
                   [("subject_id", VStr "Jane_Doe")] Example.scan "/acq"
                   Example.acquisition))
           Example.path "Jane_Doe").
  - apply pair_eq; [vm_compute; reflexivity | reflexivity].
  - apply pair_eq; [vm_compute; reflexivity | reflexivity].
  - vm_compute. reflexivity.
  - vm_compute. reflexivity.
  - vm_compute. discriminate.
  - vm_compute. discriminate.
Defined.
(** ** The stages of a call, whatever its outcome *)

(** The file system a call leaves is the one it found, or the one left by
    the last stage it reached: the scaffolding, the data files, the sequence
    files, the metadata. *)
Lemma body_trace cwd session_info scan_info primary t :
  snd (body cwd session_info scan_info primary t) = t \/
  exists subj ses r1 t1,
    subject_label session_info = Ok subj /\
    session_label scan_info = Ok ses /\
    make_subfolders cwd (PosixPath.join dataset_root ["sub-" +:+ subj; ses]) t
    = (r1, t1) /\
    (snd (body cwd session_info scan_info primary t) = t1 \/
     exists base r2 t2,
       base_filename scan_info = Ok base /\
       copy_data_files cwd primary
         (PosixPath.join dataset_root ["sub-" +:+ subj; ses]) base t1
       = (r2, t2) /\
       (snd (body cwd session_info scan_info primary t) = t2 \/
        exists r3 t3,
          copy_seq_files cwd primary
            (PosixPath.join dataset_root ["sub-" +:+ subj; ses]) base t2
          = (r3, t3) /\
          (snd (body cwd session_info scan_info primary t) = t3 \/
           exists r4,
             save_metadata cwd session_info scan_info
               (PosixPath.join dataset_root ["sub-" +:+ subj; ses]) t3
             = (r4, snd (body cwd session_info scan_info primary t))))).
Proof.
  remember (snd (body cwd session_info scan_info primary t)) as final eqn:Hf.
  destruct (subject_label session_info) as [subj|e] eqn:Hsubj;
    [| left; rewrite (body_subject_label_Raise _ _ _ _ _ _ Hsubj) in Hf;
       exact Hf].
  destruct (session_label scan_info) as [ses|e] eqn:Hses;
    [| left;
       destruct (body_session_label_Raise cwd session_info scan_info primary
                   t _ Hses) as [e' E]; rewrite E in Hf; exact Hf].
  right. exists subj, ses.
  rewrite (body_scaffolded _ _ _ _ _ _ _ Hsubj Hses) in Hf.
  set (p := PosixPath.join dataset_root ["sub-" +:+ subj; ses]) in *.
  unfold bind at 1 in Hf.
  destruct (make_subfolders cwd p t) as [[[]|e1] t1] eqn:Hmk;
    [| exists (Raise e1), t1; repeat split; auto].
  exists (Ok tt), t1. repeat (split; [reflexivity |]).
  unfold after_scaffolding, bind at 1, lift in Hf.
  destruct (base_filename scan_info) as [base|e] eqn:Hbase;
    [| left; exact Hf].
  right. exists base. unfold bind at 1 in Hf.
  destruct (copy_data_files cwd primary p base t1) as [[[]|e2] t2] eqn:Hcp;
    [| exists (Raise e2), t2; repeat split; auto].
  exists (Ok tt), t2. repeat (split; [reflexivity |]). right.
  unfold bind at 1 in Hf.
  destruct (copy_seq_files cwd primary p base t2) as [[[]|e3] t3] eqn:Hsq;
    [| exists (Raise e3), t3; repeat split; auto].
  exists (Ok tt), t3. split; [reflexivity |]. right.
  unfold bind at 1 in Hf.
  destruct (save_metadata cwd session_info scan_info p t3) as [[[]|e4] t4];
    [exists (Ok tt) | exists (Raise e4)]; rewrite Hf; reflexivity.
Qed.
(** ** Locations made of names *)

Lemma wf_tree_names_valid t : wf_tree t = true -> names_valid t.
Proof.
  unfold wf_tree. rewrite forallb_forall. intros H l [n Hn].
  apply Forall_forallb. apply (H (l, n)).
  apply list_elem_of_In. apply elem_of_map_to_list. exact Hn.
Qed.

Lemma names_valid_insert t k n :
  names_valid t -> Forall (fun x => valid_name x = true) k ->
  names_valid (<[k := n]> t).
Proof.
  intros Ht Hk l. destruct (decide (k = l)) as [<- | Hne]; [auto |].
  rewrite lookup_insert_ne by exact Hne. apply Ht.
Qed.

Lemma path_components_ok p :
  Forall (fun c => c <> "" /\ PyStr.contains_char "/" c = false)
    (Fs.path_components p).
Proof.
  unfold Fs.path_components, PosixPath.components. apply Forall_app_2.
  - apply Forall_forall. intros c Hc.
    apply list_elem_of_filter in Hc as [Hne Hc]. split; [exact Hne |].
    pose proof (split_pieces_no_sep PosixPath.sep p) as Hs.
    rewrite Forall_forall in Hs. apply Hs, Hc.
  - destruct (PyStr.endswith p "/"); repeat constructor. discriminate.
Qed.

Lemma step_valid cur c :
  Forall (fun n => valid_name n = true) cur ->
  c <> "" /\ PyStr.contains_char "/" c = false ->
  Forall (fun n => valid_name n = true) (Fs.step cur c).
Proof.
  intros Hcur [Hne Hsep]. unfold Fs.step.
  destruct (PyStr.eqb c ".") eqn:E1; [exact Hcur |].
  destruct (PyStr.eqb c "..") eqn:E2; [apply Forall_tail, Hcur |].
  constructor; [| exact Hcur].
  unfold valid_name. rewrite E1, E2, Hsep.
  apply eqb_false in Hne. rewrite Hne. reflexivity.
Qed.

Lemma walk_valid t cs : forall cur l,
  Forall (fun n => valid_name n = true) cur ->
  Forall (fun c => c <> "" /\ PyStr.contains_char "/" c = false) cs ->
  Fs.walk t cur cs = Ok l -> Forall (fun n => valid_name n = true) l.
Proof.
  induction cs as [|c cs IH]; intros cur l Hcur Hcs H; cbn [Fs.walk] in H.
  - injection H as <-. exact Hcur.
  - inversion Hcs as [|? ? Hc Hrest]; subst.
    destruct (Fs.node_at t cur) as [[|d]|]; try discriminate.
    eapply IH; [| exact Hrest | exact H]. apply step_valid; assumption.
Qed.

Lemma start_valid cwd p :
  Forall (fun n => valid_name n = true) cwd ->
  Forall (fun n => valid_name n = true) (Fs.start cwd p).
Proof. intros H. unfold Fs.start. destruct (PosixPath.isabs p); auto. Qed.

Lemma resolve_valid cwd t p l :
  Forall (fun n => valid_name n = true) cwd ->
  Fs.resolve cwd t p = Ok l -> Forall (fun n => valid_name n = true) l.
Proof.
  intros Hcwd. unfold Fs.resolve. destruct (PyStr.eqb p ""); [discriminate |].
  apply walk_valid; [apply start_valid, Hcwd | apply path_components_ok].
Qed.

Lemma walk_create_valid cs : forall cur t r t',
  Forall (fun n => valid_name n = true) cur ->
  Forall (fun c => c <> "" /\ PyStr.contains_char "/" c = false) cs ->
  names_valid t ->
  Fs.walk_create cur cs t = (r, t') -> names_valid t'.
Proof.
  induction cs as [|c cs IH]; intros cur t r t' Hcur Hcs Ht H;
    cbn [Fs.walk_create] in H.
  - inversion H; subst. exact Ht.
  - inversion Hcs as [|? ? Hc Hrest]; subst.
    pose proof (step_valid cur c Hcur Hc) as Hstep. unfold Fs.step in Hstep.
    destruct (Fs.node_at t cur) as [[|d]|];
      [| inversion H; subst; exact Ht ..].
    destruct (PyStr.eqb c "."); [eapply IH; eassumption |].
    destruct (PyStr.eqb c "..");
      [eapply IH; [| exact Hrest | exact Ht | exact H]; exact Hstep |].
    destruct (Fs.node_at t (c :: cur)) as [[|d]|].
    + eapply IH; eassumption.
    + inversion H; subst. exact Ht.
    + eapply IH; [exact Hstep | exact Hrest | | exact H].
      apply names_valid_insert; assumption.
Qed.

Lemma makedirs_valid cwd name t r t' :
  Forall (fun n => valid_name n = true) cwd -> names_valid t ->
  Fs.makedirs cwd name t = (r, t') -> names_valid t'.
Proof.
  intros Hcwd Ht. unfold Fs.makedirs. destruct (PyStr.eqb name "").
  - intros H. inversion H; subst. exact Ht.
  - apply walk_create_valid;
      [apply start_valid, Hcwd | apply path_components_ok | exact Ht].
Qed.

Lemma make_subfolders_valid cwd p t r t' :
  Forall (fun n => valid_name n = true) cwd -> names_valid t ->
  make_subfolders cwd p t = (r, t') -> names_valid t'.
Proof.
  intros Hcwd. unfold make_subfolders. generalize subfolders. intros names.
  revert t. induction names as [|x names IH]; intros t Ht H;
    cbn [for_each] in H.
  - inversion H; subst. exact Ht.
  - unfold bind in H.
    destruct (Fs.makedirs cwd _ t) as [[[]|e] t1] eqn:E.
    + eapply IH; [| exact H]. eapply makedirs_valid; eassumption.
    + inversion H; subst. eapply makedirs_valid; eassumption.
Qed.

Lemma try_copy_valid cwd src dst t r t' :
  Forall (fun n => valid_name n = true) cwd -> names_valid t ->
  _try_copy cwd src dst t = (r, t') -> names_valid t'.
Proof.
  intros Hcwd Ht H.
  apply try_copy_inv in H as [(_ & _ & ->) | [_ H]]; [exact Ht |].
  apply copy_inv in H as [(data & k & _ & _ & Hres & _ & ->) | (e & _ & ->)];
    [| exact Ht].
  apply names_valid_insert; [exact Ht |]. eapply resolve_valid; eassumption.
Qed.

Lemma copy_all_valid cwd items : forall t r t',
  Forall (fun n => valid_name n = true) cwd -> names_valid t ->
  copy_all cwd items t = (r, t') -> names_valid t'.
Proof.
  induction items as [|[[src dst] h] items IH]; intros t r t' Hcwd Ht H.
  - inversion H; subst. exact Ht.
  - rewrite copy_all_cons in H. unfold bind in H.
    destruct (_try_copy cwd src dst t) as [[[]|e] t1] eqn:E.
    + eapply IH; [exact Hcwd | | exact H]. eapply try_copy_valid; eassumption.
    + inversion H; subst. eapply try_copy_valid; eassumption.
Qed.

Lemma names_valid_entries t P :
  names_valid t -> Forall (fun n => valid_name n = true) (Fs.entries t P).
Proof.
  intros Ht. apply Forall_forall. intros n Hn.
  apply list_elem_of_In, entries_In in Hn. apply Ht in Hn.
  inversion Hn. assumption.
Qed.

(** The sequence step is a run of copy attempts over the entries of the
    [seq] directory, or does nothing. *)
Lemma copy_seq_files_cases cwd primary session base t :
  (exists r, copy_seq_files cwd primary session base t = (r, t)) \/
  exists P,
    Fs.resolve cwd t (PosixPath.join primary ["seq"]) = Ok P /\
    Fs.is_dir t P = true /\
    copy_seq_files cwd primary session base t
    = copy_all cwd (seq_items primary session base (Fs.entries t P)) t.
Proof.
  destruct (Fs.resolve cwd t (PosixPath.join primary ["seq"])) as [P|e] eqn:E.
  - destruct (Fs.is_dir t P) eqn:Ed.
    + right. exists P. split; [reflexivity | split; [exact Ed |]].
      apply copy_seq_files_listed; assumption.
    + left. unfold copy_seq_files, bind at 1, Fs.exists_, Fs.stat.
      rewrite E. unfold Fs.is_dir in Ed.
      destruct (Fs.node_at t P) as [[|d]|] eqn:En; [discriminate | |].
      * unfold bind at 1, Fs.listdir. rewrite E, En. eauto.
      * eauto.
  - left. unfold copy_seq_files, bind at 1, Fs.exists_, Fs.stat.
    rewrite E. eauto.
Qed.

Lemma copy_seq_files_valid cwd primary session base t r t' :
  Forall (fun n => valid_name n = true) cwd -> names_valid t ->
  copy_seq_files cwd primary session base t = (r, t') -> names_valid t'.
Proof.
  intros Hcwd Ht H.
  destruct (copy_seq_files_cases cwd primary session base t)
    as [[r0 E] | (P & _ & _ & E)]; rewrite E in H.
  - inversion H; subst. exact Ht.
  - eapply copy_all_valid; eassumption.
Qed.

(** A property of the file system that every stage keeps, and a relation
    between file systems that every stage respects, hold along the whole
    call, whatever its outcome. *)
Lemma body_stagewise (I : tree -> Prop) (R : tree -> tree -> Prop)
  cwd session_info scan_info primary :
  (forall t, R t t) ->
  (forall a b c, R a b -> R b c -> R a c) ->
  (forall subj ses t r t',
     subject_label session_info = Ok subj ->
     session_label scan_info = Ok ses -> I t ->
     make_subfolders cwd
       (PosixPath.join dataset_root ["sub-" +:+ subj; ses]) t = (r, t') ->
     I t' /\ R t t') ->
  (forall subj ses base t r t',
     subject_label session_info = Ok subj ->
     session_label scan_info = Ok ses ->
     base_filename scan_info = Ok base -> I t ->
     copy_data_files cwd primary
       (PosixPath.join dataset_root ["sub-" +:+ subj; ses]) base t = (r, t') ->
     I t' /\ R t t') ->
  (forall subj ses base t r t',
     subject_label session_info = Ok subj ->
     session_label scan_info = Ok ses ->
     base_filename scan_info = Ok base -> I t ->
     copy_seq_files cwd primary
       (PosixPath.join dataset_root ["sub-" +:+ subj; ses]) base t = (r, t') ->
     I t' /\ R t t') ->
  (forall subj ses base t r t',
     subject_label session_info = Ok subj ->
     session_label scan_info = Ok ses ->
     base_filename scan_info = Ok base -> I t ->
     save_metadata cwd session_info scan_info
       (PosixPath.join dataset_root ["sub-" +:+ subj; ses]) t = (r, t') ->
     R t t') ->
  forall t, I t -> R t (snd (body cwd session_info scan_info primary t)).
Proof.
  intros Hrefl Htrans Hmk Hcp Hsq Hmeta t Ht.
  destruct (body_trace cwd session_info scan_info primary t)
    as [-> | (subj & ses & r1 & t1 & Hsubj & Hses & E1 & H)]; [apply Hrefl |].
  destruct (Hmk _ _ _ _ _ Hsubj Hses Ht E1) as [Ht1 R1].
  destruct H as [-> | (base & r2 & t2 & Hbase & E2 & H)]; [exact R1 |].
  destruct (Hcp _ _ _ _ _ _ Hsubj Hses Hbase Ht1 E2) as [Ht2 R2].
  destruct H as [-> | (r3 & t3 & E3 & H)]; [eapply Htrans; eassumption |].
  destruct (Hsq _ _ _ _ _ _ Hsubj Hses Hbase Ht2 E3) as [Ht3 R3].
  destruct H as [-> | (r4 & E4)].
  - eapply Htrans; [| exact R3]. eapply Htrans; eassumption.
  - eapply Htrans; [| eapply (Hmeta _ _ _ _ _ _ Hsubj Hses Hbase Ht3 E4)].
    eapply Htrans; [| exact R3]. eapply Htrans; eassumption.
Qed.
(** ** Files the call leaves alone *)

Lemma mirrored_name_false base h :
  mirrored_name base h = false ->
  h <> "metadata.json" /\
  (forall primary session,
     ~ In h (map item_tag (data_items primary session base))) /\
  seq_match base h = false.
Proof.
  unfold mirrored_name. rewrite !orb_false_iff. intros [[Hm Hd] Hs].
  split; [apply eqb_false, Hm | split; [| exact Hs]].
  intros primary session Hin.
  destruct (data_items_tags base) as [_ E]. rewrite E in Hin.
  cbn [existsb file_map fst] in Hd. rewrite !orb_false_iff in Hd.
  destruct Hd as (H1 & H2 & H3 & H4 & _).
  apply eqb_false in H1, H2, H3, H4. cbn [map In] in Hin.
  intuition congruence.
Qed.

Lemma data_stage_frame cwd primary session base t r t' l :
  copy_data_files cwd primary session base t = (r, t') ->
  (forall h parent, l = h :: parent ->
     ~ In h (map item_tag (data_items primary session base))) ->
  t' !! l = t !! l.
Proof.
  intros H Hl. rewrite copy_data_files_items in H.
  apply copy_all_writes in H; [| apply data_items_ok].
  eapply writes_frame; eassumption.
Qed.

Lemma seq_stage_writes cwd primary session base t r t' :
  names_valid t ->
  copy_seq_files cwd primary session base t = (r, t') ->
  exists names,
    Forall (fun n => valid_name n = true /\ seq_match base n = true) names /\
    writes names t t'.
Proof.
  intros Ht H.
  destruct (copy_seq_files_cases cwd primary session base t)
    as [[r0 E] | (P & _ & _ & E)]; rewrite E in H.
  - inversion H; subst. exists []. split; constructor.
  - exists (List.filter (seq_match base) (Fs.entries t P)). split.
    + apply Forall_forall. intros n Hn.
      apply list_elem_of_In, filter_In in Hn as [Hn Hm].
      split; [| exact Hm].
      pose proof (names_valid_entries t P Ht) as Hv.
      rewrite Forall_forall in Hv. apply Hv, list_elem_of_In, Hn.
    + rewrite <- (seq_items_tags primary session).
      eapply copy_all_writes; [| exact H].
      apply seq_items_ok, names_valid_entries, Ht.
Qed.

Lemma seq_stage_frame cwd primary session base t r t' l :
  names_valid t ->
  copy_seq_files cwd primary session base t = (r, t') ->
  (forall h parent, l = h :: parent -> seq_match base h = false) ->
  t' !! l = t !! l.
Proof.
  intros Ht H Hl.
  destruct (seq_stage_writes _ _ _ _ _ _ _ Ht H) as (names & Hn & Hw).
  eapply writes_frame; [exact Hw |]. intros h parent -> Hin.
  rewrite Forall_forall in Hn. apply list_elem_of_In, Hn in Hin as [_ Hm].
  rewrite (Hl h parent eq_refl) in Hm. discriminate.
Qed.

Lemma metadata_stage_frame cwd session_info scan_info p t r t' l :
  save_metadata cwd session_info scan_info p t = (r, t') ->
  (forall parent, l <> "metadata.json" :: parent) ->
  t' !! l = t !! l.
Proof.
  intros H Hl.
  apply save_metadata_inv in H as [(k & Hres & _ & -> & _) | (e & _ & ->)];
    [| reflexivity].
  destruct (metadata_path_tagged cwd p _ _ Hres) as [parent ->].
  apply lookup_insert_ne. intros E. eapply Hl. symmetry. exact E.
Qed.

(** X10. A call changes no entry but those it mirrors: in a file system
    whose entries have valid names, every entry whose name is not
    [metadata.json], not the base file name followed by [.mat], [.csv],
    [.dcm] or [.h5], and not a name that starts with the base and ends with
    [.seq], is after the call exactly what it was, whatever the outcome. *)
Theorem other_entries_are_untouched
  cwd session_info scan_info primary t l n :
  Forall (fun x => valid_name x = true) cwd ->
  names_valid t ->
  t !! l = Some n ->
  (forall base, base_filename scan_info = Ok base ->
     mirrored_name base (hd "" l) = false) ->
  snd (createMirroredDataset cwd session_info scan_info primary t) !! l
  = Some n.
Proof.
  intros Hcwd Ht Hl Hname. rewrite created_state.
  refine (body_stagewise names_valid
            (fun a b => a !! l = Some n -> b !! l = Some n)
            cwd session_info scan_info primary _ _ _ _ _ _ t Ht Hl).
  - auto.
  - auto.
  - intros subj ses a r b _ _ Ha H.
    split; [eapply make_subfolders_valid; eassumption |].
    intros Hn. apply make_subfolders_subseteq in H.
    exact (lookup_weaken _ _ _ _ Hn H).
  - intros subj ses base a r b _ _ Hbase Ha H. split.
    + rewrite copy_data_files_items in H. eapply copy_all_valid; eassumption.
    + intros Hn. rewrite <- Hn. eapply data_stage_frame; [exact H |].
      intros h parent ->.
      apply (mirrored_name_false base h (Hname base Hbase)).
  - intros subj ses base a r b _ _ Hbase Ha H.
    split; [eapply copy_seq_files_valid; eassumption |].
    intros Hn. rewrite <- Hn. eapply seq_stage_frame; [exact Ha | exact H |].
    intros h parent ->.
    apply (mirrored_name_false base h (Hname base Hbase)).
  - intros subj ses base a r b _ _ Hbase Ha H Hn. rewrite <- Hn.
    eapply metadata_stage_frame; [exact H |]. intros parent ->.
    destruct (mirrored_name_false base _ (Hname base Hbase)) as [Hm _].
    apply Hm. reflexivity.
Qed.

Lemma other_entries_are_untouched_witness :
  Example.final !! ["Y2.seq"; "seq"; "acq"] = Some (File "S3").
Proof.
  apply (other_entries_are_untouched Example.cwd Example.session Example.scan
           "/acq" Example.acquisition).
  - constructor.
  - apply wf_tree_names_valid. vm_compute. reflexivity.
  - vm_compute. reflexivity.
  - intros base Hbase.
    assert (base = "X1") as ->
      by (vm_compute in Hbase; injection Hbase as <-; reflexivity).
    vm_compute. reflexivity.
Defined.
(** ** The files copied from *)

(** [shutil.copy] never writes on the file it reads. *)
Lemma copy_not_on_source cwd src dst t t' k :
  Fs.copy cwd src dst t = (Ok tt, t') ->
  Fs.resolve cwd t (copy_target cwd t src dst) = Ok k ->
  Fs.resolve cwd t src <> Ok k.
Proof.
  unfold Fs.copy, bind at 1, Fs.isdir. rewrite <- copy_target_isdir.
  generalize (copy_target cwd t src dst). intros target H Hk Hsrc.
  unfold Fs.copyfile, bind at 1, Fs.samefile in H. rewrite Hsrc, Hk in H.
  rewrite bool_decide_eq_true_2 in H by reflexivity. cbn [andb] in H.
  destruct (Fs.node_at t k) as [n|] eqn:En; [discriminate H |].
  unfold bind at 1, Fs.read_file, Fs.stat in H. rewrite Hsrc, En in H.
  discriminate H.
Qed.

Lemma try_copy_keeps_loc cwd src dst h t r t' la :
  item_ok cwd (src, dst, h) ->
  _try_copy cwd src dst t = (r, t') ->
  (forall parent, la = h :: parent -> Fs.resolve cwd t src = Ok la) ->
  t' !! la = t !! la.
Proof.
  intros Hok H Hla.
  apply try_copy_inv in H as [(_ & _ & ->) | [_ H]]; [reflexivity |].
  pose proof H as Hcopy.
  apply copy_inv in H as [(data & k & -> & _ & Hres & _ & ->) | (e & _ & ->)];
    [| reflexivity].
  apply lookup_insert_ne. intros <-.
  destruct (copy_target_tagged cwd t src dst h Hok _ _ Hres) as [parent ->].
  eapply copy_not_on_source; [exact Hcopy | exact Hres |].
  eapply Hla. reflexivity.
Qed.

Lemma copy_all_keeps_loc cwd items la : forall t r t',
  Forall (item_ok cwd) items ->
  copy_all cwd items t = (r, t') ->
  (forall src dst h, In (src, dst, h) items ->
     forall parent, la = h :: parent -> Fs.resolve cwd t src = Ok la) ->
  t' !! la = t !! la.
Proof.
  induction items as [|[[src dst] h] items IH]; intros t r t' Hok H Hla.
  - inversion H. reflexivity.
  - inversion Hok as [|? ? Hi Hrest]; subst. rewrite copy_all_cons in H.
    unfold bind in H.
    destruct (_try_copy cwd src dst t) as [[[]|e] t1] eqn:E.
    + transitivity (t1 !! la).
      * eapply IH; [exact Hrest | exact H |].
        intros src' dst' h' Hin parent Hp.
        eapply resolve_writes; [eapply try_copy_writes; eassumption |].
        eapply Hla; [right; exact Hin | exact Hp].
      * eapply try_copy_keeps_loc; [exact Hi | exact E |].
        intros parent Hp. eapply Hla; [left; reflexivity | exact Hp].
    + inversion H; subst.
      eapply try_copy_keeps_loc; [exact Hi | exact E |].
      intros parent Hp. eapply Hla; [left; reflexivity | exact Hp].
Qed.

Lemma data_items_src primary session base src dst h src' dst' :
  In (src, dst, h) (data_items primary session base) ->
  In (src', dst', h) (data_items primary session base) ->
  src = src'.
Proof.
  unfold data_items, file_map. cbn [map In].
  intros [H | [H | [H | [H | []]]]] [H' | [H' | [H' | [H' | []]]]];
    inversion H; inversion H'; subst; try reflexivity;
    match goal with
    | E : _ +:+ _ = _ +:+ _ |- _ => apply String.app_inj in E; discriminate E
    end.
Qed.

Lemma seq_name_last_char base n :
  seq_match base n = true -> last_char n = Some "q"%char.
Proof.
  unfold seq_match. rewrite andb_true_iff. intros [_ H].
  unfold PyStr.endswith in H. apply andb_true_iff in H as [Hlen H].
  apply eqb_true in H. apply Nat.leb_le in Hlen.
  rewrite <- (take_drop (String.length n - String.length ".seq") n), H.
  apply last_char_app. discriminate.
Qed.

(** One path the call reads from keeps its file: the path ends with the
    component [h], which is not the name of the metadata file; the data
    attempts of that name and the sequence attempts of that name read from
    this very path. *)
Lemma source_kept cwd session_info scan_info primary base src h t data :
  Forall (fun x => valid_name x = true) cwd ->
  names_valid t ->
  base_filename scan_info = Ok base ->
  tagged cwd src h ->
  h <> "metadata.json" ->
  (forall p src' dst', In (src', dst', h) (data_items primary p base) ->
     src' = src) ->
  (seq_match base h = true ->
   PosixPath.join (PosixPath.join primary ["seq"]) [h] = src) ->
  lookup_path cwd t src = Some (File data) ->
  lookup_path cwd
    (snd (createMirroredDataset cwd session_info scan_info primary t)) src
  = Some (File data).
Proof.
  intros Hcwd Ht Hbase Htag Hmeta Hdata Hseq Hsrc.
  rewrite lookup_path_resolve in Hsrc.
  destruct (Fs.resolve cwd t src) as [la|e] eqn:Hres; [| discriminate].
  destruct (Htag _ _ Hres) as [parent0 ->].
  cbn [Fs.node_at] in Hsrc.
  set (I := fun a : tree =>
              names_valid a /\ Fs.resolve cwd a src = Ok (h :: parent0) /\
              a !! (h :: parent0) = Some (File data)).
  assert (I (snd (createMirroredDataset cwd session_info scan_info primary t)))
    as (_ & Hres' & Hnode').
  { rewrite created_state.
    refine (body_stagewise I (fun a b => I a -> I b)
              cwd session_info scan_info primary _ _ _ _ _ _ t _ _);
      [auto | auto | | | | | repeat split; assumption
       | repeat split; assumption].
    - intros subj ses a r b _ _ (Ha & Hr & Hn) H.
      assert (I b) as Hb; [| split; [exact Hb | intros _; exact Hb]].
      pose proof (make_subfolders_subseteq _ _ _ _ _ H) as Hsub.
      split; [eapply make_subfolders_valid; eassumption |].
      split; [eapply resolve_subseteq; eassumption |].
      exact (lookup_weaken _ _ _ _ Hn Hsub).
    - intros subj ses base' a r b _ _ Hbase' (Ha & Hr & Hn) H.
      assert (base' = base) as -> by congruence.
      assert (I b) as Hb; [| split; [exact Hb | intros _; exact Hb]].
      rewrite copy_data_files_items in H.
      split; [eapply copy_all_valid; eassumption |].
      split.
      + eapply resolve_writes; [| exact Hr].
        eapply copy_all_writes; [apply data_items_ok | exact H].
      + rewrite <- Hn.
        eapply copy_all_keeps_loc; [apply data_items_ok | exact H |].
        intros src' dst' h' Hin parent Hp. injection Hp as <- <-.
        rewrite (Hdata _ _ _ Hin). exact Hr.
    - intros subj ses base' a r b _ _ Hbase' (Ha & Hr & Hn) H.
      assert (base' = base) as -> by congruence.
      assert (I b) as Hb; [| split; [exact Hb | intros _; exact Hb]].
      split; [eapply copy_seq_files_valid; eassumption |].
      destruct (copy_seq_files_cases cwd primary
                  (PosixPath.join dataset_root ["sub-" +:+ subj; ses]) base a)
        as [[r0 E] | (P & _ & _ & E)]; rewrite E in H.
      { inversion H; subst. split; assumption. }
      pose proof (seq_items_ok cwd primary
                    (PosixPath.join dataset_root ["sub-" +:+ subj; ses]) base _
                    (names_valid_entries a P Ha)) as Hok.
      split.
      + eapply resolve_writes; [| exact Hr].
        eapply copy_all_writes; [exact Hok | exact H].
      + rewrite <- Hn. eapply copy_all_keeps_loc; [exact Hok | exact H |].
        intros src' dst' h' Hin parent Hp. injection Hp as <- <-.
        unfold seq_items in Hin. apply in_map_iff in Hin as (m & Hm & Hin).
        injection Hm as <- _ <-. apply filter_In in Hin as [_ Hin].
        rewrite <- (Hseq Hin) in Hr. exact Hr.
    - intros subj ses base' a r b _ _ _ (Ha & Hr & Hn) H _.
      apply save_metadata_inv in H as [(k & Hk & Hd & -> & _) | (e & _ & ->)];
        [| repeat split; assumption].
      split; [apply names_valid_insert;
              [exact Ha | eapply resolve_valid; eassumption] |].
      split.
      + eapply resolve_same_dirs; [| exact Hr].
        intros l. apply is_dir_insert_File, Hd.
      + rewrite lookup_insert_ne; [exact Hn |].
        destruct (metadata_path_tagged cwd _ _ _ Hk) as [parent ->].
        congruence. }
  rewrite lookup_path_resolve, Hres'. exact Hnode'.
Qed.

(** X11. A call never alters the files it copies from.  In a file system
    whose entries have valid names, and whatever the outcome of the call: a
    data file of the scan in the acquisition directory, and a sequence file
    of the scan in its [seq] directory, hold after the call what they held
    before. *)
Theorem sources_are_kept cwd session_info scan_info primary t base :
  Forall (fun x => valid_name x = true) cwd ->
  names_valid t ->
  base_filename scan_info = Ok base ->
  let t' := snd (createMirroredDataset cwd session_info scan_info primary t) in
  (forall ext src_subdir dest_subdir data,
     In (ext, (src_subdir, dest_subdir)) file_map ->
     let src := PosixPath.join primary [src_subdir; base +:+ ext] in
     lookup_path cwd t src = Some (File data) ->
     lookup_path cwd t' src = Some (File data)) /\
  (forall n data,
     valid_name n = true -> seq_match base n = true ->
     let src := PosixPath.join (PosixPath.join primary ["seq"]) [n] in
     lookup_path cwd t src = Some (File data) ->
     lookup_path cwd t' src = Some (File data)).
Proof.
  intros Hcwd Ht Hbase t'. subst t'. split.
  - intros ext sd dd data Hin src Hsrc.
    pose proof (data_items_In primary "" base _ _ _ Hin) as Hitem.
    pose proof (data_items_ok cwd primary "" base) as Hok.
    rewrite List.Forall_forall in Hok.
    destruct (Hok _ Hitem) as (Htag & _).
    assert (exists c, last_char (last_piece base +:+ ext) = Some c /\
                      c <> "q"%char /\ c <> "n"%char) as (c & Hc & Hq & Hn).
    { assert (In (last_piece base +:+ ext)
                (map item_tag (data_items primary "" base))) as Ht'
        by (apply in_map_iff; eexists; split; [| exact Hitem]; reflexivity).
      apply data_tags_last_char in Ht'.
      destruct Ht' as [E | [E | [E | E]]]; rewrite E; eexists;
        (split; [reflexivity | split; discriminate]). }
    eapply source_kept; try eassumption.
    + intros E. rewrite E in Hc. cbn in Hc. congruence.
    + intros p src' dst' Hin'.
      eapply data_items_src; [exact Hin' |].
      apply (data_items_In primary p base _ _ _ Hin).
    + intros Hm. apply seq_name_last_char in Hm. congruence.
  - intros n data Hv Hm src Hsrc.
    destruct (name_item_ok cwd (PosixPath.join primary ["seq"]) "" n Hv)
      as (Htag & _).
    pose proof (seq_name_last_char _ _ Hm) as Hq.
    eapply source_kept; try eassumption.
    + intros E. rewrite E in Hq. cbn in Hq. discriminate.
    + intros p src' dst' Hin'.
      assert (In n (map item_tag (data_items primary p base))) as Ht'
        by (apply in_map_iff; eexists; split; [| exact Hin']; reflexivity).
      apply data_tags_last_char in Ht'. rewrite Hq in Ht'.
      intuition discriminate.
    + reflexivity.
Qed.

Lemma sources_are_kept_witness :
  lookup_path Example.cwd Example.final "/acq/mat/X1.mat"
  = Some (File "MATDATA") /\
  lookup_path Example.cwd Example.final "/acq/seq/X1_cal.seq"
  = Some (File "S2").
Proof.
  destruct (sources_are_kept Example.cwd Example.session Example.scan "/acq"
              Example.acquisition "X1") as [H1 H2].
  - constructor.
  - apply wf_tree_names_valid. vm_compute. reflexivity.
  - vm_compute. reflexivity.
  - split.
    + apply (H1 ".mat" "mat" "mat" "MATDATA");
        [left; reflexivity | vm_compute; reflexivity].
    + apply (H2 "X1_cal.seq" "S2"); vm_compute; reflexivity.
Defined.
(** ** What a call that returns a path has copied *)

Lemma resolve_join_name_inv cwd t dir n l :
  dir <> "" -> last_char dir <> Some "/"%char -> valid_name n = true ->
  Fs.resolve cwd t (PosixPath.join dir [n]) = Ok l ->
  exists P, Fs.resolve cwd t dir = Ok P /\ Fs.is_dir t P = true /\ l = n :: P.
Proof.
  intros Hd Hl Hn.
  pose proof (valid_name_inv n Hn) as (Hne & Hd1 & Hd2 & Hsep).
  rewrite join_name by assumption. unfold Fs.resolve.
  assert (PyStr.eqb (dir +:+ "/" +:+ n) "" = false) as ->.
  { apply eqb_false. destruct dir; [congruence | discriminate]. }
  apply eqb_false in Hd. rewrite Hd. apply eqb_false in Hd.
  rewrite start_app by exact Hd.
  rewrite path_components_join_name by assumption.
  intros H. apply walk_last in H as (P & -> & HP & Hdir); [| assumption ..].
  exists P. auto.
Qed.

Lemma lookup_path_same_dirs cwd t t' p :
  (forall l, Fs.is_dir t' l = Fs.is_dir t l) ->
  lookup_path cwd t' p = Some Dir <-> lookup_path cwd t p = Some Dir.
Proof.
  assert (forall a b, (forall l, Fs.is_dir b l = Fs.is_dir a l) ->
            lookup_path cwd a p = Some Dir -> lookup_path cwd b p = Some Dir)
    as Hone.
  { intros a b Hd. rewrite !lookup_path_resolve.
    destruct (Fs.resolve cwd a p) as [l|e] eqn:E; [| discriminate].
    rewrite (resolve_same_dirs _ _ _ _ _ Hd E).
    rewrite <- !is_dir_node, Hd. auto. }
  intros Hd. split; apply Hone; [intros l; symmetry; apply Hd | exact Hd].
Qed.

Lemma copy_target_same_dirs cwd t t' src dst :
  (forall l, Fs.is_dir t' l = Fs.is_dir t l) ->
  copy_target cwd t' src dst = copy_target cwd t src dst.
Proof.
  intros Hd. unfold copy_target.
  pose proof (lookup_path_same_dirs cwd t t' dst Hd) as Hiff.
  destruct (lookup_path cwd t dst) as [[|d]|] eqn:E.
  - rewrite (proj2 Hiff eq_refl). reflexivity.
  - destruct (lookup_path cwd t' dst) as [[|d']|]; try reflexivity.
    destruct Hiff as [Hiff _]. specialize (Hiff eq_refl). discriminate.
  - destruct (lookup_path cwd t' dst) as [[|d']|]; try reflexivity.
    destruct Hiff as [Hiff _]. specialize (Hiff eq_refl). discriminate.
Qed.

Lemma copy_target_dst cwd t src dst :
  lookup_path cwd t dst <> Some Dir -> copy_target cwd t src dst = dst.
Proof.
  unfold copy_target. destruct (lookup_path cwd t dst) as [[|d]|];
    congruence.
Qed.

(** The metadata step of a call that returns a path leaves every path that
    does not end with the name of the metadata file as it was. *)
Lemma metadata_stage_lookup cwd session_info scan_info p t r t' q h :
  save_metadata cwd session_info scan_info p t = (r, t') ->
  tagged cwd q h -> h <> "metadata.json" ->
  lookup_path cwd t' q = lookup_path cwd t q /\
  forall l, Fs.is_dir t' l = Fs.is_dir t l.
Proof.
  intros H Hq Hh.
  apply save_metadata_inv in H as [(k & Hk & Hd & -> & _) | (e & _ & ->)];
    [| auto].
  split; [| intros l; apply is_dir_insert_File, Hd].
  apply lookup_path_insert_other; [exact Hd |]. intros l Hl ->.
  destruct (Hq _ _ Hl) as [parent E].
  destruct (metadata_path_tagged cwd p _ _ Hk) as [parent' E'].
  congruence.
Qed.

(** X12. After a call that returns a path, in a file system whose entries
    have valid names: every data file of the scan that the acquisition
    directory held when the call began is in the session directory with the
    same content, at the destination path of the loop, or inside it when the
    destination was a directory. *)
Theorem data_files_are_mirrored
  cwd session_info scan_info primary t t' p base :
  createMirroredDataset cwd session_info scan_info primary t
  = (Returns (Some p), t') ->
  Forall (fun x => valid_name x = true) cwd ->
  names_valid t ->
  base_filename scan_info = Ok base ->
  forall ext src_subdir dest_subdir data,
    In (ext, (src_subdir, dest_subdir)) file_map ->
    let src := PosixPath.join primary [src_subdir; base +:+ ext] in
    let dst := PosixPath.join p [dest_subdir; base +:+ ext] in
    lookup_path cwd t src = Some (File data) ->
    lookup_path cwd t' (copy_target cwd t' src dst) = Some (File data) /\
    (lookup_path cwd t' dst <> Some Dir ->
     lookup_path cwd t' dst = Some (File data)).
Proof.
  intros Hcall Hcwd Ht Hbase ext sd dd data Hin src dst Hsrc.
  assert (lookup_path cwd t' (copy_target cwd t' src dst) = Some (File data))
    as Hmain; [| split; [exact Hmain |];
                 intros Hnd; rewrite copy_target_dst in Hmain; assumption].
  apply created_Some_inv, body_Ok_inv in Hcall
    as (subj & ses & base' & t1 & t2 & t3 & _ & _ & _ & Hmk & Hbase' & Hcp
        & Hsq & Hmeta).
  assert (base' = base) as -> by congruence.
  pose proof (data_items_In primary p base _ _ _ Hin) as Hitem.
  fold src dst in Hitem.
  pose proof (data_items_ok cwd primary p base) as Hok.
  assert (item_ok cwd (src, dst, last_piece base +:+ ext)) as Hiok
    by (rewrite List.Forall_forall in Hok; apply Hok, Hitem).
  assert (In (last_piece base +:+ ext)
            (map item_tag (data_items primary p base))) as Htag
    by (apply in_map_iff; eexists; split; [| exact Hitem]; reflexivity).
  apply data_tags_last_char in Htag.
  (* the scaffolding *)
  pose proof (make_subfolders_valid _ _ _ _ _ Hcwd Ht Hmk) as Ht1.
  apply make_subfolders_subseteq in Hmk.
  pose proof (lookup_path_subseteq cwd _ _ _ _ Hmk Hsrc) as Hsrc1.
  (* the data files *)
  rewrite copy_data_files_items in Hcp.
  pose proof (copy_all_valid _ _ _ _ _ Hcwd Ht1 Hcp) as Ht2.
  pose proof (copy_all_writes _ _ _ _ _ Hok Hcp) as Hw12.
  destruct (copy_all_Ok cwd _ _ _ (data_items_NoDup primary p base) Hok Hcp
              _ _ _ Hitem) as [_ Hcopied].
  destruct Hcopied as (data' & Hd' & Hat2); [congruence |].
  assert (data' = data) as -> by congruence.
  pose proof (copy_target_tagged cwd t1 src dst _ Hiok) as Htt.
  (* the sequence files *)
  destruct (seq_stage_writes _ _ _ _ _ _ _ Ht2 Hsq) as (names & Hnames & Hw23).
  assert (lookup_path cwd t3 (copy_target cwd t1 src dst) = Some (File data))
    as Hat3.
  { rewrite <- Hat2. eapply writes_lookup_path; [exact Hw23 | exact Htt |].
    intros Hn. rewrite Forall_forall in Hnames.
    apply list_elem_of_In, Hnames in Hn as [_ Hn].
    apply seq_name_last_char in Hn. rewrite Hn in Htag.
    intuition discriminate. }
  (* the metadata *)
  destruct (metadata_stage_lookup _ _ _ _ _ _ _ _ _ Hmeta Htt) as [Hat' Hd34].
  { intros E. rewrite E in Htag. cbn in Htag. intuition discriminate. }
  rewrite (copy_target_same_dirs cwd t1 t'); [congruence |].
  intros l. rewrite Hd34, (writes_is_dir _ _ _ Hw23), (writes_is_dir _ _ _ Hw12).
  reflexivity.
Qed.

(** X13. After a call that returns a path, in a file system whose entries
    have valid names: every sequence file of the scan (a name that starts
    with the base and ends with [.seq]) that the [seq] directory of the
    acquisition held when the call began is in the [seq] directory of the
    session with the same content, under the same name. *)
Theorem sequence_files_are_mirrored
  cwd session_info scan_info primary t t' p base :
  createMirroredDataset cwd session_info scan_info primary t
  = (Returns (Some p), t') ->
  Forall (fun x => valid_name x = true) cwd ->
  names_valid t ->
  base_filename scan_info = Ok base ->
  forall n data,
    valid_name n = true -> seq_match base n = true ->
    let src := PosixPath.join (PosixPath.join primary ["seq"]) [n] in
    let dst := PosixPath.join (PosixPath.join p ["seq"]) [n] in
    lookup_path cwd t src = Some (File data) ->
    lookup_path cwd t' (copy_target cwd t' src dst) = Some (File data) /\
    (lookup_path cwd t' dst <> Some Dir ->
     lookup_path cwd t' dst = Some (File data)).
Proof.
  intros Hcall Hcwd Ht Hbase n data Hv Hm src dst Hsrc.
  assert (lookup_path cwd t' (copy_target cwd t' src dst) = Some (File data))
    as Hmain; [| split; [exact Hmain |];
                 intros Hnd; rewrite copy_target_dst in Hmain; assumption].
  apply created_Some_inv, body_Ok_inv in Hcall
    as (subj & ses & base' & t1 & t2 & t3 & _ & _ & _ & Hmk & Hbase' & Hcp
        & Hsq & Hmeta).
  assert (base' = base) as -> by congruence.
  pose proof (name_item_ok cwd (PosixPath.join primary ["seq"])
                (PosixPath.join p ["seq"]) n Hv) as Hiok.
  fold src dst in Hiok. pose proof Hiok as (Hsrct & _).
  pose proof (seq_name_last_char _ _ Hm) as Hq.
  (* the scaffolding *)
  pose proof (make_subfolders_valid _ _ _ _ _ Hcwd Ht Hmk) as Ht1.
  apply make_subfolders_subseteq in Hmk.
  pose proof (lookup_path_subseteq cwd _ _ _ _ Hmk Hsrc) as Hsrc1.
  (* the data files *)
  rewrite copy_data_files_items in Hcp.
  pose proof (copy_all_valid _ _ _ _ _ Hcwd Ht1 Hcp) as Ht2.
  pose proof (copy_all_writes _ _ _ _ _
                (data_items_ok cwd primary p base) Hcp) as Hw12.
  assert (lookup_path cwd t2 src = Some (File data)) as Hsrc2.
  { rewrite <- Hsrc1. eapply writes_lookup_path; [exact Hw12 | exact Hsrct |].
    intros Hn. apply data_tags_last_char in Hn. rewrite Hq in Hn.
    intuition discriminate. }
  (* the sequence files *)
  pose proof Hsrc2 as Hres2. rewrite lookup_path_resolve in Hres2.
  destruct (Fs.resolve cwd t2 src) as [l|e] eqn:El; [| discriminate].
  destruct (seq_dir_shape primary) as [Hne Hlast].
  apply resolve_join_name_inv in El as (P & HP & HdP & ->); try assumption.
  cbn [Fs.node_at] in Hres2.
  rewrite (copy_seq_files_listed _ _ _ _ _ _ HP HdP) in Hsq.
  pose proof (seq_items_ok cwd primary p base _
                (names_valid_entries t2 P Ht2)) as Hok.
  assert (In (src, dst, n) (seq_items primary p base (Fs.entries t2 P)))
    as Hitem.
  { unfold seq_items. apply in_map_iff. exists n. split; [reflexivity |].
    apply filter_In. split; [| exact Hm]. apply entries_In.
    exists (File data). exact Hres2. }
  assert (NoDup (map item_tag (seq_items primary p base (Fs.entries t2 P))))
    as Hnd by (rewrite seq_items_tags; apply filter_NoDup, entries_NoDup).
  destruct (copy_all_Ok cwd _ _ _ Hnd Hok Hsq _ _ _ Hitem) as [_ Hcopied].
  destruct Hcopied as (data' & Hd' & Hat3); [congruence |].
  assert (data' = data) as -> by congruence.
  pose proof (copy_all_writes _ _ _ _ _ Hok Hsq) as Hw23.
  pose proof (copy_target_tagged cwd t2 src dst _ Hiok) as Htt.
  (* the metadata *)
  destruct (metadata_stage_lookup _ _ _ _ _ _ _ _ _ Hmeta Htt) as [Hat' Hd34].
  { intros E. rewrite E in Hq. cbn in Hq. discriminate. }
  rewrite (copy_target_same_dirs cwd t2 t'); [congruence |].
  intros l. rewrite Hd34, (writes_is_dir _ _ _ Hw23). reflexivity.
Qed.

Lemma data_files_are_mirrored_witness :
  lookup_path Example.cwd Example.final
    "/home/bryant/Desktop/mri_dataset/sub-Jane_Doe/ses-20240315T093000/csv/X1.csv"
  = Some (File "CSVDATA").
Proof.
  destruct (data_files_are_mirrored Example.cwd Example.session Example.scan
              "/acq" Example.acquisition Example.final Example.path "X1")
    with (ext := ".csv") (src_subdir := "csv") (dest_subdir := "csv")
         (data := "CSVDATA") as [_ H].
  - apply pair_eq; [vm_compute; reflexivity | reflexivity].
  - constructor.
  - apply wf_tree_names_valid. vm_compute. reflexivity.
  - vm_compute. reflexivity.
  - right. left. reflexivity.
  - vm_compute. reflexivity.
  - apply H. vm_compute. discriminate.
Defined.

Lemma sequence_files_are_mirrored_witness :
  lookup_path Example.cwd Example.final
    "/home/bryant/Desktop/mri_dataset/sub-Jane_Doe/ses-20240315T093000/seq/X1.seq"
  = Some (File "S1").
Proof.
  destruct (sequence_files_are_mirrored Example.cwd Example.session
              Example.scan "/acq" Example.acquisition Example.final
              Example.path "X1")
    with (n := "X1.seq") (data := "S1") as [_ H].
  - apply pair_eq; [vm_compute; reflexivity | reflexivity].
  - constructor.
  - apply wf_tree_names_valid. vm_compute. reflexivity.
  - vm_compute. reflexivity.
  - reflexivity.
  - vm_compute. reflexivity.
  - vm_compute. reflexivity.
  - apply H. vm_compute. discriminate.
Defined.
(** ** Where a call writes *)

Lemma confined_refl (s : loc) (t : tree) : confined s t t.
Proof. intros l. left. reflexivity. Qed.

Lemma confined_trans (s : loc) (a b c : tree) :
  confined s a b -> confined s b c -> confined s a c.
Proof.
  intros Hab Hbc l.
  destruct (Hab l) as [E1 | [Hs | (Ha & Hb & Hl)]]; [| auto |].
  - destruct (Hbc l) as [E2 | [Hs | (Hb & Hc & Hl)]]; [| auto |].
    + left. congruence.
    + right. right. rewrite <- E1. auto.
  - destruct (Hbc l) as [E2 | [Hs | (Hb' & _)]]; [| auto | congruence].
    right. right. rewrite E2. auto.
Qed.

Lemma confined_insert (s : loc) (t : tree) (k : loc) (n : node) :
  s `suffix_of` k -> confined s t (<[k := n]> t).
Proof.
  intros Hk l. destruct (decide (k = l)) as [<- | Hne]; [auto |].
  left. apply lookup_insert_ne. exact Hne.
Qed.

Lemma walk_plain t cs : forall cur l,
  Forall (fun n => valid_name n = true) cs ->
  Fs.walk t cur cs = Ok l -> l = rev cs ++ cur.
Proof.
  induction cs as [|c cs IH]; intros cur l Hcs H; cbn [Fs.walk] in H.
  - injection H as <-. reflexivity.
  - inversion Hcs as [|? ? Hc Hrest]; subst.
    apply valid_name_inv in Hc as (_ & H1 & H2 & _).
    destruct (Fs.node_at t cur) as [[|d]|]; try discriminate.
    rewrite step_name in H by assumption.
    rewrite (IH _ _ Hrest H). cbn [rev]. rewrite <- app_assoc. reflexivity.
Qed.

(** Creating directories along names: what is new is a directory on the
    way. *)
Lemma walk_create_plain cs : forall cur t r t',
  Forall (fun n => valid_name n = true) cs ->
  Fs.walk_create cur cs t = (r, t') ->
  forall l,
    t' !! l = t !! l \/
    (t !! l = None /\ t' !! l = Some Dir /\ l `suffix_of` (rev cs ++ cur)).
Proof.
  induction cs as [|c cs IH]; intros cur t r t' Hcs H l;
    cbn [Fs.walk_create] in H.
  - inversion H. auto.
  - inversion Hcs as [|? ? Hc Hrest]; subst.
    apply valid_name_inv in Hc as (_ & H1 & H2 & _).
    apply eqb_false in H1, H2.
    destruct (Fs.node_at t cur) as [[|d]|]; [| inversion H; auto ..].
    rewrite H1, H2 in H. cbn [rev]. rewrite <- app_assoc. cbn [app].
    destruct (Fs.node_at t (c :: cur)) as [[|d]|] eqn:E.
    + eapply IH; eassumption.
    + inversion H. auto.
    + cbn [Fs.node_at] in E.
      destruct (IH _ _ _ _ Hrest H l) as [E' | (Hn & Hd & Hs)].
      * destruct (decide (c :: cur = l)) as [<- | Hne].
        -- right. rewrite E'. rewrite lookup_insert_eq.
           repeat split; [exact E |]. apply suffix_app_r. reflexivity.
        -- left. rewrite E'. apply lookup_insert_ne. exact Hne.
      * destruct (decide (c :: cur = l)) as [<- | Hne].
        -- rewrite lookup_insert_eq in Hn. discriminate.
        -- rewrite lookup_insert_ne in Hn by exact Hne. auto.
Qed.

(** Joining names to a path: the components are those of the path followed
    by the names. *)
Lemma join_names_components cwd dir names :
  dir <> "" -> last_char dir <> Some "/"%char ->
  Forall (fun n => valid_name n = true) names ->
  PosixPath.join dir names <> "" /\
  last_char (PosixPath.join dir names) <> Some "/"%char /\
  Fs.start cwd (PosixPath.join dir names) = Fs.start cwd dir /\
  Fs.path_components (PosixPath.join dir names)
  = Fs.path_components dir ++ names.
Proof.
  intros Hd Hl.
  induction names as [|n names IH] using rev_ind; intros Hnames.
  - rewrite app_nil_r. auto.
  - apply Forall_app in Hnames as [Hnames Hn].
    inversion Hn as [|? ? Hn' _]; subst. clear Hn. rename Hn' into Hn.
    destruct (IH Hnames) as (IH1 & IH2 & IH3 & IH4).
    pose proof (valid_name_inv n Hn) as (Hne & _ & _ & Hsep).
    rewrite join_snoc. change (PosixPath.join2 ?a n) with (PosixPath.join a [n]).
    rewrite join_name by assumption.
    split; [| split; [| split]].
    + intros E. apply (f_equal String.length) in E.
      rewrite !length_app in E. cbn in E. lia.
    + rewrite <- app_assoc_s, last_char_app by exact Hne.
      apply name_last_char, Hsep.
    + rewrite start_app by exact IH1. exact IH3.
    + rewrite path_components_join_name by assumption.
      rewrite IH4, <- app_assoc. reflexivity.
Qed.

Lemma join_join (a : string) (xs ys : list string) :
  PosixPath.join (PosixPath.join a xs) ys = PosixPath.join a (xs ++ ys).
Proof. unfold PosixPath.join. rewrite fold_left_app. reflexivity. Qed.

Lemma dataset_root_shape :
  dataset_root <> "" /\ last_char dataset_root <> Some "/"%char.
Proof. split; [discriminate | vm_compute; discriminate]. Qed.

Lemma dataset_root_components cwd :
  Fs.start cwd dataset_root = [] /\
  Fs.path_components dataset_root
  = ["home"; "bryant"; "Desktop"; "mri_dataset"].
Proof. split; [reflexivity | vm_compute; reflexivity]. Qed.

(** A path made of the dataset root and names resolves to those names under
    the location of the root. *)
Lemma resolve_in_dataset cwd t names k :
  Forall (fun n => valid_name n = true) names ->
  Fs.resolve cwd t (PosixPath.join dataset_root names) = Ok k ->
  k = rev names ++ ["mri_dataset"; "Desktop"; "bryant"; "home"].
Proof.
  intros Hnames. destruct dataset_root_shape as [Hd Hl].
  destruct (join_names_components cwd dataset_root names Hd Hl Hnames)
    as (Hne & _ & Hstart & Hcs).
  destruct (dataset_root_components cwd) as [Hs0 Hc0].
  unfold Fs.resolve. apply eqb_false in Hne.
  rewrite Hne, Hstart, Hcs, Hs0, Hc0.
  intros H. apply walk_plain in H.
  - rewrite H, rev_app_distr, app_nil_r. reflexivity.
  - apply Forall_app_2; [| exact Hnames]. repeat constructor.
Qed.

Lemma sub_valid subj :
  PyStr.contains_char "/" subj = false -> valid_name ("sub-" +:+ subj) = true.
Proof.
  intros H. unfold valid_name. rewrite contains_char_app, H. reflexivity.
Qed.

Lemma zfill_no_sep w : forall n,
  PyStr.contains_char "/" (PyStr.zfill w n) = false.
Proof.
  induction w as [|w IH]; intros n; [reflexivity |].
  cbn [PyStr.zfill]. rewrite contains_char_app, IH.
  cbn [PyStr.contains_char orb]. rewrite orb_false_r.
  apply Ascii.eqb_neq. intros E. apply (f_equal N_of_ascii) in E.
  rewrite digit_char_code in E. revert E. generalize (n mod 10)%N.
  intros d E. cbn in E. lia.
Qed.

Lemma ses_valid scan_info ses :
  session_label scan_info = Ok ses -> valid_name ses = true.
Proof.
  intros H. apply session_label_Ok in H as (s & dt & _ & _ & ->).
  unfold valid_name. rewrite contains_char_app.
  unfold DateTime.strftime. rewrite !contains_char_app, !zfill_no_sep.
  reflexivity.
Qed.

Lemma lands_in_session cwd subj ses rest :
  valid_name ("sub-" +:+ subj) = true -> valid_name ses = true ->
  Forall (fun n => valid_name n = true) rest ->
  lands_in cwd (session_loc subj ses)
    (PosixPath.join dataset_root (("sub-" +:+ subj) :: ses :: rest)).
Proof.
  intros Hsub Hses Hrest t k H.
  apply resolve_in_dataset in H.
  - rewrite H. cbn [app rev]. rewrite <- !app_assoc. cbn [app].
    apply suffix_app_r. reflexivity.
  - repeat (constructor; [assumption |]). exact Hrest.
Qed.

Lemma suffix_cons_cases {A} (l : list A) (y : A) (l2 : list A) :
  l `suffix_of` y :: l2 -> l = y :: l2 \/ l `suffix_of` l2.
Proof.
  intros [[|a k] Hk].
  - left. symmetry. exact Hk.
  - right. exists k. injection Hk as _ Hk. exact Hk.
Qed.

Lemma makedirs_confined cwd subj ses sub t r t' :
  valid_name ("sub-" +:+ subj) = true -> valid_name ses = true ->
  valid_name sub = true ->
  Fs.makedirs cwd
    (PosixPath.join (PosixPath.join dataset_root ["sub-" +:+ subj; ses]) [sub])
    t = (r, t') ->
  confined (session_loc subj ses) t t'.
Proof.
  intros Hsub Hses Hv. rewrite join_join. cbn [app].
  destruct dataset_root_shape as [Hd Hl].
  destruct (join_names_components cwd dataset_root
              ["sub-" +:+ subj; ses; sub] Hd Hl) as (Hne & _ & Hstart & Hcs);
    [repeat constructor; assumption |].
  destruct (dataset_root_components cwd) as [Hs0 Hc0].
  unfold Fs.makedirs. apply eqb_false in Hne.
  rewrite Hne, Hstart, Hcs, Hs0, Hc0.
  intros H l.
  assert (Forall (fun n => valid_name n = true)
            (["home"; "bryant"; "Desktop"; "mri_dataset"]
             ++ ["sub-" +:+ subj; ses; sub])) as HF
    by (apply Forall_app_2; repeat constructor; assumption).
  destruct (walk_create_plain _ _ _ _ _ HF H l) as [E | (Hn & Hdir & Hs)];
    [left; exact E |].
  right. cbn [rev app] in Hs.
  apply suffix_cons_cases in Hs as [-> | Hs].
  - left. apply suffix_cons_r. reflexivity.
  - right. repeat split; assumption.
Qed.
Lemma try_copy_confined cwd s src dst t r t' :
  lands_in cwd s dst ->
  lands_in cwd s (PosixPath.join dst [Fs.basename src]) ->
  _try_copy cwd src dst t = (r, t') -> confined s t t'.
Proof.
  intros Hdst Hin H.
  apply try_copy_inv in H as [(_ & _ & ->) | [_ H]]; [apply confined_refl |].
  apply copy_inv in H as [(data & k & _ & _ & Hres & _ & ->) | (e & _ & ->)];
    [| apply confined_refl].
  apply confined_insert. unfold copy_target in Hres.
  destruct (lookup_path cwd t dst) as [[|d]|]; eauto.
Qed.

Lemma copy_all_confined cwd s items :
  (forall src dst h, In (src, dst, h) items ->
     lands_in cwd s dst /\
     lands_in cwd s (PosixPath.join dst [Fs.basename src])) ->
  forall t r t', copy_all cwd items t = (r, t') -> confined s t t'.
Proof.
  induction items as [|[[src dst] h] items IH]; intros Hitems t r t' H.
  - inversion H. apply confined_refl.
  - rewrite copy_all_cons in H. unfold bind in H.
    destruct (Hitems src dst h (or_introl eq_refl)) as [Hd Hj].
    destruct (_try_copy cwd src dst t) as [[[]|e] t1] eqn:E.
    + eapply confined_trans;
        [eapply (try_copy_confined cwd s src dst); eassumption |].
      eapply IH; [| exact H]. intros src' dst' h' Hin.
      apply (Hitems src' dst' h'). right. exact Hin.
    + inversion H; subst.
      eapply (try_copy_confined cwd s src dst); eassumption.
Qed.

Lemma basename_join_name a n :
  valid_name n = true -> Fs.basename (PosixPath.join a [n]) = n.
Proof.
  intros Hn. apply valid_name_inv in Hn as (_ & _ & _ & Hsep).
  rewrite basename_last_piece.
  change [n] with ([] ++ [n]). rewrite join_snoc.
  destruct (join2_form (PosixPath.join a []) n) as (z & -> & Hz).
  pose proof (last_piece_app z "" n Hz Hsep) as E.
  rewrite app_nil, last_piece_empty, app_nil in E. exact E.
Qed.

Lemma last_piece_name s : PyStr.contains_char "/" s = false -> last_piece s = s.
Proof. intros H. unfold last_piece. rewrite (split_no_sep _ _ H). reflexivity. Qed.

Lemma data_name_valid base ext src_subdir dest_subdir :
  PyStr.contains_char "/" base = false ->
  In (ext, (src_subdir, dest_subdir)) file_map ->
  valid_name (base +:+ ext) = true /\ valid_name dest_subdir = true.
Proof.
  intros Hb Hin.
  assert (PyStr.contains_char "/" ext = false /\ 2 < String.length ext
          /\ valid_name dest_subdir = true) as (He & Hlen & Hd).
  { unfold file_map in Hin. cbn [In] in Hin.
    destruct Hin as [E | [E | [E | [E | []]]]]; injection E as <- _ <-;
      repeat split; cbn; lia. }
  split; [| exact Hd].
  destruct (long_not_dots base ext Hlen) as [H1 H2].
  unfold valid_name. rewrite contains_char_app, Hb, He.
  apply eqb_false in H1, H2. rewrite H1, H2.
  assert (PyStr.eqb (base +:+ ext) "" = false) as ->; [| reflexivity].
  apply eqb_false. intros E. apply (f_equal String.length) in E.
  rewrite length_app in E. cbn in E. lia.
Qed.

Lemma subfolder_valid sub : In sub subfolders -> valid_name sub = true.
Proof.
  unfold subfolders. cbn [In].
  intros [<- | [<- | [<- | [<- | [<- | []]]]]]; reflexivity.
Qed.

(** X14. When the subject label and the base file name hold no separator,
    a call writes inside the session directory only: in a file system whose
    entries have valid names, and whatever the outcome, an entry that the
    call created or changed lies in the session directory
    [<root>/sub-<label>/<session label>], or is that directory or one of the
    directories above it, which was missing and has been created.  (The
    session path resolves to the location [session_loc] in every file
    system.) *)
Theorem writes_stay_in_the_session_directory
  cwd session_info scan_info primary t subj ses :
  Forall (fun x => valid_name x = true) cwd ->
  names_valid t ->
  subject_label session_info = Ok subj ->
  PyStr.contains_char "/" subj = false ->
  session_label scan_info = Ok ses ->
  (forall base, base_filename scan_info = Ok base ->
     PyStr.contains_char "/" base = false) ->
  (forall a k,
     Fs.resolve cwd a (PosixPath.join dataset_root ["sub-" +:+ subj; ses])
     = Ok k ->
     k = session_loc subj ses) /\
  confined (session_loc subj ses) t
    (snd (createMirroredDataset cwd session_info scan_info primary t)).
Proof.
  intros Hcwd Ht Hsubj Hsep Hses Hbase.
  pose proof (sub_valid subj Hsep) as Hvsub.
  pose proof (ses_valid _ _ Hses) as Hvses.
  split.
  { intros a k Hk. apply resolve_in_dataset in Hk; [exact Hk |].
    repeat constructor; assumption. }
  rewrite created_state.
  refine (body_stagewise names_valid (confined (session_loc subj ses))
            cwd session_info scan_info primary _ _ _ _ _ _ t Ht).
  - apply confined_refl.
  - apply confined_trans.
  - intros subj' ses' a r b Hsubj' Hses' Ha H.
    assert (subj' = subj) as -> by congruence.
    assert (ses' = ses) as -> by congruence.
    split; [eapply make_subfolders_valid; eassumption |].
    unfold make_subfolders in H.
    pose proof subfolder_valid as Hsubs. revert a r b Ha H Hsubs.
    generalize subfolders. intros names.
    induction names as [|x names IH]; intros a r b Ha H Hsubs;
      cbn [for_each] in H.
    + inversion H. apply confined_refl.
    + unfold bind in H.
      destruct (Fs.makedirs cwd _ a) as [[[]|e] a1] eqn:E.
      * eapply confined_trans.
        -- eapply makedirs_confined; [| | | exact E]; try assumption.
           apply Hsubs. left. reflexivity.
        -- eapply IH; [| exact H |].
           ++ eapply makedirs_valid; eassumption.
           ++ intros sub Hin. apply Hsubs. right. exact Hin.
      * inversion H; subst.
        eapply makedirs_confined; [| | | exact E]; try assumption.
        apply Hsubs. left. reflexivity.
  - intros subj' ses' base a r b Hsubj' Hses' Hb Ha H.
    assert (subj' = subj) as -> by congruence.
    assert (ses' = ses) as -> by congruence.
    rewrite copy_data_files_items in H.
    split; [eapply copy_all_valid; eassumption |].
    eapply copy_all_confined; [| exact H].
    intros src dst h Hin.
    apply data_items_In_inv in Hin as (ext & sd & dd & Hmap & -> & ->).
    destruct (data_name_valid base ext sd dd (Hbase base Hb) Hmap)
      as [Hname Hdd].
    assert (Fs.basename (PosixPath.join primary [sd; base +:+ ext])
            = base +:+ ext) as ->
      by (apply (basename_join_name (PosixPath.join primary [sd])), Hname).
    rewrite !join_join. cbn [app].
    split; apply lands_in_session; repeat constructor; assumption.
  - intros subj' ses' base a r b Hsubj' Hses' Hb Ha H.
    assert (subj' = subj) as -> by congruence.
    assert (ses' = ses) as -> by congruence.
    split; [eapply copy_seq_files_valid; eassumption |].
    destruct (copy_seq_files_cases cwd primary
                (PosixPath.join dataset_root ["sub-" +:+ subj; ses]) base a)
      as [[r0 E] | (P & _ & _ & E)]; rewrite E in H.
    { inversion H. apply confined_refl. }
    eapply copy_all_confined; [| exact H].
    intros src dst h Hin. unfold seq_items in Hin.
    apply in_map_iff in Hin as (n & Hn & Hin).
    assert (valid_name n = true) as Hv.
    { apply filter_In in Hin as [Hin _].
      pose proof (names_valid_entries a P Ha) as Hall.
      rewrite List.Forall_forall in Hall. apply Hall, Hin. }
    assert (src = PosixPath.join (PosixPath.join primary ["seq"]) [n] /\
            dst = PosixPath.join
                    (PosixPath.join
                       (PosixPath.join dataset_root ["sub-" +:+ subj; ses])
                       ["seq"]) [n]) as [-> ->]
      by (split; congruence).
    rewrite basename_join_name by exact Hv. rewrite !join_join. cbn [app].
    split; apply lands_in_session; repeat constructor; assumption.
  - intros subj' ses' base a r b Hsubj' Hses' Hb Ha H.
    assert (subj' = subj) as -> by congruence.
    assert (ses' = ses) as -> by congruence.
    apply save_metadata_inv in H as [(k & Hk & _ & -> & _) | (e & _ & ->)];
      [| apply confined_refl].
    apply confined_insert. unfold metadata_path in Hk.
    rewrite join_join in Hk. cbn [app] in Hk.
    eapply (lands_in_session cwd subj ses ["metadata.json"]);
      [assumption | assumption | repeat constructor | exact Hk].
Qed.

Lemma writes_stay_in_the_session_directory_witness :
  confined (session_loc "Jane_Doe" "ses-20240315T093000")
    Example.acquisition Example.final.
Proof.
  apply (writes_stay_in_the_session_directory Example.cwd Example.session
           Example.scan "/acq" Example.acquisition "Jane_Doe"
           "ses-20240315T093000").
  - constructor.
  - apply wf_tree_names_valid. vm_compute. reflexivity.
  - vm_compute. reflexivity.
  - reflexivity.
  - vm_compute. reflexivity.
  - intros base Hb.
    assert (base = "X1") as ->
      by (vm_compute in Hb; injection Hb as <-; reflexivity).
    reflexivity.
Defined.
(** ** When the scaffolding fails *)





(** ** A copy attempt that fails *)



(** ** The instant of a session label *)

Lemma strptime_checked s dt :
  DateTime.strptime s = Ok dt ->
  DateTime.check_date_fields (DateTime.year dt) (DateTime.month dt)
    (DateTime.day dt) = true /\
  DateTime.check_time_fields (DateTime.hour dt) (DateTime.minute dt)
    (DateTime.second dt) (DateTime.microsecond dt) = true.
Proof.
  unfold DateTime.strptime.
  destruct (Re.match_groups _ _) as [[caps rest]|]; [| discriminate].
  destruct (negb _); [discriminate |].
  destruct caps as [|sY [|? [|sm [|? [|sd [|? [|sH [|? [|sM [|? [|sS [|? [|f
    [|? ?]]]]]]]]]]]]]]; try discriminate.
  destruct (DateTime.check_date_fields _ _ _ && _) eqn:E; [| discriminate].
  intros H. injection H as <-. apply andb_true_iff in E. exact E.
Qed.

(** X17. The session label of a call that returns a path spells a real
    instant: the timestamp it was parsed from is a date of the calendar (the
    month from 1 to 12, the day within the month, leap years counted) and a
    time of day (hour below 24, minute and second below 60).  A
    [name_string] such as the thirtieth of February, or with second 60,
    never gives a session directory. *)
Theorem session_label_is_a_calendar_instant
  cwd session_info scan_info primary t t' p :
  createMirroredDataset cwd session_info scan_info primary t
  = (Returns (Some p), t') ->
  exists subj s dt,
    subject_label session_info = Ok subj /\
    dict_lookup scan_info "name_string" = Some (VStr s) /\
    DateTime.strptime s = Ok dt /\
    p = PosixPath.join dataset_root
          ["sub-" +:+ subj; "ses-" +:+ DateTime.strftime dt] /\
    (1 <= DateTime.year dt <= 9999 /\ 1 <= DateTime.month dt <= 12 /\
     1 <= DateTime.day dt
       <= DateTime.days_in_month (DateTime.year dt) (DateTime.month dt) /\
     DateTime.hour dt <= 23 /\ DateTime.minute dt <= 59 /\
     DateTime.second dt <= 59 /\ DateTime.microsecond dt <= 999999)%N.
Proof.
  intros H.
  apply created_Some_inv, body_Ok_inv in H
    as (subj & ses & _ & _ & _ & _ & Hsubj & Hses & -> & _).
  apply session_label_Ok in Hses as (s & dt & Hs & Hp & ->).
  exists subj, s, dt. repeat (split; [assumption || reflexivity |]).
  apply strptime_checked in Hp as [Hd Ht].
  unfold DateTime.check_date_fields in Hd.
  unfold DateTime.check_time_fields in Ht.
  repeat rewrite andb_true_iff in Hd. repeat rewrite andb_true_iff in Ht.
  repeat rewrite N.leb_le in Hd. repeat rewrite N.leb_le in Ht.
  destruct Hd as [[[[[? ?] ?] ?] ?] ?]. destruct Ht as [[[? ?] ?] ?].
  repeat split; assumption.
Qed.

Lemma session_label_is_a_calendar_instant_witness :
  exists subj s dt,
    subject_label Example.session = Ok subj /\
    dict_lookup Example.scan "name_string" = Some (VStr s) /\
    DateTime.strptime s = Ok dt /\
    Example.path = PosixPath.join dataset_root
          ["sub-" +:+ subj; "ses-" +:+ DateTime.strftime dt] /\
    (1 <= DateTime.year dt <= 9999 /\ 1 <= DateTime.month dt <= 12 /\
     1 <= DateTime.day dt
       <= DateTime.days_in_month (DateTime.year dt) (DateTime.month dt) /\
     DateTime.hour dt <= 23 /\ DateTime.minute dt <= 59 /\
     DateTime.second dt <= 59 /\ DateTime.microsecond dt <= 999999)%N.
Proof.
  apply (session_label_is_a_calendar_instant Example.cwd Example.session
           Example.scan "/acq" Example.acquisition Example.final).
  apply pair_eq; [vm_compute; reflexivity | reflexivity].
Defined.
(** ** The working directory *)

Lemma isabs_join2 a b :
  PosixPath.isabs a = true -> PosixPath.isabs (PosixPath.join2 a b) = true.
Proof.
  unfold PosixPath.isabs, PosixPath.join2. intros Ha.
  destruct (PyStr.startswith b "/") eqn:Eb; [exact Eb |].
  apply startswith_char in Ha as [a' ->].
  destruct (_ || _); rewrite app_cons; apply startswith_char; eauto.
Qed.

Lemma isabs_join a parts :
  PosixPath.isabs a = true -> PosixPath.isabs (PosixPath.join a parts) = true.
Proof.
  unfold PosixPath.join. revert a.
  induction parts as [|b parts IH]; intros a Ha; [exact Ha |].
  cbn [fold_left]. apply IH, isabs_join2, Ha.
Qed.

Lemma resolve_abs cwd1 cwd2 t p :
  PosixPath.isabs p = true -> Fs.resolve cwd1 t p = Fs.resolve cwd2 t p.
Proof. intros H. unfold Fs.resolve, Fs.start. rewrite H. reflexivity. Qed.

Lemma stat_abs cwd1 cwd2 t p :
  PosixPath.isabs p = true -> Fs.stat cwd1 t p = Fs.stat cwd2 t p.
Proof. intros H. unfold Fs.stat. rewrite (resolve_abs cwd1 cwd2 t p H). reflexivity. Qed.

Lemma bind_ext {A B} (m1 m2 : M A) (k1 k2 : A -> M B) t :
  m1 t = m2 t -> (forall a t1, k1 a t1 = k2 a t1) ->
  bind m1 k1 t = bind m2 k2 t.
Proof.
  intros Hm Hk. unfold bind. rewrite Hm.
  destruct (m2 t) as [[a|e] t1]; [apply Hk | reflexivity].
Qed.

Lemma for_each_ext {A} (l : list A) (f g : A -> M unit) :
  (forall x, In x l -> forall t, f x t = g x t) ->
  forall t, for_each l f t = for_each l g t.
Proof.
  induction l as [|x l IH]; intros Hfg t; [reflexivity |].
  cbn [for_each]. apply bind_ext.
  - apply Hfg. left. reflexivity.
  - intros _ t1. apply IH. intros y Hy. apply Hfg. right. exact Hy.
Qed.

Lemma open_w_abs cwd1 cwd2 p t :
  PosixPath.isabs p = true -> Fs.open_w cwd1 p t = Fs.open_w cwd2 p t.
Proof.
  intros H. unfold Fs.open_w. rewrite (resolve_abs cwd1 cwd2 t p H).
  reflexivity.
Qed.

Lemma copyfile_abs cwd1 cwd2 src dst t :
  PosixPath.isabs src = true -> PosixPath.isabs dst = true ->
  Fs.copyfile cwd1 src dst t = Fs.copyfile cwd2 src dst t.
Proof.
  intros Hs Hd. unfold Fs.copyfile. apply bind_ext.
  - unfold Fs.samefile.
    rewrite (resolve_abs cwd1 cwd2 t src Hs), (resolve_abs cwd1 cwd2 t dst Hd).
    reflexivity.
  - intros [|] t1; [reflexivity |]. apply bind_ext.
    + unfold Fs.read_file. rewrite (stat_abs cwd1 cwd2 t1 src Hs).
      reflexivity.
    + intros data t2. apply bind_ext; [apply open_w_abs, Hd | reflexivity].
Qed.

Lemma try_copy_abs cwd1 cwd2 src dst t :
  PosixPath.isabs src = true -> PosixPath.isabs dst = true ->
  _try_copy cwd1 src dst t = _try_copy cwd2 src dst t.
Proof.
  intros Hs Hd. unfold _try_copy. apply bind_ext.
  - unfold Fs.exists_. rewrite (stat_abs cwd1 cwd2 t src Hs). reflexivity.
  - intros [|] t1; [| reflexivity]. unfold Fs.copy. apply bind_ext.
    + unfold Fs.isdir. rewrite (stat_abs cwd1 cwd2 t1 dst Hd). reflexivity.
    + intros [|] t2; apply copyfile_abs; try assumption.
      apply isabs_join, Hd.
Qed.

Lemma makedirs_abs cwd1 cwd2 name t :
  PosixPath.isabs name = true ->
  Fs.makedirs cwd1 name t = Fs.makedirs cwd2 name t.
Proof. intros H. unfold Fs.makedirs, Fs.start. rewrite H. reflexivity. Qed.

Lemma dataset_root_abs : PosixPath.isabs dataset_root = true.
Proof. reflexivity. Qed.

(** X18. With an absolute [primary_save_path] a call does not depend on
    the working directory of the process: its result and the file system it
    leaves are the same from any working directory.  (A relative
    [primary_save_path] is resolved from the working directory; the dataset
    itself is always addressed from the root.) *)
Theorem absolute_primary_ignores_cwd
  cwd1 cwd2 session_info scan_info primary t :
  PosixPath.isabs primary = true ->
  createMirroredDataset cwd1 session_info scan_info primary t
  = createMirroredDataset cwd2 session_info scan_info primary t.
Proof.
  intros Habs. unfold createMirroredDataset.
  assert (body cwd1 session_info scan_info primary t
          = body cwd2 session_info scan_info primary t) as ->; [| reflexivity].
  unfold body. apply bind_ext; [reflexivity |]. intros subj ta.
  apply bind_ext; [reflexivity |]. intros ses tb.
  assert (PosixPath.isabs
            (PosixPath.join dataset_root ["sub-" +:+ subj; ses]) = true) as Hp
    by apply isabs_join, dataset_root_abs.
  apply bind_ext.
  { unfold make_subfolders. apply for_each_ext. intros sub _ t1.
    apply makedirs_abs, isabs_join, Hp. }
  intros _ t1. apply bind_ext; [reflexivity |]. intros base tc.
  apply bind_ext.
  { unfold copy_data_files. apply for_each_ext.
    intros [ext [sd dd]] _ t2. apply try_copy_abs; apply isabs_join; assumption. }
  intros _ t2. apply bind_ext.
  { unfold copy_seq_files.
    assert (PosixPath.isabs (PosixPath.join primary ["seq"]) = true) as Hseq
      by apply isabs_join, Habs.
    apply bind_ext.
    - unfold Fs.exists_. rewrite (stat_abs cwd1 cwd2 _ _ Hseq). reflexivity.
    - intros [|] t3; [| reflexivity]. apply bind_ext.
      + unfold Fs.listdir. rewrite (resolve_abs cwd1 cwd2 _ _ Hseq).
        reflexivity.
      + intros names t4. apply for_each_ext. intros n _ t5.
        destruct (_ && _); [| reflexivity].
        apply try_copy_abs; apply isabs_join; [exact Hseq |].
        apply isabs_join, Hp. }
  intros _ t3. apply bind_ext; [| reflexivity].
  unfold save_metadata, Fs.json_dump. apply bind_ext.
  - apply open_w_abs, isabs_join, Hp.
  - reflexivity.
Qed.

Lemma absolute_primary_ignores_cwd_witness :
  createMirroredDataset Example.cwd Example.session Example.scan "/acq"
    Example.acquisition
  = createMirroredDataset ["seq"; "acq"] Example.session Example.scan "/acq"
      Example.acquisition.
Proof.
  apply absolute_primary_ignores_cwd. reflexivity.
Defined.
(** ** When the metadata step fails *)




